(** * landscape.package.store: the persistent store of the package task handlers

    A shallow embedding of [landscape/package/store.py].  The SQLite file
    behind a store is a value of type [File]; a connection carries the file as
    committed on disk together with the view of its open transaction; the
    methods wrapped by [with_cursor] are written in a small error-and-state
    monad over that view and then closed by [with_cursor], which commits or
    rolls back exactly as the decorator does. *)

From Stdlib Require Import ZArith List String Bool Lia Sorted.
Import ListNotations.

Local Open Scope Z_scope.

(** ** Exceptions and results *)

(** The exceptions the module raises or lets through.  [OperationalError]
    and [ProgrammingError] are subclasses of [DatabaseError] in the DB-API
    ([is_DatabaseError]). *)
Inductive exn : Type :=
| DatabaseError                       (* the file is not a database *)
| OperationalError                    (* no such table / column, table exists *)
| ProgrammingError                    (* operation on a closed cursor *)
| OverflowError                       (* integer too large for SQLite INTEGER *)
| TypeError                           (* subscript of None *)
| InvalidHashIdDb (filename : string)
| UnknownHashIDRequest (request_id : Z).

Definition is_DatabaseError (e : exn) : bool :=
  match e with
  | DatabaseError | OperationalError | ProgrammingError => true
  | _ => false
  end.

Inductive result (A : Type) : Type :=
| Ok (a : A)
| Raise (e : exn).
Arguments Ok {A} a.
Arguments Raise {A} e.

(** ** The database file *)

(** Payload of a task once decoded.  The [bpickle] codec lives outside this
    module; rows keep the payload it round-trips. *)
Definition Data : Type := Z.

(** Table [hash (id INTEGER PRIMARY KEY, hash BLOB UNIQUE)].  A file opened
    as a hash=>id store may lack the table, or hold a table called [hash]
    whose columns are not [id] and [hash]. *)
Inductive HashTable : Type :=
| NoTable
| OtherColumns
| HashRows (rows : list (Z * string)).

(** Row of [task (id INTEGER PRIMARY KEY, queue TEXT, timestamp TIMESTAMP,
    data BLOB)]. *)
Record TaskRow : Type := mkTaskRow {
  row_id : Z;
  row_queue : string;
  row_timestamp : Z;
  row_data : Data
}.

(** Row of [hash_id_request (id INTEGER PRIMARY KEY, timestamp TIMESTAMP,
    message_id INTEGER, hashes BLOB)]. *)
Record RequestRow : Type := mkRequestRow {
  req_id : Z;
  req_timestamp : Z;
  req_message_id : option Z;
  req_hashes : list string
}.

(** The tables of [ensure_package_schema].  Rows of [task] and
    [hash_id_request] are listed in rowid order, the order of a table scan;
    the three id tables are kept sorted for the same reason. *)
Record PackageTables : Type := mkPackageTables {
  tbl_flag : list (string * bool);
  tbl_available : list Z;
  tbl_available_upgrade : list Z;
  tbl_installed : list Z;
  tbl_hash_id_request : list RequestRow;
  tbl_task : list TaskRow
}.

Record Database : Type := mkDatabase {
  tbl_hash : HashTable;
  tbl_package : option PackageTables
}.

(** What SQLite finds under a file name.  A file that does not exist yet, or
    is empty, is a database without tables. *)
Inductive File : Type :=
| NotADatabase
| Sqlite (d : Database).

Definition empty_database : Database :=
  {| tbl_hash := NoTable; tbl_package := None |}.

Definition empty_tables : PackageTables :=
  {| tbl_flag := []; tbl_available := []; tbl_available_upgrade := [];
     tbl_installed := []; tbl_hash_id_request := []; tbl_task := [] |}.

(** A connection: the file as committed, and the file as the open
    transaction sees it. *)
Record Connection : Type := mkConnection {
  disk : File;
  txn : File
}.

(** Every name has a file under it: names that cannot be opened at all (a
    missing directory, no permission), for which [sqlite3.connect] itself
    raises, are outside the model. *)
Definition FileSystem : Type := string -> File.

(** [sqlite3.connect(filename)]. *)
Definition connect (fs : FileSystem) (filename : string) : Connection :=
  {| disk := fs filename; txn := fs filename |}.

Definition commit (c : Connection) : Connection :=
  {| disk := txn c; txn := txn c |}.

Definition rollback (c : Connection) : Connection :=
  {| disk := disk c; txn := disk c |}.

(** No transaction is open. *)
Definition clean (c : Connection) : Prop := txn c = disk c.

(** ** Method bodies: a cursor over the transaction's view *)

Definition M (A : Type) : Type := File -> result A * File.

Definition ret {A : Type} (a : A) : M A := fun f => (Ok a, f).

Definition raise {A : Type} (e : exn) : M A := fun f => (Raise e, f).

Definition bind {A B : Type} (m : M A) (k : A -> M B) : M B :=
  fun f =>
    match m f with
    | (Ok a, f') => k a f'
    | (Raise e, f') => (Raise e, f')
    end.

Notation "x <- m ;; k" := (bind m (fun x => k))
  (at level 61, m at next level, right associativity).
Notation "m ;;; k" := (bind m (fun _ => k))
  (at level 61, right associativity).

(** [try: m except e (when catches e): handler e]. *)
Definition try_except {A : Type} (m : M A) (catches : exn -> bool)
    (handler : exn -> M A) : M A :=
  fun f =>
    match m f with
    | (Ok a, f') => (Ok a, f')
    | (Raise e, f') => if catches e then handler e f' else (Raise e, f')
    end.

(** [for x in xs: body x]. *)
Fixpoint for_each {A : Type} (xs : list A) (body : A -> M unit) : M unit :=
  match xs with
  | [] => ret tt
  | x :: rest => body x ;;; for_each rest body
  end.

(** The decorator [with_cursor]: run the method on a cursor, commit on normal
    return, roll back and re-raise on any exception. *)
Definition with_cursor {A : Type} (method : M A) (c : Connection)
    : result A * Connection :=
  match method (txn c) with
  | (Ok r, f) => (Ok r, commit {| disk := disk c; txn := f |})
  | (Raise e, f) => (Raise e, rollback {| disk := disk c; txn := f |})
  end.

(** ** SQL statements *)

Definition the_database : M Database :=
  fun f =>
    match f with
    | NotADatabase => (Raise DatabaseError, f)
    | Sqlite d => (Ok d, f)
    end.

Definition write_database (d : Database) : M unit :=
  fun _ => (Ok tt, Sqlite d).

Definition table_hash : M (list (Z * string)) :=
  d <- the_database ;;
  match tbl_hash d with
  | HashRows rows => ret rows
  | NoTable | OtherColumns => raise OperationalError
  end.

Definition write_hash (rows : list (Z * string)) : M unit :=
  d <- the_database ;;
  write_database {| tbl_hash := HashRows rows; tbl_package := tbl_package d |}.

Definition package_tables : M PackageTables :=
  d <- the_database ;;
  match tbl_package d with
  | Some t => ret t
  | None => raise OperationalError
  end.

Definition write_tables (t : PackageTables) : M unit :=
  d <- the_database ;;
  write_database {| tbl_hash := tbl_hash d; tbl_package := Some t |}.

(** Integers are bound as signed 64-bit values; the binding refuses others
    with [OverflowError], after the statement has been prepared. *)
Definition fits_int64 (n : Z) : bool :=
  (- 2 ^ 63 <=? n) && (n <? 2 ^ 63).

Definition bind_int (n : Z) : M unit :=
  if fits_int64 n then ret tt else raise OverflowError.

(** [CREATE TABLE hash (id INTEGER PRIMARY KEY, hash BLOB UNIQUE)]. *)
Definition CREATE_TABLE_hash : M unit :=
  d <- the_database ;;
  match tbl_hash d with
  | NoTable =>
      write_database {| tbl_hash := HashRows []; tbl_package := tbl_package d |}
  | OtherColumns | HashRows _ => raise OperationalError
  end.

(** The six [CREATE TABLE] statements of [ensure_package_schema], taken
    together: a file holds the six tables or none of them (a file with only
    some of them is outside the model). *)
Definition CREATE_package_tables : M unit :=
  d <- the_database ;;
  match tbl_package d with
  | None =>
      write_database {| tbl_hash := tbl_hash d; tbl_package := Some empty_tables |}
  | Some _ => raise OperationalError
  end.

(** [REPLACE INTO hash VALUES (?, ?)]: rows in conflict with the new one on
    the primary key [id] or on the unique column [hash] are deleted, then the
    row is inserted. *)
Definition conflicts (id : Z) (hash : string) (row : Z * string) : bool :=
  (fst row =? id) || String.eqb (snd row) hash.

Definition REPLACE_INTO_hash (id : Z) (hash : string) : M unit :=
  rows <- table_hash ;;
  bind_int id ;;;
  write_hash (filter (fun row => negb (conflicts id hash row)) rows ++ [(id, hash)]).

(** [SELECT id FROM hash WHERE hash=?]. *)
Definition SELECT_id_FROM_hash (hash : string) : M (list Z) :=
  rows <- table_hash ;;
  ret (map fst (filter (fun row => String.eqb (snd row) hash) rows)).

(** [SELECT hash FROM hash WHERE id=?]. *)
Definition SELECT_hash_FROM_hash (id : Z) : M (list string) :=
  rows <- table_hash ;;
  bind_int id ;;;
  ret (map snd (filter (fun row => fst row =? id) rows)).

(** [SELECT hash, id FROM hash]. *)
Definition SELECT_hash_id_FROM_hash : M (list (string * Z)) :=
  rows <- table_hash ;;
  ret (map (fun row => (snd row, fst row)) rows).

(** [DELETE FROM hash].  The statement names no column, so it runs on any
    table called [hash]; a table with other columns stays one, its rows not
    being part of the model. *)
Definition DELETE_FROM_hash : M unit :=
  d <- the_database ;;
  match tbl_hash d with
  | NoTable => raise OperationalError
  | OtherColumns => ret tt
  | HashRows _ => write_hash []
  end.

(** [cursor.fetchone()]. *)
Definition fetchone {A : Type} (rows : list A) : option A := hd_error rows.

(** ** HashIdStore *)

Module HashIdStore.

Record t : Type := mk {
  _filename : string;
  _db : Connection
}.

(** [ensure_hash_id_schema]: create the table, rolling back when the
    statement is refused. *)
Definition ensure_hash_id_schema (db : Connection) : Connection :=
  match CREATE_TABLE_hash (txn db) with
  | (Ok _, f) => commit {| disk := disk db; txn := f |}
  | (Raise e, f) =>
      (* both OperationalError and DatabaseError are caught *)
      rollback {| disk := disk db; txn := f |}
  end.

Definition __init__ (fs : FileSystem) (filename : string) : t :=
  {| _filename := filename;
     _db := ensure_hash_id_schema (connect fs filename) |}.

(** [hash_ids] is the dict, as the list of items [iteritems] walks. *)
Definition set_hash_ids_body (hash_ids : list (string * Z)) : M unit :=
  for_each hash_ids (fun item => REPLACE_INTO_hash (snd item) (fst item)).

Definition set_hash_ids (hash_ids : list (string * Z)) :=
  with_cursor (set_hash_ids_body hash_ids).

Definition get_hash_id_body (hash : string) : M (option Z) :=
  rows <- SELECT_id_FROM_hash hash ;;
  match fetchone rows with
  | Some value => ret (Some value)
  | None => ret None
  end.

Definition get_hash_id (hash : string) := with_cursor (get_hash_id_body hash).

Definition get_hash_ids_body : M (list (string * Z)) :=
  SELECT_hash_id_FROM_hash.

Definition get_hash_ids := with_cursor get_hash_ids_body.

Definition get_id_hash_body (id : Z) : M (option string) :=
  rows <- SELECT_hash_FROM_hash id ;;
  match fetchone rows with
  | Some value => ret (Some value)
  | None => ret None
  end.

Definition get_id_hash (id : Z) := with_cursor (get_id_hash_body id).

Definition clear_hash_ids_body : M unit := DELETE_FROM_hash.

Definition clear_hash_ids := with_cursor clear_hash_ids_body.

Definition check_sanity_body (filename : string) : M unit :=
  try_except (SELECT_id_FROM_hash EmptyString ;;; ret tt)
             is_DatabaseError
             (fun _ => raise (InvalidHashIdDb filename)).

Definition check_sanity (self : t) : result unit * t :=
  let (r, db) := with_cursor (check_sanity_body (_filename self)) (_db self) in
  (r, {| _filename := _filename self; _db := db |}).

End HashIdStore.

(** ** Statements on the tables of [ensure_package_schema] *)

(** The rowid SQLite gives a row inserted without one: one more than the
    largest in use, 1 in an empty table.  (Rowids stay far from 2^63-1, where
    SQLite would start to pick unused ones at random.) *)
Definition next_rowid (ids : list Z) : Z :=
  match ids with
  | [] => 1
  | id :: rest => 1 + fold_right Z.max id rest
  end.

(** The three tables [(id INTEGER PRIMARY KEY)]. *)
Inductive IdTable : Type := available | available_upgrade | installed.

Definition id_table (name : IdTable) (t : PackageTables) : list Z :=
  match name with
  | available => tbl_available t
  | available_upgrade => tbl_available_upgrade t
  | installed => tbl_installed t
  end.

Definition set_id_table (name : IdTable) (ids : list Z) (t : PackageTables)
    : PackageTables :=
  match name with
  | available =>
      {| tbl_flag := tbl_flag t; tbl_available := ids;
         tbl_available_upgrade := tbl_available_upgrade t;
         tbl_installed := tbl_installed t;
         tbl_hash_id_request := tbl_hash_id_request t; tbl_task := tbl_task t |}
  | available_upgrade =>
      {| tbl_flag := tbl_flag t; tbl_available := tbl_available t;
         tbl_available_upgrade := ids;
         tbl_installed := tbl_installed t;
         tbl_hash_id_request := tbl_hash_id_request t; tbl_task := tbl_task t |}
  | installed =>
      {| tbl_flag := tbl_flag t; tbl_available := tbl_available t;
         tbl_available_upgrade := tbl_available_upgrade t;
         tbl_installed := ids;
         tbl_hash_id_request := tbl_hash_id_request t; tbl_task := tbl_task t |}
  end.

Definition set_flags (flags : list (string * bool)) (t : PackageTables)
    : PackageTables :=
  {| tbl_flag := flags; tbl_available := tbl_available t;
     tbl_available_upgrade := tbl_available_upgrade t;
     tbl_installed := tbl_installed t;
     tbl_hash_id_request := tbl_hash_id_request t; tbl_task := tbl_task t |}.

Definition set_requests (rows : list RequestRow) (t : PackageTables)
    : PackageTables :=
  {| tbl_flag := tbl_flag t; tbl_available := tbl_available t;
     tbl_available_upgrade := tbl_available_upgrade t;
     tbl_installed := tbl_installed t;
     tbl_hash_id_request := rows; tbl_task := tbl_task t |}.

Definition set_tasks (rows : list TaskRow) (t : PackageTables)
    : PackageTables :=
  {| tbl_flag := tbl_flag t; tbl_available := tbl_available t;
     tbl_available_upgrade := tbl_available_upgrade t;
     tbl_installed := tbl_installed t;
     tbl_hash_id_request := tbl_hash_id_request t; tbl_task := rows |}.

(** Insertion in rowid order; a row with the same key is replaced. *)
Fixpoint insert_id (id : Z) (ids : list Z) : list Z :=
  match ids with
  | [] => [id]
  | x :: rest =>
      if id <? x then id :: ids
      else if id =? x then ids
      else x :: insert_id id rest
  end.

Definition mem (id : Z) (ids : list Z) : bool := existsb (Z.eqb id) ids.

(** [REPLACE INTO <table> VALUES (?)]. *)
Definition REPLACE_INTO_ids (name : IdTable) (id : Z) : M unit :=
  t <- package_tables ;;
  bind_int id ;;;
  write_tables (set_id_table name (insert_id id (id_table name t)) t).

(** [DELETE FROM <table> WHERE id IN (...)]; the list may be empty. *)
Definition DELETE_FROM_ids_WHERE_id_IN (name : IdTable) (ids : list Z) : M unit :=
  t <- package_tables ;;
  write_tables
    (set_id_table name (filter (fun id => negb (mem id ids)) (id_table name t)) t).

(** [DELETE FROM <table>]. *)
Definition DELETE_FROM_ids (name : IdTable) : M unit :=
  t <- package_tables ;;
  write_tables (set_id_table name [] t).

(** [SELECT id FROM <table>]. *)
Definition SELECT_id_FROM_ids (name : IdTable) : M (list Z) :=
  t <- package_tables ;;
  ret (id_table name t).

(** [SELECT value FROM flag WHERE name=?]. *)
Definition SELECT_value_FROM_flag (name : string) : M (list bool) :=
  t <- package_tables ;;
  ret (map snd (filter (fun row => String.eqb (fst row) name) (tbl_flag t))).

(** [REPLACE INTO flag VALUES (?, ?)]. *)
Definition REPLACE_INTO_flag (name : string) (value : bool) : M unit :=
  t <- package_tables ;;
  write_tables
    (set_flags
       (filter (fun row => negb (String.eqb (fst row) name)) (tbl_flag t)
        ++ [(name, value)]) t).

(** [INSERT INTO hash_id_request (hashes, timestamp) VALUES (?,?)]; the
    result is [cursor.lastrowid]. *)
Definition INSERT_INTO_hash_id_request (hashes : list string) (timestamp : Z)
    : M Z :=
  t <- package_tables ;;
  let id := next_rowid (map req_id (tbl_hash_id_request t)) in
  write_tables
    (set_requests
       (tbl_hash_id_request t
        ++ [{| req_id := id; req_timestamp := timestamp;
               req_message_id := None; req_hashes := hashes |}]) t) ;;;
  ret id.

(** [SELECT ... FROM hash_id_request WHERE id=?]: the matching rows. *)
Definition SELECT_FROM_hash_id_request_WHERE_id (id : Z) : M (list RequestRow) :=
  t <- package_tables ;;
  bind_int id ;;;
  ret (filter (fun row => req_id row =? id) (tbl_hash_id_request t)).

(** [SELECT id FROM hash_id_request]. *)
Definition SELECT_id_FROM_hash_id_request : M (list Z) :=
  t <- package_tables ;;
  ret (map req_id (tbl_hash_id_request t)).

(** [DELETE FROM hash_id_request]. *)
Definition DELETE_FROM_hash_id_request : M unit :=
  t <- package_tables ;;
  write_tables (set_requests [] t).

(** [DELETE FROM hash_id_request WHERE id=?]. *)
Definition DELETE_FROM_hash_id_request_WHERE_id (id : Z) : M unit :=
  t <- package_tables ;;
  bind_int id ;;;
  write_tables
    (set_requests
       (filter (fun row => negb (req_id row =? id)) (tbl_hash_id_request t)) t).

(** [UPDATE hash_id_request SET <column>=? WHERE id=?]: the new value and
    the id are both bound, [set_column] writes the value into the column. *)
Definition UPDATE_hash_id_request (set_column : Z -> RequestRow -> RequestRow)
    (value id : Z) : M unit :=
  t <- package_tables ;;
  bind_int value ;;;
  bind_int id ;;;
  write_tables
    (set_requests
       (map (fun row => if req_id row =? id then set_column value row else row)
            (tbl_hash_id_request t)) t).

(** [INSERT INTO task (queue, timestamp, data) VALUES (?,?,?)]; the result
    is [cursor.lastrowid]. *)
Definition INSERT_INTO_task (queue : string) (timestamp : Z) (data : Data)
    : M Z :=
  t <- package_tables ;;
  let id := next_rowid (map row_id (tbl_task t)) in
  write_tables
    (set_tasks
       (tbl_task t
        ++ [{| row_id := id; row_queue := queue;
               row_timestamp := timestamp; row_data := data |}]) t) ;;;
  ret id.

(** [ORDER BY timestamp]: SQLite sorts the scanned rows by the key and
    keeps rows of equal key in the order of the scan. *)
Fixpoint insert_by_timestamp (row : TaskRow) (sorted : list TaskRow)
    : list TaskRow :=
  match sorted with
  | [] => [row]
  | x :: rest =>
      if row_timestamp row <=? row_timestamp x then row :: sorted
      else x :: insert_by_timestamp row rest
  end.

Definition ORDER_BY_timestamp (rows : list TaskRow) : list TaskRow :=
  fold_right insert_by_timestamp [] rows.

(** [SELECT id FROM task WHERE queue=? ORDER BY timestamp]. *)
Definition SELECT_id_FROM_task_WHERE_queue_ORDER_BY_timestamp (queue : string)
    : M (list Z) :=
  t <- package_tables ;;
  ret (map row_id
         (ORDER_BY_timestamp
            (filter (fun row => String.eqb (row_queue row) queue) (tbl_task t)))).

(** [SELECT queue, timestamp, data FROM task WHERE id=?]. *)
Definition SELECT_FROM_task_WHERE_id (id : Z) : M (list TaskRow) :=
  t <- package_tables ;;
  bind_int id ;;;
  ret (filter (fun row => row_id row =? id) (tbl_task t)).

(** [DELETE FROM task WHERE id=?]. *)
Definition DELETE_FROM_task_WHERE_id (id : Z) : M unit :=
  t <- package_tables ;;
  bind_int id ;;;
  write_tables
    (set_tasks (filter (fun row => negb (row_id row =? id)) (tbl_task t)) t).

(** [DELETE FROM task WHERE id NOT IN (...)]; the ids are spliced into the
    statement as text, and the list may be empty. *)
Definition DELETE_FROM_task_WHERE_id_NOT_IN (ids : list Z) : M unit :=
  t <- package_tables ;;
  write_tables
    (set_tasks (filter (fun row => mem (row_id row) ids) (tbl_task t)) t).

(** ** HashIDRequest *)

Module HashIDRequest.

(** The handle keeps the row id; [_db] is the connection of the store that
    made it, passed to each method. *)
Record t : Type := mk { id : Z }.

(** [cursor.fetchone()[0]]: subscripting [None] raises. *)
Definition first_column {A B : Type} (column : A -> B) (rows : list A) : M B :=
  match fetchone rows with
  | Some row => ret (column row)
  | None => raise TypeError
  end.

Definition hashes (self : t) :=
  with_cursor (rows <- SELECT_FROM_hash_id_request_WHERE_id (id self) ;;
               first_column req_hashes rows).

Definition _get_timestamp (self : t) :=
  with_cursor (rows <- SELECT_FROM_hash_id_request_WHERE_id (id self) ;;
               first_column req_timestamp rows).

Definition _set_timestamp (self : t) (value : Z) :=
  with_cursor
    (UPDATE_hash_id_request
       (fun value row => {| req_id := req_id row; req_timestamp := value;
                            req_message_id := req_message_id row;
                            req_hashes := req_hashes row |})
       value (id self)).

Definition _get_message_id (self : t) :=
  with_cursor (rows <- SELECT_FROM_hash_id_request_WHERE_id (id self) ;;
               first_column req_message_id rows).

Definition _set_message_id (self : t) (value : Z) :=
  with_cursor
    (UPDATE_hash_id_request
       (fun value row => {| req_id := req_id row;
                            req_timestamp := req_timestamp row;
                            req_message_id := Some value;
                            req_hashes := req_hashes row |})
       value (id self)).

Definition remove (self : t) :=
  with_cursor (DELETE_FROM_hash_id_request_WHERE_id (id self)).

End HashIDRequest.

(** ** PackageTask *)

Module PackageTask.

(** The handle caches [queue], [timestamp] and [data] when it is built. *)
Record t : Type := mk {
  id : Z;
  queue : string;
  timestamp : Z;
  data : Data
}.

(** The constructor reads the row on a cursor of its own, inside whatever
    transaction is open on the connection. *)
Definition __init__ (id : Z) : M t :=
  rows <- SELECT_FROM_task_WHERE_id id ;;
  match fetchone rows with
  | Some row =>
      ret {| id := id; queue := row_queue row;
             timestamp := row_timestamp row; data := row_data row |}
  | None => raise TypeError
  end.

Definition remove (self : t) :=
  with_cursor (DELETE_FROM_task_WHERE_id (id self)).

End PackageTask.

(** ** PackageStore *)

Module PackageStore.

(** [_db] is the connection of the primary file, shared with every handle
    the store gives out; [_hash_id_stores] the lookaside stores, in the
    order they were attached. *)
Record t : Type := mk {
  _filename : string;
  _db : Connection;
  _hash_id_stores : list HashIdStore.t
}.

Definition ensure_package_schema (db : Connection) : result unit * Connection :=
  match CREATE_package_tables (txn db) with
  | (Ok _, f) => (Ok tt, commit {| disk := disk db; txn := f |})
  | (Raise OperationalError, f) =>
      (Ok tt, rollback {| disk := disk db; txn := f |})
  | (Raise e, f) => (Raise e, {| disk := disk db; txn := f |})
  end.

Definition __init__ (fs : FileSystem) (filename : string) : result t :=
  let base := HashIdStore.__init__ fs filename in
  match ensure_package_schema (HashIdStore._db base) with
  | (Ok _, db) =>
      Ok {| _filename := filename; _db := db; _hash_id_stores := [] |}
  | (Raise e, _) => Raise e
  end.

(** The file system once [filename] holds [file]. *)
Definition written (fs : FileSystem) (filename : string) (file : File)
    : FileSystem :=
  fun name => if String.eqb name filename then file else fs name.

(** [add_hash_id_db]: the store is appended only when [check_sanity] returns.
    The result carries the file system as the new connection left it. *)
Definition add_hash_id_db (filename : string) (fs : FileSystem) (self : t)
    : result unit * FileSystem * t :=
  let hash_id_store := HashIdStore.__init__ fs filename in
  match HashIdStore.check_sanity hash_id_store with
  | (Raise e, hash_id_store') =>
      (Raise e,
       written fs filename (disk (HashIdStore._db hash_id_store')),
       self)
  | (Ok _, hash_id_store') =>
      (Ok tt,
       written fs filename (disk (HashIdStore._db hash_id_store')),
       {| _filename := _filename self; _db := _db self;
          _hash_id_stores := _hash_id_stores self ++ [hash_id_store'] |})
  end.

Definition has_hash_id_db (self : t) : bool :=
  (0 <? Z.of_nat (List.length (_hash_id_stores self))).

(** Truth value of the [id] a lookaside store returned: [None] and [0] are
    false. *)
Definition truthy (id : option Z) : bool :=
  match id with
  | Some n => negb (n =? 0)
  | None => false
  end.

(** The loop over [self._hash_id_stores]; [None] when it falls through. *)
Fixpoint lookaside (stores : list HashIdStore.t) (hash : string)
    : result (option Z) * list HashIdStore.t :=
  match stores with
  | [] => (Ok None, [])
  | store :: rest =>
      match HashIdStore.get_hash_id hash (HashIdStore._db store) with
      | (Raise e, db) =>
          (Raise e,
           {| HashIdStore._filename := HashIdStore._filename store;
              HashIdStore._db := db |} :: rest)
      | (Ok id, db) =>
          let store' :=
            {| HashIdStore._filename := HashIdStore._filename store;
               HashIdStore._db := db |} in
          if truthy id then (Ok id, store' :: rest)
          else
            let (r, rest') := lookaside rest hash in
            (r, store' :: rest')
      end
  end.

Definition get_hash_id (hash : string) (self : t) : result (option Z) * t :=
  match lookaside (_hash_id_stores self) hash with
  | (Raise e, stores) =>
      (Raise e,
       {| _filename := _filename self; _db := _db self;
          _hash_id_stores := stores |})
  | (Ok (Some id), stores) =>
      (Ok (Some id),
       {| _filename := _filename self; _db := _db self;
          _hash_id_stores := stores |})
  | (Ok None, stores) =>
      let (r, db) := HashIdStore.get_hash_id hash (_db self) in
      (r, {| _filename := _filename self; _db := db;
             _hash_id_stores := stores |})
  end.

Definition add_available (ids : list Z) :=
  with_cursor (for_each ids (REPLACE_INTO_ids available)).

Definition remove_available (ids : list Z) :=
  with_cursor (DELETE_FROM_ids_WHERE_id_IN available ids).

Definition clear_available := with_cursor (DELETE_FROM_ids available).

Definition get_available := with_cursor (SELECT_id_FROM_ids available).

Definition add_available_upgrades (ids : list Z) :=
  with_cursor (for_each ids (REPLACE_INTO_ids available_upgrade)).

Definition remove_available_upgrades (ids : list Z) :=
  with_cursor (DELETE_FROM_ids_WHERE_id_IN available_upgrade ids).

Definition clear_available_upgrades :=
  with_cursor (DELETE_FROM_ids available_upgrade).

Definition get_available_upgrades :=
  with_cursor (SELECT_id_FROM_ids available_upgrade).

Definition add_installed (ids : list Z) :=
  with_cursor (for_each ids (REPLACE_INTO_ids installed)).

Definition remove_installed (ids : list Z) :=
  with_cursor (DELETE_FROM_ids_WHERE_id_IN installed ids).

Definition clear_installed := with_cursor (DELETE_FROM_ids installed).

Definition get_installed := with_cursor (SELECT_id_FROM_ids installed).

(** [now] is the reading of [time.time()]. *)
Definition add_hash_id_request (hashes : list string) (now : Z) :=
  with_cursor (lastrowid <- INSERT_INTO_hash_id_request hashes now ;;
               ret (HashIDRequest.mk lastrowid)).

Definition get_hash_id_request (request_id : Z) :=
  with_cursor (rows <- SELECT_FROM_hash_id_request_WHERE_id request_id ;;
               match fetchone rows with
               | None => raise (UnknownHashIDRequest request_id)
               | Some _ => ret (HashIDRequest.mk request_id)
               end).

Definition clear_hash_id_requests := with_cursor DELETE_FROM_hash_id_request.

Definition add_task (queue : string) (data : Data) (now : Z) :=
  with_cursor (lastrowid <- INSERT_INTO_task queue now data ;;
               PackageTask.__init__ lastrowid).

Definition get_next_task_body (queue : string) : M (option PackageTask.t) :=
  rows <- SELECT_id_FROM_task_WHERE_queue_ORDER_BY_timestamp queue ;;
  match fetchone rows with
  | Some row =>
      task <- PackageTask.__init__ row ;;
      ret (Some task)
  | None => ret None
  end.

Definition get_next_task (queue : string) :=
  with_cursor (get_next_task_body queue).

Definition clear_tasks (except_tasks : list PackageTask.t) :=
  with_cursor (DELETE_FROM_task_WHERE_id_NOT_IN (map PackageTask.id except_tasks)).

Definition get_flag (name : string) :=
  with_cursor (rows <- SELECT_value_FROM_flag name ;;
               match fetchone rows with
               | Some value => ret value
               | None => ret false
               end).

Definition set_flag (name : string) (value : bool) :=
  with_cursor (REPLACE_INTO_flag name value).

(** A generator object.  Calling a generator function runs none of its
    body: the body starts at the first [next()], and is suspended again at
    each [yield]. *)
Inductive Generator : Type :=
| Created
| Suspended (rows : list Z)
| Finished.

Inductive Step : Type :=
| Yield (request : HashIDRequest.t)
| StopIteration
| Raised (e : exn).

(** [iter_hash_id_requests] is a generator function under [with_cursor]:
    the decorator calls it, gets the generator object back at once, closes
    the cursor, commits and returns the object. *)
Definition iter_hash_id_requests := with_cursor (ret Created).

(** The [for row in cursor.fetchall(): yield ...] loop, resumed. *)
Definition resume (rows : list Z) : Step * Generator :=
  match rows with
  | [] => (StopIteration, Finished)
  | row :: rest => (Yield (HashIDRequest.mk row), Suspended rest)
  end.

(** [next(generator)] with the store's connection as it is at that moment.
    The first call executes the [SELECT] on the cursor the decorator has
    closed, which the sqlite3 bindings this module targets (pysqlite2, and
    the sqlite3 of Python 2.5 and 2.6) execute like on any other cursor; no
    commit or rollback follows, the decorator having returned long before. *)
Definition next (generator : Generator) (db : Connection)
    : Step * Generator * Connection :=
  match generator with
  | Created =>
      match SELECT_id_FROM_hash_id_request (txn db) with
      | (Ok rows, f) =>
          let (step, generator') := resume rows in
          (step, generator', {| disk := disk db; txn := f |})
      | (Raise e, f) => (Raised e, Finished, {| disk := disk db; txn := f |})
      end
  | Suspended rows =>
      let (step, generator') := resume rows in (step, generator', db)
  | Finished => (StopIteration, Finished, db)
  end.

(** Successive [next()] calls, the k-th finding the connection in the k-th
    state of [dbs] (whatever the program did to the store in between). *)
Fixpoint nexts (generator : Generator) (dbs : list Connection) : list Step :=
  match dbs with
  | [] => []
  | db :: later =>
      match next generator db with
      | (step, generator', _) => step :: nexts generator' later
      end
  end.

(** The same [next(generator)] under bindings that refuse a closed cursor
    (pysqlite 2.6, the sqlite3 of Python 2.7 and later): the [execute] of
    the first call raises [ProgrammingError] before any statement runs,
    which ends the generator. *)
Definition next_refused (generator : Generator) (db : Connection)
    : Step * Generator * Connection :=
  match generator with
  | Created => (Raised ProgrammingError, Finished, db)
  | Suspended rows =>
      let (step, generator') := resume rows in (step, generator', db)
  | Finished => (StopIteration, Finished, db)
  end.

Fixpoint nexts_refused (generator : Generator) (dbs : list Connection)
    : list Step :=
  match dbs with
  | [] => []
  | db :: later =>
      match next_refused generator db with
      | (step, generator', _) => step :: nexts_refused generator' later
      end
  end.

End PackageStore.

(** The rows of table [task] in a file, none when the table is missing. *)
Definition task_rows (f : File) : list TaskRow :=
  match f with
  | Sqlite {| tbl_package := Some t |} => tbl_task t
  | _ => []
  end.

(** ** PackageTaskHandler: draining the queue *)

Module PackageTaskHandler.

Definition queue_name : string := "default".

(** How a run ends: the queue was emptied, a task operation failed, or the
    store raised. *)
Inductive Outcome : Type :=
| DONE
| FAILED (failure : string)
| CRASHED (e : exn).

(** Modelled from the spec: [landscape/package/taskhandler.py], which holds
    [PackageTaskHandler.handle_tasks], is not among the sources (only its
    tests are).  The loop follows the DRAINING state of the specification:
    fetch the oldest task of the handler's queue; with none left the run is
    done; otherwise run the per-task operation on the handle, on success
    remove the task and go on, on failure stop at once, the task left in
    place, and surface the failure.  [handle_task] tells for each task
    whether its operation succeeds ([None]) or how it fails; the result lists
    the tasks the operation was run on, in order. *)
Fixpoint drain (fuel : nat) (handle_task : PackageTask.t -> option string)
    (db : Connection)
    : option (list PackageTask.t * Outcome) * Connection :=
  match fuel with
  | O => (None, db)
  | S fuel' =>
      match PackageStore.get_next_task queue_name db with
      | (Raise e, db1) => (Some ([], CRASHED e), db1)
      | (Ok None, db1) => (Some ([], DONE), db1)
      | (Ok (Some task), db1) =>
          match handle_task task with
          | Some failure => (Some ([task], FAILED failure), db1)
          | None =>
              match PackageTask.remove task db1 with
              | (Raise e, db2) => (Some ([task], CRASHED e), db2)
              | (Ok _, db2) =>
                  match drain fuel' handle_task db2 with
                  | (Some (attempted, outcome), db3) =>
                      (Some (task :: attempted, outcome), db3)
                  | (None, db3) => (None, db3)
                  end
              end
          end
      end
  end.

(** One round per stored task and a last one that finds the queue empty. *)
Definition handle_tasks (handle_task : PackageTask.t -> option string)
    (db : Connection) :=
  drain (S (List.length (task_rows (txn db)))) handle_task db.

End PackageTaskHandler.

(** ** The mutating operations, as calls on a connection *)

(** Every method of the store and of its handles that writes to the
    database.  [now] stands for the reading of the clock. *)
Inductive Mutation : Type :=
| Set_hash_ids (hash_ids : list (string * Z))
| Clear_hash_ids
| Add_available (ids : list Z)
| Remove_available (ids : list Z)
| Clear_available
| Add_available_upgrades (ids : list Z)
| Remove_available_upgrades (ids : list Z)
| Clear_available_upgrades
| Add_installed (ids : list Z)
| Remove_installed (ids : list Z)
| Clear_installed
| Add_hash_id_request (hashes : list string) (now : Z)
| Clear_hash_id_requests
| Add_task (queue : string) (data : Data) (now : Z)
| Clear_tasks (except_tasks : list PackageTask.t)
| Set_flag (name : string) (value : bool)
| Request_set_timestamp (request : HashIDRequest.t) (value : Z)
| Request_set_message_id (request : HashIDRequest.t) (value : Z)
| Request_remove (request : HashIDRequest.t)
| Task_remove (task : PackageTask.t).

(** What the caller sees of a call whose value it drops: the exception, if
    any, and the connection afterwards. *)
Definition outcome {A : Type} (r : result A * Connection)
    : option exn * Connection :=
  match r with
  | (Ok _, c) => (None, c)
  | (Raise e, c) => (Some e, c)
  end.

Definition perform (m : Mutation) (c : Connection) : option exn * Connection :=
  match m with
  | Set_hash_ids hash_ids => outcome (HashIdStore.set_hash_ids hash_ids c)
  | Clear_hash_ids => outcome (HashIdStore.clear_hash_ids c)
  | Add_available ids => outcome (PackageStore.add_available ids c)
  | Remove_available ids => outcome (PackageStore.remove_available ids c)
  | Clear_available => outcome (PackageStore.clear_available c)
  | Add_available_upgrades ids =>
      outcome (PackageStore.add_available_upgrades ids c)
  | Remove_available_upgrades ids =>
      outcome (PackageStore.remove_available_upgrades ids c)
  | Clear_available_upgrades => outcome (PackageStore.clear_available_upgrades c)
  | Add_installed ids => outcome (PackageStore.add_installed ids c)
  | Remove_installed ids => outcome (PackageStore.remove_installed ids c)
  | Clear_installed => outcome (PackageStore.clear_installed c)
  | Add_hash_id_request hashes now =>
      outcome (PackageStore.add_hash_id_request hashes now c)
  | Clear_hash_id_requests => outcome (PackageStore.clear_hash_id_requests c)
  | Add_task queue data now => outcome (PackageStore.add_task queue data now c)
  | Clear_tasks except_tasks => outcome (PackageStore.clear_tasks except_tasks c)
  | Set_flag name value => outcome (PackageStore.set_flag name value c)
  | Request_set_timestamp request value =>
      outcome (HashIDRequest._set_timestamp request value c)
  | Request_set_message_id request value =>
      outcome (HashIDRequest._set_message_id request value c)
  | Request_remove request => outcome (HashIDRequest.remove request c)
  | Task_remove task => outcome (PackageTask.remove task c)
  end.

(** A sequence of calls, exceptions dropped by the caller. *)
Definition perform_all (ms : list Mutation) (c : Connection) : Connection :=
  fold_left (fun c m => snd (perform m c)) ms c.

(** Whether a later call leaves the pair [hash => id] alone: it is not
    [clear_hash_ids], and a [set_hash_ids] gives neither [hash] another id
    nor [id] another hash. *)
Definition keeps_pair (hash : string) (id : Z) (m : Mutation) : bool :=
  match m with
  | Set_hash_ids hash_ids =>
      forallb (fun item => Bool.eqb (String.eqb (fst item) hash) (snd item =? id))
              hash_ids
  | Clear_hash_ids => false
  | _ => true
  end.

(** ** Example stores *)

(** A file system where no file exists yet. *)
Definition no_files : FileSystem := fun _ => Sqlite empty_database.

(** The connection of [PackageStore(filename)] on a new file: every table
    exists and is empty. *)
Definition new_connection : Connection :=
  {| disk := Sqlite {| tbl_hash := HashRows []; tbl_package := Some empty_tables |};
     txn := Sqlite {| tbl_hash := HashRows []; tbl_package := Some empty_tables |} |}.

Definition new_store : PackageStore.t :=
  {| PackageStore._filename := "database";
     PackageStore._db := new_connection;
     PackageStore._hash_id_stores := [] |}.

(** A hash=>id store file holding the given rows. *)
Definition hash_id_file (rows : list (Z * string)) : File :=
  Sqlite {| tbl_hash := HashRows rows; tbl_package := None |}.

Definition hash_id_store (filename : string) (rows : list (Z * string))
    : HashIdStore.t :=
  {| HashIdStore._filename := filename;
     HashIdStore._db := {| disk := hash_id_file rows; txn := hash_id_file rows |} |}.

(** The connection once [m] has been called on it. *)
Definition after {A : Type} (m : Connection -> result A * Connection)
    (c : Connection) : Connection := snd (m c).

(** A primary store that maps ["h"] to 7. *)
Definition primary_h7 : Connection :=
  after (HashIdStore.set_hash_ids [("h"%string, 7)]) new_connection.

(** Two tasks, one in queue ["a"] and one in queue ["b"]. *)
Definition two_queues : Connection :=
  after (PackageStore.add_task "b" 2 11)
        (after (PackageStore.add_task "a" 1 10) new_connection).

Definition task_a : PackageTask.t :=
  {| PackageTask.id := 1; PackageTask.queue := "a";
     PackageTask.timestamp := 10; PackageTask.data := 1 |}.

Definition task_b : PackageTask.t :=
  {| PackageTask.id := 2; PackageTask.queue := "b";
     PackageTask.timestamp := 11; PackageTask.data := 2 |}.

(** Three tasks of queue ["default"]: the first carries the largest
    timestamp, the other two the same, smaller one. *)
Definition three_tasks : Connection :=
  after (PackageStore.add_task "default" 2 10)
    (after (PackageStore.add_task "default" 1 10)
       (after (PackageStore.add_task "default" 0 12) new_connection)).

(** A store holding one request. *)
Definition one_request : Connection :=
  after (PackageStore.add_hash_id_request ["h1"%string] 10) new_connection.

(** The scenario of the handler's test: payloads 0, 1 and 2 queued in this
    order, the operation failing on payload 1. *)
Definition payloads_0_1_2 : Connection :=
  after (PackageStore.add_task PackageTaskHandler.queue_name 2 10)
    (after (PackageStore.add_task PackageTaskHandler.queue_name 1 10)
       (after (PackageStore.add_task PackageTaskHandler.queue_name 0 10)
          new_connection)).



(** ** Vocabulary of the statements *)

(** The rows of table [hash] in a file, when the table is there with its
    columns. *)
Definition hash_rows (f : File) : option (list (Z * string)) :=
  match f with
  | Sqlite d =>
      match tbl_hash d with
      | HashRows rows => Some rows
      | NoTable | OtherColumns => None
      end
  | NotADatabase => None
  end.

(** The table maps [hash] and [id] to each other and to nothing else. *)
Definition holds (hash : string) (id : Z) (rows : list (Z * string)) : Prop :=
  In (id, hash) rows
  /\ forall row, In row rows -> fst row = id \/ snd row = hash -> row = (id, hash).

(** A pair of a dict agrees with [hash => id]: it is that pair, or shares
    neither side with it. *)
Definition agrees (hash : string) (id : Z) (item : string * Z) : Prop :=
  (fst item = hash /\ snd item = id) \/ (fst item <> hash /\ snd item <> id).

(** A method body that leaves table [hash] alone, whatever it returns. *)
Definition frames_hash {A : Type} (m : M A) : Prop :=
  forall f r f', m f = (r, f') -> hash_rows f' = hash_rows f.

Definition tables_of (f : File) : option PackageTables :=
  match f with
  | Sqlite d => tbl_package d
  | NotADatabase => None
  end.

(** The file with the rows of table [task] replaced. *)
Definition put_tasks (rows : list TaskRow) (f : File) : File :=
  match f with
  | Sqlite {| tbl_hash := h; tbl_package := Some t |} =>
      Sqlite {| tbl_hash := h; tbl_package := Some (set_tasks rows t) |}
  | _ => f
  end.

(** A connection on which [f] is committed. *)
Definition committed (f : File) : Connection := {| disk := f; txn := f |}.

(** The handle [PackageTask] builds from a row. *)
Definition handle_of (row : TaskRow) : PackageTask.t :=
  {| PackageTask.id := row_id row; PackageTask.queue := row_queue row;
     PackageTask.timestamp := row_timestamp row;
     PackageTask.data := row_data row |}.

(** Table [task] as SQLite keeps it: rows in rowid order, rowids distinct,
    positive and below [bound]. *)
Definition rowid_order (bound : Z) (rows : list TaskRow) : Prop :=
  StronglySorted (fun a b => row_id a < row_id b) rows
  /\ Forall (fun row => 0 < row_id row < bound) rows.

(** [a] comes no later than [b]: smaller timestamp, or the same timestamp
    and no larger a rowid. *)
Definition no_later (a b : TaskRow) : Prop :=
  row_timestamp a < row_timestamp b
  \/ (row_timestamp a = row_timestamp b /\ row_id a <= row_id b).

Definition in_queue (queue : string) (row : TaskRow) : bool :=
  String.eqb (row_queue row) queue.

(** Task [a] precedes task [b] in the order of [get_next_task]: smaller
    timestamp, or the same timestamp and a smaller id. *)
Definition before (a b : PackageTask.t) : Prop :=
  PackageTask.timestamp a < PackageTask.timestamp b
  \/ (PackageTask.timestamp a = PackageTask.timestamp b
      /\ PackageTask.id a < PackageTask.id b).


(** Table [task] of the file holds [rows], in rowid order below [bound]. *)
Definition stored (f : File) (rows : list TaskRow) (bound : Z) : Prop :=
  (exists t, tables_of f = Some t)
  /\ task_rows f = rows
  /\ rowid_order bound rows.

Definition yield_row (row : Z) : PackageStore.Step :=
  PackageStore.Yield (HashIDRequest.mk row).


(** ** The reading operations, as calls on a connection *)

(** Every method of the store and of its handles that only reads. *)
Inductive Query : Type :=
| Get_hash_id (hash : string)
| Get_hash_ids
| Get_id_hash (id : Z)
| Get_available
| Get_available_upgrades
| Get_installed
| Get_hash_id_request (request_id : Z)
| Get_next_task (queue : string)
| Get_flag (name : string)
| Request_hashes (request : HashIDRequest.t)
| Request_get_timestamp (request : HashIDRequest.t)
| Request_get_message_id (request : HashIDRequest.t).

Definition ask (q : Query) (c : Connection) : option exn * Connection :=
  match q with
  | Get_hash_id hash => outcome (HashIdStore.get_hash_id hash c)
  | Get_hash_ids => outcome (HashIdStore.get_hash_ids c)
  | Get_id_hash id => outcome (HashIdStore.get_id_hash id c)
  | Get_available => outcome (PackageStore.get_available c)
  | Get_available_upgrades => outcome (PackageStore.get_available_upgrades c)
  | Get_installed => outcome (PackageStore.get_installed c)
  | Get_hash_id_request request_id =>
      outcome (PackageStore.get_hash_id_request request_id c)
  | Get_next_task queue => outcome (PackageStore.get_next_task queue c)
  | Get_flag name => outcome (PackageStore.get_flag name c)
  | Request_hashes request => outcome (HashIDRequest.hashes request c)
  | Request_get_timestamp request =>
      outcome (HashIDRequest._get_timestamp request c)
  | Request_get_message_id request =>
      outcome (HashIDRequest._get_message_id request c)
  end.

(** A method body that writes nothing. *)
Definition reads {A : Type} (m : M A) : Prop := forall f, snd (m f) = f.

(** ** The tables a call may change *)

Inductive Part : Type :=
| Hash_part
| Flag_part
| Ids_part (name : IdTable)
| Request_part
| Task_part.

(** The table each mutating operation writes to. *)
Definition touches (m : Mutation) : Part :=
  match m with
  | Set_hash_ids _ | Clear_hash_ids => Hash_part
  | Add_available _ | Remove_available _ | Clear_available => Ids_part available
  | Add_available_upgrades _ | Remove_available_upgrades _
  | Clear_available_upgrades => Ids_part available_upgrade
  | Add_installed _ | Remove_installed _ | Clear_installed => Ids_part installed
  | Add_hash_id_request _ _ | Clear_hash_id_requests
  | Request_set_timestamp _ _ | Request_set_message_id _ _
  | Request_remove _ => Request_part
  | Add_task _ _ _ | Clear_tasks _ | Task_remove _ => Task_part
  | Set_flag _ _ => Flag_part
  end.

(** [t'] is [t] but for the table [p]. *)
Definition same_tables_except (p : Part) (t t' : PackageTables) : Prop :=
  (p <> Flag_part -> tbl_flag t' = tbl_flag t)
  /\ (p <> Ids_part available -> tbl_available t' = tbl_available t)
  /\ (p <> Ids_part available_upgrade ->
      tbl_available_upgrade t' = tbl_available_upgrade t)
  /\ (p <> Ids_part installed -> tbl_installed t' = tbl_installed t)
  /\ (p <> Request_part -> tbl_hash_id_request t' = tbl_hash_id_request t)
  /\ (p <> Task_part -> tbl_task t' = tbl_task t).

(** [f'] is [f] but for the rows of table [p]: the same kind of file, the
    same tables present, every other table with the same rows. *)
Definition same_except (p : Part) (f f' : File) : Prop :=
  match f, f' with
  | NotADatabase, NotADatabase => True
  | Sqlite d, Sqlite d' =>
      (p <> Hash_part -> tbl_hash d' = tbl_hash d)
      /\ match tbl_package d, tbl_package d' with
         | None, None => True
         | Some t, Some t' => same_tables_except p t t'
         | _, _ => False
         end
  | _, _ => False
  end.

(** A method body that changes no table but [p], whatever it returns. *)
Definition changes_only {A : Type} (p : Part) (m : M A) : Prop :=
  forall f r f', m f = (r, f') -> same_except p f f'.

(** The rows of the other tables of a file, none when the table is
    missing. *)
Definition request_rows (f : File) : list RequestRow :=
  match tables_of f with
  | Some t => tbl_hash_id_request t
  | None => []
  end.

Definition flag_rows (f : File) : list (string * bool) :=
  match tables_of f with
  | Some t => tbl_flag t
  | None => []
  end.

Definition id_rows (name : IdTable) (f : File) : list Z :=
  match tables_of f with
  | Some t => id_table name t
  | None => []
  end.

(** No id has two hashes in the table and no hash two ids. *)
Definition one_to_one (rows : list (Z * string)) : Prop :=
  NoDup (map fst rows) /\ NoDup (map snd rows).

(** The methods on the three id tables, by table. *)
Definition add_ids (name : IdTable) :=
  match name with
  | available => PackageStore.add_available
  | available_upgrade => PackageStore.add_available_upgrades
  | installed => PackageStore.add_installed
  end.

Definition remove_ids (name : IdTable) :=
  match name with
  | available => PackageStore.remove_available
  | available_upgrade => PackageStore.remove_available_upgrades
  | installed => PackageStore.remove_installed
  end.

Definition clear_ids (name : IdTable) :=
  match name with
  | available => PackageStore.clear_available
  | available_upgrade => PackageStore.clear_available_upgrades
  | installed => PackageStore.clear_installed
  end.

Definition get_ids (name : IdTable) :=
  match name with
  | available => PackageStore.get_available
  | available_upgrade => PackageStore.get_available_upgrades
  | installed => PackageStore.get_installed
  end.

(** The row a request handle of this id reads: the first of that id in
    table [hash_id_request]. *)
Definition lookup_request (id : Z) (f : File) : option RequestRow :=
  hd_error (filter (fun row => req_id row =? id) (request_rows f)).

(** The file with the rows of table [hash_id_request] replaced. *)
Definition put_requests (rows : list RequestRow) (f : File) : File :=
  match f with
  | Sqlite {| tbl_hash := h; tbl_package := Some t |} =>
      Sqlite {| tbl_hash := h; tbl_package := Some (set_requests rows t) |}
  | _ => f
  end.

(** What reading a column through a handle gives, by the row found. *)
Definition column_of {B : Type} (column : RequestRow -> B)
    (row : option RequestRow) : result B :=
  match row with
  | Some row => Ok (column row)
  | None => Raise TypeError
  end.

(** A lookaside store gives no usable id for the hash: none, or 0. *)
Definition passes_over (hash : string) (store : HashIdStore.t) : Prop :=
  fst (HashIdStore.get_hash_id hash (HashIdStore._db store)) = Ok None
  \/ fst (HashIdStore.get_hash_id hash (HashIdStore._db store)) = Ok (Some 0).

(** Rowids of table [task] are positive, distinct and in scan order. *)
Definition positive_ascending (rows : list TaskRow) : Prop :=
  StronglySorted (fun a b => row_id a < row_id b) rows
  /\ Forall (fun row => 0 < row_id row) rows.

(** ** The model against the repository's tests *)

(** [PackageStore(filename)] on a file that does not exist yet. *)
Example PackageStore_on_new_file :
  PackageStore.__init__ no_files "database" = Ok new_store.
Proof. reflexivity. Qed.

(** [test_use_hash_id_db]: a hash=>id database holding ["hash" => 123] is
    attached, and the store, which had no id for ["hash"], then returns
    123. *)
Example test_use_hash_id_db :
  let hash_id_db :=
    after (HashIdStore.set_hash_ids [("hash"%string, 123)])
          (HashIdStore._db (HashIdStore.__init__ no_files "uuid_codename_arch")) in
  let fs := PackageStore.written no_files "uuid_codename_arch" (disk hash_id_db) in
  fst (PackageStore.get_hash_id "hash" new_store) = Ok None
  /\ fst (PackageStore.get_hash_id "hash"
            (snd (PackageStore.add_hash_id_db "uuid_codename_arch" fs new_store)))
     = Ok (Some 123).
Proof. split; reflexivity. Qed.

(** [test_handle_tasks]: with an operation that succeeds on every task, the
    three tasks are handled in the order they were added and the queue is
    left empty. *)
Example test_handle_tasks :
  let run := PackageTaskHandler.handle_tasks (fun _ => None) payloads_0_1_2 in
  option_map (fun r => (map PackageTask.data (fst r), snd r)) (fst run)
  = Some ([0; 1; 2], PackageTaskHandler.DONE)
  /\ fst (PackageStore.get_next_task PackageTaskHandler.queue_name (snd run))
     = Ok None.
Proof. split; reflexivity. Qed.

(** [test_use_hash_id_with_invalid_database]: a file holding junk is
    refused and nothing is attached. *)
Example test_use_hash_id_with_invalid_database :
  let fs := PackageStore.written no_files "uuid_codename_arch" NotADatabase in
  fst (fst (PackageStore.add_hash_id_db "uuid_codename_arch" fs new_store))
  = Raise (InvalidHashIdDb "uuid_codename_arch")
  /\ PackageStore.has_hash_id_db
       (snd (PackageStore.add_hash_id_db "uuid_codename_arch" fs new_store))
     = false.
Proof. split; reflexivity. Qed.

(** ** Transactions *)

Lemma with_cursor_inv {A : Type} (method : M A) (c : Connection) :
  (exists r f, method (txn c) = (Ok r, f)
               /\ with_cursor method c = (Ok r, {| disk := f; txn := f |}))
  \/ (exists e f, method (txn c) = (Raise e, f)
               /\ with_cursor method c = (Raise e, {| disk := disk c; txn := disk c |})).
Proof.
  unfold with_cursor.
  destruct (method (txn c)) as [[r | e] f]; [left | right]; eauto.
Qed.

Lemma with_cursor_clean {A : Type} (method : M A) (c : Connection) :
  clean (snd (with_cursor method c)).
Proof.
  destruct (with_cursor_inv method c) as [(r & f & _ & ->) | (e & f & _ & ->)];
    reflexivity.
Qed.

Lemma with_cursor_raise {A : Type} (method : M A) (c c' : Connection) (e : exn) :
  clean c -> with_cursor method c = (Raise e, c') -> c' = c.
Proof.
  intros Hclean H.
  destruct (with_cursor_inv method c) as [(r & f & _ & E) | (e' & f & _ & E)];
    rewrite E in H; inversion H; subst.
  destruct c as [d t]; unfold clean in Hclean; simpl in *; subst; reflexivity.
Qed.

Lemma with_cursor_ok {A : Type} (method : M A) (c c' : Connection) (r : A) :
  with_cursor method c = (Ok r, c') ->
  exists f, method (txn c) = (Ok r, f) /\ c' = {| disk := f; txn := f |}.
Proof.
  intros H.
  destruct (with_cursor_inv method c) as [(r' & f & Hm & E) | (e' & f & _ & E)];
    rewrite E in H; inversion H; subst; eauto.
Qed.

Lemma perform_is_with_cursor (m : Mutation) (c : Connection) :
  exists (A : Type) (method : M A), perform m c = outcome (with_cursor method c).
Proof.
  destruct m; simpl; eexists; eexists; reflexivity.
Qed.

Lemma perform_clean (m : Mutation) (c : Connection) : clean (snd (perform m c)).
Proof.
  destruct (perform_is_with_cursor m c) as (A & method & ->).
  pose proof (with_cursor_clean method c) as H.
  destruct (with_cursor method c) as [[r | e] c']; exact H.
Qed.

Lemma perform_raise (m : Mutation) (c c' : Connection) (e : exn) :
  clean c -> perform m c = (Some e, c') -> c' = c.
Proof.
  intros Hclean H.
  destruct (perform_is_with_cursor m c) as (A & method & E).
  rewrite E in H.
  destruct (with_cursor method c) as [[r | e'] c''] eqn:W; simpl in H;
    inversion H; subst.
  eapply with_cursor_raise; eauto.
Qed.

(** C7.  Every mutating operation of the store is atomic.  The decorator
    commits what the method wrote when the method returns, and when the
    method raises it rolls back and re-raises; every mutating operation is
    such a decorated method, so that, called on a connection with no open
    transaction, it returns with nothing left pending, and when it raises the
    connection, file included, is exactly as before the call.  In particular
    [set_hash_ids] raising partway through its dict leaves the store as it
    found it. *)
Theorem mutations_are_atomic (m : Mutation) (c : Connection) (Hclean : clean c) :
  (forall (A : Type) (method : M A) (r : A) (f : File),
      method (txn c) = (Ok r, f) ->
      with_cursor method c = (Ok r, {| disk := f; txn := f |}))
  /\ (forall (A : Type) (method : M A) (e : exn) (f : File),
         method (txn c) = (Raise e, f) ->
         with_cursor method c = (Raise e, c))
  /\ (exists (A : Type) (method : M A),
         perform m c = outcome (with_cursor method c))
  /\ (forall c', perform m c = (None, c') -> disk c' = txn c')
  /\ (forall e c', perform m c = (Some e, c') -> c' = c)
  /\ (forall hash_ids e c',
         HashIdStore.set_hash_ids hash_ids c = (Raise e, c') -> c' = c).
Proof.
  repeat split.
  - intros A method r f H. unfold with_cursor. rewrite H. reflexivity.
  - intros A method e f H. unfold with_cursor. rewrite H.
    destruct c as [d t]; unfold clean in Hclean; simpl in *; subst; reflexivity.
  - apply perform_is_with_cursor.
  - intros c' H. pose proof (perform_clean m c) as Hc. rewrite H in Hc.
    symmetry. exact Hc.
  - intros e c' H. eapply perform_raise; eauto.
  - intros hash_ids e c' H. eapply with_cursor_raise; eauto.
Qed.

(** A dict whose second id does not fit SQLite's INTEGER: the first pair is
    written inside the transaction, the second raises, and the store is
    back to what it was. *)
Lemma mutations_are_atomic_witness :
  clean new_connection
  /\ HashIdStore.set_hash_ids_body [("a"%string, 1); ("b"%string, 2 ^ 63)]
       (txn new_connection)
     = (Raise OverflowError,
        Sqlite {| tbl_hash := HashRows [(1, "a"%string)];
                  tbl_package := Some empty_tables |})
  /\ HashIdStore.set_hash_ids [("a"%string, 1); ("b"%string, 2 ^ 63)]
       new_connection
     = (Raise OverflowError, new_connection).
Proof.
  split; [reflexivity |]. split; [reflexivity |].
  destruct (mutations_are_atomic
              (Set_hash_ids [("a"%string, 1); ("b"%string, 2 ^ 63)])
              new_connection eq_refl)
    as (_ & Hraise & _).
  apply Hraise with
    (f := Sqlite {| tbl_hash := HashRows [(1, "a"%string)];
                    tbl_package := Some empty_tables |}).
  reflexivity.
Defined.

(** ** The hash=>id table *)

Lemma table_hash_inv (f : File) (r : result (list (Z * string))) (f' : File) :
  table_hash f = (r, f') ->
  f' = f /\ match r with
            | Ok rows => hash_rows f = Some rows
            | Raise _ => hash_rows f = None
            end.
Proof.
  unfold table_hash, bind, the_database, hash_rows.
  destruct f as [| d]; [intros H; inversion H; auto |].
  destruct (tbl_hash d); unfold raise, ret; intros H; inversion H; auto.
Qed.

Lemma REPLACE_INTO_hash_ok (id : Z) (hash : string) (f f' : File) :
  REPLACE_INTO_hash id hash f = (Ok tt, f') ->
  exists rows,
    hash_rows f = Some rows
    /\ fits_int64 id = true
    /\ hash_rows f'
       = Some (filter (fun row => negb (conflicts id hash row)) rows ++ [(id, hash)]).
Proof.
  unfold REPLACE_INTO_hash, bind at 1.
  destruct (table_hash f) as [[rows | e] f1] eqn:T; [| discriminate].
  apply table_hash_inv in T. destruct T as [-> Hrows].
  unfold bind, bind_int.
  destruct (fits_int64 id); [| discriminate].
  unfold ret, write_hash, bind, the_database, write_database.
  destruct f as [| d]; [discriminate |].
  intros H. inversion H; subst. exists rows. auto.
Qed.

Lemma get_hash_id_rows (hash : string) (c : Connection) (rows : list (Z * string)) :
  hash_rows (txn c) = Some rows ->
  fst (HashIdStore.get_hash_id hash c)
  = Ok (hd_error (map fst (filter (fun row => String.eqb (snd row) hash) rows))).
Proof.
  intros Hrows.
  unfold HashIdStore.get_hash_id, with_cursor, HashIdStore.get_hash_id_body,
    SELECT_id_FROM_hash, bind at 1 2.
  destruct (table_hash (txn c)) as [[rows' | e] f1] eqn:T;
    apply table_hash_inv in T; destruct T as [-> T]; [| congruence].
  assert (rows' = rows) by congruence. subst rows'.
  unfold ret, fetchone.
  destruct (hd_error _); reflexivity.
Qed.

Lemma get_id_hash_rows (id : Z) (c : Connection) (rows : list (Z * string)) :
  hash_rows (txn c) = Some rows ->
  fits_int64 id = true ->
  fst (HashIdStore.get_id_hash id c)
  = Ok (hd_error (map snd (filter (fun row => fst row =? id) rows))).
Proof.
  intros Hrows Hfit.
  unfold HashIdStore.get_id_hash, with_cursor, HashIdStore.get_id_hash_body,
    SELECT_hash_FROM_hash, bind at 1 2.
  destruct (table_hash (txn c)) as [[rows' | e] f1] eqn:T;
    apply table_hash_inv in T; destruct T as [-> T]; [| congruence].
  assert (rows' = rows) by congruence. subst rows'.
  unfold bind, bind_int. rewrite Hfit. unfold ret, fetchone.
  destruct (hd_error _); reflexivity.
Qed.

Lemma holds_select (hash : string) (id : Z) (rows : list (Z * string))
    (p : Z * string -> bool) :
  holds hash id rows ->
  p (id, hash) = true ->
  (forall row, p row = true -> fst row = id \/ snd row = hash) ->
  hd_error (filter p rows) = Some (id, hash).
Proof.
  intros [Hin Huniq] Hp Hsel.
  assert (Hall : forall row, In row (filter p rows) -> row = (id, hash)).
  { intros row Hrow. apply filter_In in Hrow. destruct Hrow as [Hr Hpr]. auto. }
  assert (Hne : In (id, hash) (filter p rows)) by (apply filter_In; auto).
  destruct (filter p rows) as [| row rest]; [contradiction |].
  simpl. f_equal. apply Hall. left. reflexivity.
Qed.

Lemma hd_error_map {A B : Type} (g : A -> B) (l : list A) :
  hd_error (map g l) = option_map g (hd_error l).
Proof. destruct l; reflexivity. Qed.

Lemma holds_get_hash_id (hash : string) (id : Z) (c : Connection)
    (rows : list (Z * string)) :
  hash_rows (txn c) = Some rows ->
  holds hash id rows ->
  fst (HashIdStore.get_hash_id hash c) = Ok (Some id).
Proof.
  intros Hrows Hholds.
  rewrite (get_hash_id_rows hash c rows Hrows), hd_error_map.
  rewrite (holds_select hash id rows _ Hholds); [reflexivity | |].
  - simpl. apply String.eqb_refl.
  - intros row H. right. apply String.eqb_eq. exact H.
Qed.

Lemma holds_get_id_hash (hash : string) (id : Z) (c : Connection)
    (rows : list (Z * string)) :
  hash_rows (txn c) = Some rows ->
  fits_int64 id = true ->
  holds hash id rows ->
  fst (HashIdStore.get_id_hash id c) = Ok (Some hash).
Proof.
  intros Hrows Hfit Hholds.
  rewrite (get_id_hash_rows id c rows Hrows Hfit), hd_error_map.
  rewrite (holds_select hash id rows _ Hholds); [reflexivity | |].
  - simpl. apply Z.eqb_refl.
  - intros row H. left. apply Z.eqb_eq. exact H.
Qed.

Lemma conflicts_false (id : Z) (hash : string) (row : Z * string) :
  conflicts id hash row = false <-> fst row <> id /\ snd row <> hash.
Proof.
  unfold conflicts. rewrite orb_false_iff, Z.eqb_neq, String.eqb_neq. tauto.
Qed.

Lemma replace_establishes (hash : string) (id : Z) (rows : list (Z * string)) :
  holds hash id
    (filter (fun row => negb (conflicts id hash row)) rows ++ [(id, hash)]).
Proof.
  split.
  - apply in_or_app. right. left. reflexivity.
  - intros row Hin Hkey. apply in_app_or in Hin. destruct Hin as [Hin | Hin].
    + apply filter_In in Hin. destruct Hin as [_ Hc].
      apply negb_true_iff, conflicts_false in Hc. tauto.
    + destruct Hin as [<- | []]. reflexivity.
Qed.

Lemma replace_preserves (hash hash' : string) (id id' : Z)
    (rows : list (Z * string)) :
  holds hash id rows ->
  (hash' = hash /\ id' = id) \/ (hash' <> hash /\ id' <> id) ->
  holds hash id
    (filter (fun row => negb (conflicts id' hash' row)) rows ++ [(id', hash')]).
Proof.
  intros [Hin Huniq] [[-> ->] | [Hh Hi]].
  - apply replace_establishes.
  - split.
    + apply in_or_app. left. apply filter_In. split; [exact Hin |].
      apply negb_true_iff, conflicts_false. simpl. split; congruence.
    + intros row Hrow Hkey. apply in_app_or in Hrow. destruct Hrow as [Hrow | Hrow].
      * apply filter_In in Hrow. destruct Hrow as [Hrow _]. auto.
      * destruct Hrow as [<- | []]. simpl in Hkey. destruct Hkey; congruence.
Qed.

Lemma set_hash_ids_body_inv (hash_ids : list (string * Z)) (item : string * Z)
    (f f' : File) :
  HashIdStore.set_hash_ids_body (item :: hash_ids) f = (Ok tt, f') ->
  exists f1,
    REPLACE_INTO_hash (snd item) (fst item) f = (Ok tt, f1)
    /\ HashIdStore.set_hash_ids_body hash_ids f1 = (Ok tt, f').
Proof.
  unfold HashIdStore.set_hash_ids_body. simpl. unfold bind at 1.
  destruct (REPLACE_INTO_hash (snd item) (fst item) f) as [[[] | e] f1];
    [| discriminate].
  intros H. exists f1. auto.
Qed.

Lemma set_hash_ids_body_preserves (hash_ids : list (string * Z)) :
  forall (f f' : File) (hash : string) (id : Z) (rows : list (Z * string)),
    HashIdStore.set_hash_ids_body hash_ids f = (Ok tt, f') ->
    hash_rows f = Some rows ->
    holds hash id rows ->
    Forall (agrees hash id) hash_ids ->
    exists rows', hash_rows f' = Some rows' /\ holds hash id rows'.
Proof.
  induction hash_ids as [| item rest IH]; intros f f' hash id rows Hrun Hrows Hholds Hagree.
  - inversion Hrun; subst. eauto.
  - apply set_hash_ids_body_inv in Hrun. destruct Hrun as (f1 & H1 & Hrest).
    apply REPLACE_INTO_hash_ok in H1. destruct H1 as (rows0 & Hr0 & _ & Hr1).
    assert (rows0 = rows) by congruence. subst rows0.
    inversion Hagree as [| ? ? Hitem Hothers]; subst.
    eapply IH; eauto.
    apply replace_preserves; [exact Hholds |].
    destruct Hitem as [[? ?] | [? ?]]; [left | right]; auto.
Qed.

Lemma set_hash_ids_body_establishes (hash_ids : list (string * Z)) :
  forall (f f' : File),
    HashIdStore.set_hash_ids_body hash_ids f = (Ok tt, f') ->
    NoDup (map fst hash_ids) ->
    NoDup (map snd hash_ids) ->
    forall hash id,
      In (hash, id) hash_ids ->
      exists rows',
        hash_rows f' = Some rows' /\ holds hash id rows' /\ fits_int64 id = true.
Proof.
  induction hash_ids as [| item rest IH]; intros f f' Hrun Hkeys Hids hash id Hin.
  - destruct Hin.
  - apply set_hash_ids_body_inv in Hrun. destruct Hrun as (f1 & H1 & Hrest).
    inversion Hkeys as [| ? ? Hk1 Hk2]; subst.
    inversion Hids as [| ? ? Hi1 Hi2]; subst.
    destruct Hin as [-> | Hin].
    + apply REPLACE_INTO_hash_ok in H1. destruct H1 as (rows0 & Hr0 & Hfit & Hr1).
      simpl in *.
      destruct (set_hash_ids_body_preserves rest f1 f' hash id _ Hrest Hr1
                  (replace_establishes hash id rows0)) as (rows' & Hr' & Hh').
      * apply Forall_forall. intros [h i] Hitem. right. simpl. split.
        -- intros ->. apply Hk1. apply (in_map fst) in Hitem. exact Hitem.
        -- intros ->. apply Hi1. apply (in_map snd) in Hitem. exact Hitem.
      * eauto.
    + eapply IH; eauto.
Qed.

Lemma frames_ret {A : Type} (a : A) : frames_hash (ret a).
Proof. intros f r f' H. inversion H. reflexivity. Qed.

Lemma frames_raise {A : Type} (e : exn) : frames_hash (@raise A e).
Proof. intros f r f' H. inversion H. reflexivity. Qed.

Lemma frames_bind {A B : Type} (m : M A) (k : A -> M B) :
  frames_hash m -> (forall a, frames_hash (k a)) -> frames_hash (bind m k).
Proof.
  intros Hm Hk f r f'. unfold bind.
  destruct (m f) as [[a | e] f1] eqn:E; intros H.
  - rewrite (Hk a f1 r f' H). eapply Hm; eauto.
  - inversion H; subst. eapply Hm; eauto.
Qed.

Lemma frames_for_each {A : Type} (xs : list A) (body : A -> M unit) :
  (forall x, frames_hash (body x)) -> frames_hash (for_each xs body).
Proof.
  intros Hbody. induction xs as [| x rest IH]; simpl.
  - apply frames_ret.
  - apply frames_bind; auto.
Qed.

Lemma frames_the_database : frames_hash the_database.
Proof.
  intros f r f'. unfold the_database.
  destruct f; intros H; inversion H; reflexivity.
Qed.

Lemma frames_package_tables : frames_hash package_tables.
Proof.
  unfold package_tables. apply frames_bind; [apply frames_the_database |].
  intros d. destruct (tbl_package d); [apply frames_ret | apply frames_raise].
Qed.

Lemma frames_write_tables (t : PackageTables) : frames_hash (write_tables t).
Proof.
  intros f r f'. unfold write_tables, bind, the_database, write_database.
  destruct f; intros H; inversion H; reflexivity.
Qed.

Lemma frames_bind_int (n : Z) : frames_hash (bind_int n).
Proof.
  unfold bind_int. destruct (fits_int64 n); [apply frames_ret | apply frames_raise].
Qed.

Create HintDb frames.
#[local] Hint Resolve frames_ret frames_raise frames_the_database
  frames_package_tables frames_write_tables frames_bind_int : frames.

Ltac frames :=
  repeat first
    [ solve [auto with frames]
    | apply frames_for_each; intro
    | apply frames_bind; [| intro]
    | match goal with
      | |- frames_hash (match ?x with _ => _ end) => destruct x
      end ].

Lemma frames_with_cursor {A : Type} (method : M A) (c : Connection) :
  frames_hash method -> clean c ->
  hash_rows (txn (snd (with_cursor method c))) = hash_rows (txn c).
Proof.
  intros Hm Hclean.
  destruct (with_cursor_inv method c) as [(r & f & Hrun & ->) | (e & f & _ & ->)];
    simpl.
  - eapply Hm; eauto.
  - rewrite Hclean. reflexivity.
Qed.

Lemma frames_outcome {A : Type} (method : M A) (c : Connection) :
  frames_hash method -> clean c ->
  hash_rows (txn (snd (outcome (with_cursor method c)))) = hash_rows (txn c).
Proof.
  intros Hm Hclean. rewrite <- (frames_with_cursor method c Hm Hclean).
  destruct (with_cursor method c) as [[r | e] c']; reflexivity.
Qed.

(** Apart from [set_hash_ids] and [clear_hash_ids], no mutating operation
    touches table [hash]. *)
Lemma perform_frames_hash (m : Mutation) (c : Connection) :
  clean c ->
  match m with Set_hash_ids _ | Clear_hash_ids => False | _ => True end ->
  hash_rows (txn (snd (perform m c))) = hash_rows (txn c).
Proof.
  intros Hclean Hm.
  destruct m; try contradiction; simpl;
    apply frames_outcome; try exact Hclean;
    unfold REPLACE_INTO_ids, DELETE_FROM_ids_WHERE_id_IN, DELETE_FROM_ids,
      INSERT_INTO_hash_id_request, DELETE_FROM_hash_id_request,
      INSERT_INTO_task, PackageTask.__init__, SELECT_FROM_task_WHERE_id,
      DELETE_FROM_task_WHERE_id_NOT_IN, REPLACE_INTO_flag,
      UPDATE_hash_id_request, DELETE_FROM_hash_id_request_WHERE_id,
      DELETE_FROM_task_WHERE_id;
    frames.
Qed.

(** A later call that keeps the pair keeps it in the table. *)
Lemma perform_keeps_pair (m : Mutation) (c : Connection) (hash : string) (id : Z)
    (rows : list (Z * string)) :
  clean c ->
  hash_rows (txn c) = Some rows ->
  holds hash id rows ->
  keeps_pair hash id m = true ->
  exists rows',
    hash_rows (txn (snd (perform m c))) = Some rows' /\ holds hash id rows'.
Proof.
  intros Hclean Hrows Hholds Hkeeps.
  destruct m;
    try (rewrite perform_frames_hash by (auto; exact I); eauto; fail).
  - simpl. unfold HashIdStore.set_hash_ids.
    destruct (with_cursor_inv (HashIdStore.set_hash_ids_body hash_ids) c)
      as [([] & f & Hrun & ->) | (e & f & _ & ->)]; simpl.
    + eapply set_hash_ids_body_preserves; eauto.
      simpl in Hkeeps. rewrite forallb_forall in Hkeeps.
      apply Forall_forall. intros item Hitem. specialize (Hkeeps item Hitem).
      apply Bool.eqb_prop in Hkeeps. unfold agrees.
      destruct (String.eqb_spec (fst item) hash) as [Hh | Hh];
        symmetry in Hkeeps.
      * apply Z.eqb_eq in Hkeeps. auto.
      * apply Z.eqb_neq in Hkeeps. auto.
    + rewrite Hclean in *. eauto.
  - discriminate.
Qed.

Lemma perform_all_keeps_pair (later : list Mutation) :
  forall (c : Connection) (hash : string) (id : Z) (rows : list (Z * string)),
    clean c ->
    hash_rows (txn c) = Some rows ->
    holds hash id rows ->
    forallb (keeps_pair hash id) later = true ->
    exists rows',
      hash_rows (txn (perform_all later c)) = Some rows' /\ holds hash id rows'.
Proof.
  induction later as [| m rest IH]; intros c hash id rows Hclean Hrows Hholds Hkeeps.
  - simpl. eauto.
  - simpl in Hkeeps. apply andb_true_iff in Hkeeps. destruct Hkeeps as [Hm Hrest].
    destruct (perform_keeps_pair m c hash id rows Hclean Hrows Hholds Hm)
      as (rows1 & Hr1 & Hh1).
    unfold perform_all. simpl. eapply IH; eauto. apply perform_clean.
Qed.

Lemma REPLACE_INTO_hash_returns (id : Z) (hash : string) (f : File)
    (rows : list (Z * string)) :
  hash_rows f = Some rows ->
  fits_int64 id = true ->
  exists f', REPLACE_INTO_hash id hash f = (Ok tt, f')
             /\ exists rows', hash_rows f' = Some rows'.
Proof.
  intros Hrows Hfit. unfold REPLACE_INTO_hash, bind at 1.
  destruct (table_hash f) as [[rows0 | e] f1] eqn:T;
    apply table_hash_inv in T; destruct T as [-> T]; [| congruence].
  unfold bind, bind_int. rewrite Hfit. unfold ret, write_hash, bind,
    the_database, write_database.
  destruct f as [| d]; [discriminate |]. eexists. split; [reflexivity |].
  simpl. eauto.
Qed.

(** With table [hash] in place and ids that fit, [set_hash_ids] returns. *)
Lemma set_hash_ids_body_returns (hash_ids : list (string * Z)) :
  forall (f : File) (rows : list (Z * string)),
    hash_rows f = Some rows ->
    Forall (fun item => fits_int64 (snd item) = true) hash_ids ->
    exists f', HashIdStore.set_hash_ids_body hash_ids f = (Ok tt, f').
Proof.
  induction hash_ids as [| item rest IH]; intros f rows Hrows Hfit.
  - exists f. reflexivity.
  - inversion Hfit as [| ? ? Hitem Hrest]; subst.
    destruct (REPLACE_INTO_hash_returns (snd item) (fst item) f rows Hrows Hitem)
      as (f1 & H1 & rows1 & Hrows1).
    destruct (IH f1 rows1 Hrows1 Hrest) as (f' & Hrun).
    exists f'. unfold HashIdStore.set_hash_ids_body in *. simpl.
    unfold bind at 1. rewrite H1. exact Hrun.
Qed.

(** C8 (as the code has it).  For every dict of hash=>id pairs with pairwise
    distinct ids, all of which fit SQLite's INTEGER, [set_hash_ids] on a
    store holding table [hash] returns, and afterwards [get_hash_id hash] is
    [id] and [get_id_hash id] is [hash] for each pair of the dict, right
    after the call and after any later mutating calls that neither clear the
    table nor give [hash] another id or [id] another hash. *)
Theorem set_hash_ids_round_trip (hash_ids : list (string * Z)) (c : Connection)
    (rows : list (Z * string)) (later : list Mutation) (hash : string) (id : Z) :
  hash_rows (txn c) = Some rows ->
  Forall (fun item => fits_int64 (snd item) = true) hash_ids ->
  NoDup (map fst hash_ids) ->
  NoDup (map snd hash_ids) ->
  In (hash, id) hash_ids ->
  forallb (keeps_pair hash id) later = true ->
  exists c',
    HashIdStore.set_hash_ids hash_ids c = (Ok tt, c')
    /\ fst (HashIdStore.get_hash_id hash (perform_all later c')) = Ok (Some id)
    /\ fst (HashIdStore.get_id_hash id (perform_all later c')) = Ok (Some hash).
Proof.
  intros Htable Hfits Hkeys Hids Hin Hlater.
  destruct (set_hash_ids_body_returns hash_ids (txn c) rows Htable Hfits)
    as (f & Hrun).
  exists {| disk := f; txn := f |}.
  split; [unfold HashIdStore.set_hash_ids, with_cursor; rewrite Hrun; reflexivity |].
  destruct (set_hash_ids_body_establishes hash_ids _ _ Hrun Hkeys Hids hash id Hin)
    as (rows1 & Hrows & Hholds & Hfit).
  destruct (perform_all_keeps_pair later {| disk := f; txn := f |} hash id rows1)
    as (rows' & Hrows' & Hholds'); auto.
  - reflexivity.
  - split.
    + eapply holds_get_hash_id; eauto.
    + eapply holds_get_id_hash; eauto.
Qed.

Lemma set_hash_ids_round_trip_witness :
  let hash_ids := [("a"%string, 1); ("b"%string, 2)] in
  let later :=
    [Add_task "default" 0 10; Set_hash_ids [("c"%string, 3)]; Clear_available] in
  exists c',
    HashIdStore.set_hash_ids hash_ids new_connection = (Ok tt, c')
    /\ fst (HashIdStore.get_hash_id "a" (perform_all later c')) = Ok (Some 1)
    /\ fst (HashIdStore.get_id_hash 1 (perform_all later c')) = Ok (Some "a"%string).
Proof.
  apply (set_hash_ids_round_trip
           [("a"%string, 1); ("b"%string, 2)] new_connection []).
  - reflexivity.
  - repeat constructor.
  - repeat constructor; simpl; intuition discriminate.
  - repeat constructor; simpl; intuition discriminate.
  - simpl. auto.
  - reflexivity.
Defined.

(** C8 as stated fails on a dict that gives two hashes the same id:
    [id] is the primary key, so the second [REPLACE] deletes the row of the
    first, and the first hash is left without an id. *)
Lemma set_hash_ids_shared_id_counterexample :
  let hash_ids := [("a"%string, 1); ("b"%string, 1)] in
  let c' := after (HashIdStore.set_hash_ids hash_ids) new_connection in
  NoDup (map fst hash_ids)
  /\ fst (HashIdStore.set_hash_ids hash_ids new_connection) = Ok tt
  /\ fst (HashIdStore.get_hash_id "a" c') = Ok None
  /\ ~ (forall hash id,
          In (hash, id) hash_ids ->
          fst (HashIdStore.get_hash_id hash c') = Ok (Some id)
          /\ fst (HashIdStore.get_id_hash id c') = Ok (Some hash)).
Proof.
  simpl. split; [| split; [| split]].
  - repeat constructor; simpl; intuition discriminate.
  - reflexivity.
  - reflexivity.
  - intros H. destruct (H "a"%string 1) as [Ha _]; [left; reflexivity |].
    vm_compute in Ha. discriminate.
Qed.

(** ** Lookaside stores *)

Lemma lookaside_all_falsy (hash : string) (stores : list HashIdStore.t) :
  Forall (fun store =>
            fst (HashIdStore.get_hash_id hash (HashIdStore._db store)) = Ok None
            \/ fst (HashIdStore.get_hash_id hash (HashIdStore._db store))
               = Ok (Some 0))
         stores ->
  fst (PackageStore.lookaside stores hash) = Ok None.
Proof.
  induction 1 as [| store rest Hstore _ IH]; [reflexivity |].
  simpl.
  destruct (HashIdStore.get_hash_id hash (HashIdStore._db store)) as [r db].
  simpl in Hstore.
  destruct Hstore as [-> | ->]; simpl;
    destruct (PackageStore.lookaside rest hash) as [r' rest']; simpl in *; auto.
Qed.

(** The first lookaside store that returns an id other than 0 decides, when
    the stores before it return nothing or 0. *)
Lemma lookaside_first_truthy (hash : string) (id : Z)
    (before : list HashIdStore.t) (store : HashIdStore.t)
    (others : list HashIdStore.t) :
  Forall (fun store =>
            fst (HashIdStore.get_hash_id hash (HashIdStore._db store)) = Ok None
            \/ fst (HashIdStore.get_hash_id hash (HashIdStore._db store))
               = Ok (Some 0))
         before ->
  fst (HashIdStore.get_hash_id hash (HashIdStore._db store)) = Ok (Some id) ->
  id <> 0 ->
  fst (PackageStore.lookaside (before ++ store :: others) hash) = Ok (Some id).
Proof.
  intros Hbefore Hstore Hid.
  induction Hbefore as [| s rest Hs _ IH]; simpl.
  - destruct (HashIdStore.get_hash_id hash (HashIdStore._db store)) as [r db].
    simpl in Hstore. subst r. simpl.
    apply Z.eqb_neq in Hid. rewrite Hid. reflexivity.
  - destruct (HashIdStore.get_hash_id hash (HashIdStore._db s)) as [r db].
    simpl in Hs.
    destruct Hs as [-> | ->]; simpl;
      destruct (PackageStore.lookaside (rest ++ store :: others) hash)
        as [r' rest']; simpl in *; auto.
Qed.

(** What holds of the precedence among stores: a lookaside store that maps
    the hash to an id other than 0 wins over every store attached after it
    and over the primary mapping, provided no store attached before it does
    the same. *)
Lemma get_hash_id_first_nonzero_wins (hash : string) (id : Z)
    (self : PackageStore.t) (before : list HashIdStore.t) (store : HashIdStore.t)
    (others : list HashIdStore.t) :
  PackageStore._hash_id_stores self = before ++ store :: others ->
  Forall (fun store =>
            fst (HashIdStore.get_hash_id hash (HashIdStore._db store)) = Ok None
            \/ fst (HashIdStore.get_hash_id hash (HashIdStore._db store))
               = Ok (Some 0))
         before ->
  fst (HashIdStore.get_hash_id hash (HashIdStore._db store)) = Ok (Some id) ->
  id <> 0 ->
  fst (PackageStore.get_hash_id hash self) = Ok (Some id).
Proof.
  intros Hstores Hbefore Hstore Hid.
  pose proof (lookaside_first_truthy hash id before store others
                Hbefore Hstore Hid) as H.
  unfold PackageStore.get_hash_id. rewrite Hstores.
  destruct (PackageStore.lookaside (before ++ store :: others) hash) as [r stores].
  simpl in H. subst r. reflexivity.
Qed.

(** C10.  When every attached lookaside store either lacks the hash or maps
    it to the id 0, [PackageStore.get_hash_id] answers what the primary
    mapping answers for that hash (its id, or None when it has none): an id
    0 held by a lookaside store is passed over. *)
Theorem zero_ids_fall_through (hash : string) (self : PackageStore.t) :
  Forall (fun store =>
            fst (HashIdStore.get_hash_id hash (HashIdStore._db store)) = Ok None
            \/ fst (HashIdStore.get_hash_id hash (HashIdStore._db store))
               = Ok (Some 0))
         (PackageStore._hash_id_stores self) ->
  fst (PackageStore.get_hash_id hash self)
  = fst (HashIdStore.get_hash_id hash (PackageStore._db self)).
Proof.
  intros Hstores. apply lookaside_all_falsy in Hstores.
  unfold PackageStore.get_hash_id.
  destruct (PackageStore.lookaside (PackageStore._hash_id_stores self) hash)
    as [r stores].
  simpl in Hstores. subst r.
  destruct (HashIdStore.get_hash_id hash (PackageStore._db self)).
  reflexivity.
Qed.

(** Lookaside stores holding ["h" => 0], nothing, and ["h" => 0] again; the
    primary holds ["h" => 7]. *)
Lemma zero_ids_fall_through_witness :
  let self :=
    {| PackageStore._filename := "database";
       PackageStore._db := primary_h7;
       PackageStore._hash_id_stores :=
         [hash_id_store "l1" [(0, "h"%string)];
          hash_id_store "l2" [];
          hash_id_store "l3" [(0, "h"%string); (4, "g"%string)]] |} in
  fst (PackageStore.get_hash_id "h" self) = Ok (Some 7).
Proof.
  intros self.
  rewrite (zero_ids_fall_through "h" self).
  - reflexivity.
  - constructor; [right; reflexivity |].
    constructor; [left; reflexivity |].
    constructor; [right; reflexivity | constructor].
Defined.

(** C5 at a lookaside store that holds the hash with the id 0: the
    first-attached store [l1] has ["h"], yet the answer is the id of a store
    attached later, and with no such store the id of the primary mapping. *)
Theorem get_hash_id_passes_over_zero :
  fst (HashIdStore.get_hash_id "h"
         (HashIdStore._db (hash_id_store "l1" [(0, "h"%string)])))
  = Ok (Some 0)
  /\ fst (PackageStore.get_hash_id "h"
            {| PackageStore._filename := "database";
               PackageStore._db := primary_h7;
               PackageStore._hash_id_stores :=
                 [hash_id_store "l1" [(0, "h"%string)];
                  hash_id_store "l2" [(5, "h"%string)]] |})
     = Ok (Some 5)
  /\ fst (PackageStore.get_hash_id "h"
            {| PackageStore._filename := "database";
               PackageStore._db := primary_h7;
               PackageStore._hash_id_stores :=
                 [hash_id_store "l1" [(0, "h"%string)]] |})
     = Ok (Some 7).
Proof. repeat split. Qed.

(** ** Attaching a lookaside file *)

Lemma get_hash_id_body_reads (hash : string) (f : File) :
  snd (HashIdStore.get_hash_id_body hash f) = f.
Proof.
  unfold HashIdStore.get_hash_id_body, SELECT_id_FROM_hash, bind at 1 2.
  destruct (table_hash f) as [[rows | e] f1] eqn:T;
    apply table_hash_inv in T; destruct T as [-> _]; [| reflexivity].
  unfold ret. destruct (fetchone _); reflexivity.
Qed.

(** Reading through a connection with no open transaction leaves it, and
    the file behind it, as they were. *)
Lemma get_hash_id_unchanged (hash : string) (c : Connection) :
  clean c -> snd (HashIdStore.get_hash_id hash c) = c.
Proof.
  intros Hclean. unfold HashIdStore.get_hash_id, with_cursor.
  pose proof (get_hash_id_body_reads hash (txn c)) as H.
  destruct (HashIdStore.get_hash_id_body hash (txn c)) as [[r | e] f];
    simpl in *; subst f; destruct c as [d t]; unfold clean in Hclean;
    simpl in *; subst; reflexivity.
Qed.

Lemma lookaside_unchanged (hash : string) (stores : list HashIdStore.t) :
  Forall (fun store => clean (HashIdStore._db store)) stores ->
  snd (PackageStore.lookaside stores hash) = stores.
Proof.
  induction 1 as [| store rest Hstore _ IH]; [reflexivity |].
  simpl.
  pose proof (get_hash_id_unchanged hash _ Hstore) as Hdb.
  destruct (HashIdStore.get_hash_id hash (HashIdStore._db store)) as [[id | e] db];
    simpl in Hdb; subst db; destruct store as [name db]; simpl.
  - destruct (PackageStore.truthy id); [reflexivity |].
    destruct (PackageStore.lookaside rest hash) as [r rest']; simpl in *.
    congruence.
  - reflexivity.
Qed.

(** [PackageStore.get_hash_id] writes to no lookaside file. *)
Lemma get_hash_id_leaves_lookaside (hash : string) (self : PackageStore.t) :
  Forall (fun store => clean (HashIdStore._db store))
         (PackageStore._hash_id_stores self) ->
  PackageStore._hash_id_stores (snd (PackageStore.get_hash_id hash self))
  = PackageStore._hash_id_stores self.
Proof.
  intros Hclean. apply (lookaside_unchanged hash) in Hclean.
  unfold PackageStore.get_hash_id.
  destruct (PackageStore.lookaside (PackageStore._hash_id_stores self) hash)
    as [[[id |] | e] stores]; simpl in *; subst stores; try reflexivity.
  destruct (HashIdStore.get_hash_id hash (PackageStore._db self)); reflexivity.
Qed.

(** What [add_hash_id_db] does, by what the file is. *)
Lemma add_hash_id_db_spec (filename : string) (fs : FileSystem)
    (self : PackageStore.t) :
  match fs filename with
  | NotADatabase | Sqlite {| tbl_hash := OtherColumns |} =>
      PackageStore.add_hash_id_db filename fs self
      = (Raise (InvalidHashIdDb filename),
         PackageStore.written fs filename (fs filename), self)
  | Sqlite {| tbl_hash := HashRows _ |} =>
      PackageStore.add_hash_id_db filename fs self
      = (Ok tt,
         PackageStore.written fs filename (fs filename),
         {| PackageStore._filename := PackageStore._filename self;
            PackageStore._db := PackageStore._db self;
            PackageStore._hash_id_stores :=
              PackageStore._hash_id_stores self
              ++ [{| HashIdStore._filename := filename;
                     HashIdStore._db := connect fs filename |}] |})
  | Sqlite {| tbl_hash := NoTable; tbl_package := tables |} =>
      let created :=
        Sqlite {| tbl_hash := HashRows []; tbl_package := tables |} in
      PackageStore.add_hash_id_db filename fs self
      = (Ok tt,
         PackageStore.written fs filename created,
         {| PackageStore._filename := PackageStore._filename self;
            PackageStore._db := PackageStore._db self;
            PackageStore._hash_id_stores :=
              PackageStore._hash_id_stores self
              ++ [{| HashIdStore._filename := filename;
                     HashIdStore._db := {| disk := created; txn := created |} |}] |})
  end.
Proof.
  unfold PackageStore.add_hash_id_db, HashIdStore.__init__,
    HashIdStore.check_sanity, HashIdStore.ensure_hash_id_schema, connect.
  destruct (fs filename) as [| [[| | rows] tables]]; reflexivity.
Qed.

Lemma written_same (fs : FileSystem) (filename name : string) :
  PackageStore.written fs filename (fs filename) name = fs name.
Proof.
  unfold PackageStore.written.
  destruct (String.eqb_spec name filename); congruence.
Qed.

(** When [add_hash_id_db] raises, the exception is [InvalidHashIdDb], the
    list of lookaside stores is the one before the call and no file has
    changed. *)
Lemma add_hash_id_db_raise (filename : string) (fs fs' : FileSystem)
    (self self' : PackageStore.t) (e : exn) :
  PackageStore.add_hash_id_db filename fs self = (Raise e, fs', self') ->
  e = InvalidHashIdDb filename
  /\ self' = self
  /\ PackageStore.has_hash_id_db self' = PackageStore.has_hash_id_db self
  /\ forall name, fs' name = fs name.
Proof.
  intros H. pose proof (add_hash_id_db_spec filename fs self) as S.
  destruct (fs filename) as [| [[| | rows] tables]] eqn:F; simpl in S;
    rewrite S in H; inversion H; subst;
    repeat split; intros name; rewrite <- F; apply written_same.
Qed.

(** A file that is not an SQLite database, or whose table [hash] has other
    columns, is refused. *)
Lemma add_hash_id_db_refuses (filename : string) (fs : FileSystem)
    (self : PackageStore.t) :
  fs filename = NotADatabase
  \/ (exists d, fs filename = Sqlite d /\ tbl_hash d = OtherColumns) ->
  exists fs',
    PackageStore.add_hash_id_db filename fs self
    = (Raise (InvalidHashIdDb filename), fs', self)
    /\ forall name, fs' name = fs name.
Proof.
  intros H. pose proof (add_hash_id_db_spec filename fs self) as S.
  destruct H as [H | (d & H & Hd)]; rewrite H in S.
  - eexists. split; [exact S |]. intros name. rewrite <- H. apply written_same.
  - destruct d as [h tables]. simpl in Hd. subst h.
    eexists. split; [exact S |]. intros name. rewrite <- H. apply written_same.
Qed.

(** A file that holds table [hash] already is attached as it is: neither
    the attachment nor later lookups through the store write to it. *)
Lemma add_hash_id_db_leaves_store_file (filename : string) (fs : FileSystem)
    (self : PackageStore.t) (rows : list (Z * string)) (hash : string) :
  hash_rows (fs filename) = Some rows ->
  Forall (fun store => clean (HashIdStore._db store))
         (PackageStore._hash_id_stores self) ->
  exists fs' self',
    PackageStore.add_hash_id_db filename fs self = (Ok tt, fs', self')
    /\ (forall name, fs' name = fs name)
    /\ PackageStore._hash_id_stores self'
       = PackageStore._hash_id_stores self
         ++ [{| HashIdStore._filename := filename;
                HashIdStore._db := connect fs filename |}]
    /\ PackageStore._hash_id_stores (snd (PackageStore.get_hash_id hash self'))
       = PackageStore._hash_id_stores self'.
Proof.
  intros Hrows Hclean.
  pose proof (add_hash_id_db_spec filename fs self) as S.
  destruct (fs filename) as [| [[| | rows'] tables]] eqn:F; try discriminate.
  eexists. eexists. split; [exact S |].
  split; [intros name; rewrite <- F; apply written_same |].
  split; [reflexivity |].
  apply get_hash_id_leaves_lookaside. simpl.
  apply Forall_app. split; [exact Hclean |].
  constructor; [reflexivity | constructor].
Qed.

(** C6 at a file name under which SQLite finds no table [hash] (a file
    that does not exist yet, an empty file, a database with other tables):
    the constructor of [HashIdStore] creates the table, [check_sanity] then
    passes, and the store is attached instead of [InvalidHashIdDb] being
    raised. *)
Theorem add_hash_id_db_accepts_missing_table :
  hash_rows (no_files "hash-id-db"%string) = None
  /\ PackageStore.has_hash_id_db new_store = false
  /\ fst (fst (PackageStore.add_hash_id_db "hash-id-db" no_files new_store))
     = Ok tt
  /\ PackageStore.has_hash_id_db
       (snd (PackageStore.add_hash_id_db "hash-id-db" no_files new_store))
     = true.
Proof. repeat split. Qed.

(** C9 at the same file: attaching it writes the table [hash] into the
    file. *)
Theorem add_hash_id_db_writes_missing_table :
  no_files "hash-id-db"%string = Sqlite empty_database
  /\ snd (fst (PackageStore.add_hash_id_db "hash-id-db" no_files new_store))
       "hash-id-db"%string
     = hash_id_file []
  /\ hash_id_file [] <> Sqlite empty_database.
Proof. repeat split. discriminate. Qed.

(** ** The task table *)

Lemma tables_of_task_rows (f : File) (t : PackageTables) :
  tables_of f = Some t -> task_rows f = tbl_task t.
Proof.
  destruct f as [| [h [t' |]]]; simpl; intros H; inversion H; reflexivity.
Qed.

Lemma task_rows_put_tasks (f : File) (t : PackageTables) (rows : list TaskRow) :
  tables_of f = Some t ->
  task_rows (put_tasks rows f) = rows
  /\ tables_of (put_tasks rows f) = Some (set_tasks rows t).
Proof.
  destruct f as [| [h [t' |]]]; simpl; intros H; inversion H; auto.
Qed.

Lemma package_tables_inv (f : File) (t : PackageTables) :
  tables_of f = Some t -> package_tables f = (Ok t, f).
Proof.
  destruct f as [| [h [t' |]]]; simpl; intros H; inversion H; reflexivity.
Qed.

Lemma write_tables_put_tasks (f : File) (t : PackageTables) (rows : list TaskRow) :
  tables_of f = Some t ->
  write_tables (set_tasks rows t) f = (Ok tt, put_tasks rows f).
Proof.
  destruct f as [| [h [t' |]]]; simpl; intros H; inversion H; reflexivity.
Qed.

Lemma fits_int64_bound (n : Z) : 0 < n < 2 ^ 63 -> fits_int64 n = true.
Proof.
  intros H. unfold fits_int64. apply andb_true_iff. split.
  - apply Z.leb_le. lia.
  - apply Z.ltb_lt. lia.
Qed.

Lemma filter_id_unique (rows : list TaskRow) (row : TaskRow) :
  StronglySorted (fun a b => row_id a < row_id b) rows ->
  In row rows ->
  filter (fun r => row_id r =? row_id row) rows = [row].
Proof.
  induction 1 as [| x l Hl IH Hx]; intros Hin; [destruct Hin |].
  simpl. rewrite Forall_forall in Hx. destruct Hin as [-> | Hin].
  - rewrite Z.eqb_refl. f_equal.
    clear IH Hl. induction l as [| y l IHl]; [reflexivity |].
    simpl. assert (row_id row < row_id y) by (apply Hx; left; reflexivity).
    destruct (Z.eqb_spec (row_id y) (row_id row)); [lia |].
    apply IHl. intros z Hz. apply Hx. right. exact Hz.
  - assert (row_id x < row_id row) by auto.
    destruct (Z.eqb_spec (row_id x) (row_id row)); [lia |]. auto.
Qed.

Lemma bind_ok {A B : Type} (m : M A) (k : A -> M B) (f f1 : File) (a : A) :
  m f = (Ok a, f1) -> bind m k f = k a f1.
Proof. intros H. unfold bind. rewrite H. reflexivity. Qed.

Lemma bind_int_ok (n : Z) (f : File) :
  fits_int64 n = true -> bind_int n f = (Ok tt, f).
Proof. intros H. unfold bind_int. rewrite H. reflexivity. Qed.

Lemma In_insert_by_timestamp (row x : TaskRow) (sorted : list TaskRow) :
  In row (insert_by_timestamp x sorted) <-> row = x \/ In row sorted.
Proof.
  induction sorted as [| y l IH]; simpl.
  - intuition.
  - destruct (row_timestamp x <=? row_timestamp y); simpl; rewrite ?IH;
      intuition.
Qed.

Lemma In_ORDER_BY_timestamp (row : TaskRow) (rows : list TaskRow) :
  In row (ORDER_BY_timestamp rows) <-> In row rows.
Proof.
  induction rows as [| x l IH]; simpl; [tauto |].
  rewrite In_insert_by_timestamp, IH. intuition.
Qed.

(** The first row of [ORDER BY timestamp] over rows scanned in rowid order
    is the row of smallest timestamp and, among those, of smallest rowid. *)
Lemma ORDER_BY_timestamp_first (rows : list TaskRow) :
  StronglySorted (fun a b => row_id a < row_id b) rows ->
  forall first rest,
    ORDER_BY_timestamp rows = first :: rest ->
    In first rows /\ forall row, In row rows -> no_later first row.
Proof.
  induction 1 as [| x l Hl IH Hx]; intros first rest Hsort; [discriminate |].
  simpl in Hsort. rewrite Forall_forall in Hx.
  destruct (ORDER_BY_timestamp l) as [| y ys] eqn:E.
  - assert (l = []).
    { destruct l as [| z l']; [reflexivity |].
      assert (In z (ORDER_BY_timestamp (z :: l')))
        by (apply In_ORDER_BY_timestamp; left; reflexivity).
      rewrite E in H. destruct H. }
    subst l. simpl in Hsort. inversion Hsort; subst.
    split; [left; reflexivity |].
    intros row [<- | []]. right. split; [reflexivity | lia].
  - destruct (IH y ys eq_refl) as [Hy Hmin].
    simpl in Hsort.
    destruct (Z.leb_spec (row_timestamp x) (row_timestamp y)) as [Hle | Hgt];
      inversion Hsort; subst.
    + split; [left; reflexivity |].
      intros row [<- | Hrow].
      * right. split; [reflexivity | lia].
      * specialize (Hmin row Hrow). specialize (Hx row Hrow).
        unfold no_later in *. lia.
    + split; [right; exact Hy |].
      intros row [<- | Hrow].
      * left. lia.
      * auto.
Qed.

Lemma hd_error_In {A : Type} (l : list A) (a : A) :
  hd_error l = Some a -> In a l.
Proof. destruct l; simpl; intros H; inversion H; auto. Qed.

(** [PackageTask(db, id)] for the id of a stored row. *)
Lemma PackageTask_init_row (f : File) (t : PackageTables) (bound : Z)
    (row : TaskRow) :
  tables_of f = Some t ->
  rowid_order bound (task_rows f) ->
  bound <= 2 ^ 63 ->
  In row (task_rows f) ->
  PackageTask.__init__ (row_id row) f = (Ok (handle_of row), f).
Proof.
  intros Ht [Hsorted Hbound] Hb Hin.
  unfold PackageTask.__init__, SELECT_FROM_task_WHERE_id.
  rewrite (tables_of_task_rows f t Ht) in *.
  rewrite Forall_forall in Hbound.
  unfold bind at 1 2. rewrite (package_tables_inv f t Ht).
  unfold bind at 1. rewrite bind_int_ok
    by (apply fits_int64_bound; specialize (Hbound row Hin); lia).
  unfold ret. rewrite (filter_id_unique _ row Hsorted Hin). reflexivity.
Qed.

Lemma get_next_task_spec (queue : string) (c : Connection) (t : PackageTables)
    (bound : Z) :
  tables_of (txn c) = Some t ->
  rowid_order bound (task_rows (txn c)) ->
  bound <= 2 ^ 63 ->
  PackageStore.get_next_task queue c
  = (Ok (option_map handle_of
           (hd_error (ORDER_BY_timestamp
                        (filter (in_queue queue) (task_rows (txn c)))))),
     committed (txn c)).
Proof.
  intros Ht Hwf Hb.
  unfold PackageStore.get_next_task, with_cursor, PackageStore.get_next_task_body,
    SELECT_id_FROM_task_WHERE_queue_ORDER_BY_timestamp.
  unfold bind at 1 2. rewrite (package_tables_inv _ t Ht). unfold ret at 1.
  rewrite <- (tables_of_task_rows _ t Ht).
  change (fun row => String.eqb (row_queue row) queue) with (in_queue queue).
  unfold fetchone. rewrite hd_error_map.
  destruct (hd_error _) as [first |] eqn:E; simpl.
  - assert (Hin : In first (task_rows (txn c))).
    { apply hd_error_In in E. apply (proj1 (In_ORDER_BY_timestamp _ _)) in E.
      apply filter_In in E. tauto. }
    unfold bind. rewrite (PackageTask_init_row _ t bound first Ht Hwf Hb Hin).
    reflexivity.
  - reflexivity.
Qed.

Lemma remove_spec (task : PackageTask.t) (c : Connection) (t : PackageTables) :
  tables_of (txn c) = Some t ->
  fits_int64 (PackageTask.id task) = true ->
  PackageTask.remove task c
  = (Ok tt,
     committed
       (put_tasks
          (filter (fun row => negb (row_id row =? PackageTask.id task))
                  (task_rows (txn c)))
          (txn c))).
Proof.
  intros Ht Hfit.
  unfold PackageTask.remove, with_cursor, DELETE_FROM_task_WHERE_id.
  unfold bind at 1. rewrite (package_tables_inv _ t Ht).
  unfold bind at 1. rewrite (bind_int_ok _ _ Hfit).
  rewrite (write_tables_put_tasks _ t _ Ht).
  rewrite (tables_of_task_rows _ t Ht). reflexivity.
Qed.

Lemma clear_tasks_spec (except_tasks : list PackageTask.t) (c : Connection)
    (t : PackageTables) :
  tables_of (txn c) = Some t ->
  PackageStore.clear_tasks except_tasks c
  = (Ok tt,
     committed
       (put_tasks
          (filter (fun row => mem (row_id row) (map PackageTask.id except_tasks))
                  (task_rows (txn c)))
          (txn c))).
Proof.
  intros Ht.
  unfold PackageStore.clear_tasks, with_cursor, DELETE_FROM_task_WHERE_id_NOT_IN.
  unfold bind at 1. rewrite (package_tables_inv _ t Ht).
  rewrite (write_tables_put_tasks _ t _ Ht).
  rewrite (tables_of_task_rows _ t Ht). reflexivity.
Qed.

Lemma mem_In (id : Z) (ids : list Z) : mem id ids = true <-> In id ids.
Proof.
  unfold mem. rewrite existsb_exists. split.
  - intros (x & Hx & Heq). apply Z.eqb_eq in Heq. subst. exact Hx.
  - intros H. exists id. split; [exact H | apply Z.eqb_refl].
Qed.

(** C1 (as the code has it).  [clear_tasks] takes no queue.  On a store
    whose tables exist it returns, and deletes every task, of whatever
    queue, whose id is not the id of a task of the except-list: afterwards
    the table holds precisely the tasks it held whose ids are listed, in
    their order, so each queue keeps exactly its listed tasks and loses all
    its others. *)
Theorem clear_tasks_keeps_listed_ids (except_tasks : list PackageTask.t)
    (c : Connection) (t : PackageTables) :
  tables_of (txn c) = Some t ->
  exists c',
    PackageStore.clear_tasks except_tasks c = (Ok tt, c')
    /\ disk c' = txn c'
    /\ task_rows (disk c')
       = filter (fun row => mem (row_id row) (map PackageTask.id except_tasks))
                (task_rows (txn c))
    /\ (forall row,
           In row (task_rows (disk c'))
           <-> In row (task_rows (txn c))
               /\ In (row_id row) (map PackageTask.id except_tasks))
    /\ (forall queue row,
           In row (filter (in_queue queue) (task_rows (disk c')))
           <-> In row (filter (in_queue queue) (task_rows (txn c)))
               /\ In (row_id row) (map PackageTask.id except_tasks)).
Proof.
  intros Ht. eexists. split; [apply (clear_tasks_spec _ _ t Ht) |].
  simpl. destruct (task_rows_put_tasks (txn c) t
    (filter (fun row => mem (row_id row) (map PackageTask.id except_tasks))
            (task_rows (txn c))) Ht) as [Hrows _].
  rewrite Hrows.
  split; [reflexivity |]. split; [reflexivity |]. split.
  - intros row. rewrite filter_In, mem_In. tauto.
  - intros queue row. rewrite !filter_In, mem_In. tauto.
Qed.

Lemma clear_tasks_keeps_listed_ids_witness :
  task_rows (disk (after (PackageStore.clear_tasks [task_a]) two_queues))
  = [{| row_id := 1; row_queue := "a"; row_timestamp := 10; row_data := 1 |}].
Proof.
  edestruct (clear_tasks_keeps_listed_ids [task_a] two_queues)
    as (c' & Hrun & _ & Hrows & _).
  - reflexivity.
  - unfold after. rewrite Hrun. simpl. rewrite Hrows. reflexivity.
Defined.

(** C1 as stated fails on a task of another queue: [clear_tasks] deletes
    the task of queue ["b"] whether the except-list is empty or lists the
    task of queue ["a"], the queue being cleared. *)
Lemma clear_tasks_other_queue_counterexample :
  fst (PackageStore.get_next_task "b" two_queues) = Ok (Some task_b)
  /\ fst (PackageStore.get_next_task "b"
            (after (PackageStore.clear_tasks [task_a]) two_queues))
     = Ok None
  /\ fst (PackageStore.get_next_task "b"
            (after (PackageStore.clear_tasks []) two_queues))
     = Ok None.
Proof. repeat split. Qed.

Lemma StronglySorted_filter_rows (p : TaskRow -> bool) (rows : list TaskRow) :
  StronglySorted (fun a b => row_id a < row_id b) rows ->
  StronglySorted (fun a b => row_id a < row_id b) (filter p rows).
Proof.
  induction 1 as [| x l Hl IH Hx]; simpl; [constructor |].
  destruct (p x); [| exact IH].
  constructor; [exact IH |].
  rewrite Forall_forall in *. intros y Hy. apply filter_In in Hy. apply Hx. tauto.
Qed.

Lemma rowid_order_filter (p : TaskRow -> bool) (bound : Z) (rows : list TaskRow) :
  rowid_order bound rows -> rowid_order bound (filter p rows).
Proof.
  intros [Hsorted Hbound]. split.
  - apply StronglySorted_filter_rows. exact Hsorted.
  - rewrite Forall_forall in *. intros y Hy. apply filter_In in Hy.
    apply Hbound. tauto.
Qed.

(** ** Oldest task first *)

(** [get_next_task] returns the handle of the task of the queue with the
    smallest timestamp and, among tasks of that timestamp, the smallest
    rowid; it returns None exactly when the queue has no task. *)
Lemma get_next_task_oldest (queue : string) (c : Connection) (t : PackageTables)
    (bound : Z) :
  tables_of (txn c) = Some t ->
  rowid_order bound (task_rows (txn c)) ->
  bound <= 2 ^ 63 ->
  match fst (PackageStore.get_next_task queue c) with
  | Ok (Some task) =>
      exists first,
        task = handle_of first
        /\ In first (task_rows (txn c))
        /\ row_queue first = queue
        /\ forall row,
             In row (task_rows (txn c)) -> row_queue row = queue ->
             no_later first row
  | Ok None => forall row, In row (task_rows (txn c)) -> row_queue row <> queue
  | Raise _ => False
  end.
Proof.
  intros Ht Hwf Hb. rewrite (get_next_task_spec queue c t bound Ht Hwf Hb). simpl.
  destruct (ORDER_BY_timestamp (filter (in_queue queue) (task_rows (txn c))))
    as [| first rest] eqn:E; simpl.
  - intros row Hrow Hq.
    assert (H : In row (ORDER_BY_timestamp
                          (filter (in_queue queue) (task_rows (txn c))))).
    { apply In_ORDER_BY_timestamp, filter_In. split; [exact Hrow |].
      apply String.eqb_eq. exact Hq. }
    rewrite E in H. destruct H.
  - destruct Hwf as [Hsorted _].
    destruct (ORDER_BY_timestamp_first
                (filter (in_queue queue) (task_rows (txn c)))
                (StronglySorted_filter_rows _ _ Hsorted) first rest E)
      as [Hin Hmin].
    apply filter_In in Hin. destruct Hin as [Hin Hq].
    exists first. repeat split; auto.
    + apply String.eqb_eq. exact Hq.
    + intros row Hrow Hrq. apply Hmin, filter_In. split; [exact Hrow |].
      apply String.eqb_eq. exact Hrq.
Qed.

Lemma fold_max_bounds (id : Z) (ids : list Z) :
  In (fold_right Z.max id ids) (id :: ids)
  /\ forall x, In x (id :: ids) -> x <= fold_right Z.max id ids.
Proof.
  induction ids as [| y l [IHin IHle]]; simpl.
  - split; [auto |]. intros x [<- | []]. lia.
  - split.
    + destruct (Z.max_spec y (fold_right Z.max id l)) as [[_ ->] | [_ ->]].
      * destruct IHin as [H | H]; [left; exact H | right; right; exact H].
      * right. left. reflexivity.
    + intros x [Hx | [Hx | Hx]].
      * specialize (IHle x (or_introl Hx)). lia.
      * lia.
      * specialize (IHle x (or_intror Hx)). lia.
Qed.

(** The rowid of a new row is above every rowid in use. *)
Lemma next_rowid_fresh (bound : Z) (rows : list TaskRow) :
  rowid_order bound rows ->
  0 < bound ->
  0 < next_rowid (map row_id rows) <= bound
  /\ forall row, In row rows -> row_id row < next_rowid (map row_id rows).
Proof.
  intros [_ Hbound] Hb. rewrite Forall_forall in Hbound.
  destruct rows as [| r rest]; cbn [next_rowid map].
  - split; [lia |]. intros row [].
  - destruct (fold_max_bounds (row_id r) (map row_id rest)) as [Hin Hle].
    change (row_id r :: map row_id rest) with (map row_id (r :: rest)) in Hin, Hle.
    apply in_map_iff in Hin. destruct Hin as (m & Hm & Hmin).
    specialize (Hbound m Hmin). split; [lia |].
    intros row Hrow. specialize (Hle (row_id row) (in_map row_id _ _ Hrow)). lia.
Qed.

Lemma rowid_order_app (bound : Z) (rows : list TaskRow) (row : TaskRow) :
  rowid_order bound rows ->
  (forall r, In r rows -> row_id r < row_id row) ->
  0 < row_id row <= bound ->
  rowid_order (bound + 1) (rows ++ [row]).
Proof.
  intros [Hsorted Hbound] Hfresh Hrow. split.
  - clear Hbound. induction Hsorted as [| x l Hl IH Hx]; simpl.
    + constructor; constructor.
    + constructor.
      * apply IH. intros r Hr. apply Hfresh. right. exact Hr.
      * apply Forall_app. split; [exact Hx |].
        constructor; [apply Hfresh; left; reflexivity | constructor].
  - apply Forall_app. split.
    + rewrite Forall_forall in *. intros r Hr. specialize (Hbound r Hr). lia.
    + constructor; [lia | constructor].
Qed.

(** [add_task]: the row is appended under a new rowid and the handle
    carries its fields. *)
Lemma add_task_spec (queue : string) (data : Data) (now : Z) (c : Connection)
    (t : PackageTables) (bound : Z) :
  tables_of (txn c) = Some t ->
  rowid_order bound (task_rows (txn c)) ->
  0 < bound < 2 ^ 63 ->
  let row := {| row_id := next_rowid (map row_id (task_rows (txn c)));
                row_queue := queue; row_timestamp := now; row_data := data |} in
  PackageStore.add_task queue data now c
  = (Ok (handle_of row),
     committed (put_tasks (task_rows (txn c) ++ [row]) (txn c)))
  /\ rowid_order (bound + 1) (task_rows (txn c) ++ [row])
  /\ forall r, In r (task_rows (txn c)) -> row_id r < row_id row.
Proof.
  intros Ht Hwf Hb row.
  destruct (next_rowid_fresh bound _ Hwf (proj1 Hb)) as [Hnext Hfresh].
  assert (Hwf' : rowid_order (bound + 1) (task_rows (txn c) ++ [row]))
    by (apply rowid_order_app; auto).
  split; [| split; [exact Hwf' | exact Hfresh]].
  unfold PackageStore.add_task, with_cursor, INSERT_INTO_task.
  unfold bind at 1 2. rewrite (package_tables_inv _ t Ht).
  cbv zeta. unfold bind at 1.
  rewrite <- (tables_of_task_rows _ t Ht).
  fold row. rewrite (write_tables_put_tasks _ t _ Ht). unfold ret at 1.
  destruct (task_rows_put_tasks (txn c) t (task_rows (txn c) ++ [row]) Ht)
    as [Hrows Htables].
  change (next_rowid (map row_id (task_rows (txn c)))) with (row_id row).
  rewrite (PackageTask_init_row _ _ (bound + 1) row Htables).
  - reflexivity.
  - rewrite Hrows. exact Hwf'.
  - lia.
  - rewrite Hrows. apply in_or_app. right. left. reflexivity.
Qed.

(** The task that comes strictly before every other task of its queue is
    the next one. *)
Lemma get_next_task_is (queue : string) (f : File) (t : PackageTables)
    (bound : Z) (first : TaskRow) :
  tables_of f = Some t ->
  rowid_order bound (task_rows f) ->
  bound <= 2 ^ 63 ->
  In first (task_rows f) ->
  row_queue first = queue ->
  (forall row,
      In row (task_rows f) -> row_queue row = queue ->
      row = first
      \/ row_timestamp first < row_timestamp row
      \/ (row_timestamp first = row_timestamp row /\ row_id first < row_id row)) ->
  fst (PackageStore.get_next_task queue (committed f)) = Ok (Some (handle_of first)).
Proof.
  intros Ht Hwf Hb Hin Hq Hstrict.
  pose proof (get_next_task_oldest queue (committed f) t bound Ht Hwf Hb) as H.
  simpl in H.
  destruct (fst (PackageStore.get_next_task queue (committed f)))
    as [[task |] | e].
  - destruct H as (first' & -> & Hin' & Hq' & Hmin).
    specialize (Hmin first Hin Hq).
    destruct (Hstrict first' Hin' Hq') as [-> | Hlt]; [reflexivity |].
    unfold no_later in Hmin. lia.
  - exfalso. apply (H first Hin Hq).
  - destruct H.
Qed.

Lemma filter_in_queue_none (queue : string) (rows : list TaskRow) :
  (forall row, In row rows -> row_queue row <> queue) ->
  filter (in_queue queue) rows = [].
Proof.
  induction rows as [| x l IH]; intros Hnone; [reflexivity |].
  simpl. unfold in_queue at 1.
  destruct (String.eqb_spec (row_queue x) queue) as [Hx | Hx].
  - exfalso. apply (Hnone x); [left; reflexivity | exact Hx].
  - apply IH. intros row Hrow. apply Hnone. right. exact Hrow.
Qed.

Lemma get_next_task_none (queue : string) (f : File) (t : PackageTables)
    (bound : Z) :
  tables_of f = Some t ->
  rowid_order bound (task_rows f) ->
  bound <= 2 ^ 63 ->
  (forall row, In row (task_rows f) -> row_queue row <> queue) ->
  fst (PackageStore.get_next_task queue (committed f)) = Ok None.
Proof.
  intros Ht Hwf Hb Hnone.
  rewrite (get_next_task_spec queue (committed f) t bound Ht Hwf Hb). simpl.
  rewrite (filter_in_queue_none queue _ Hnone). reflexivity.
Qed.

Lemma add_task_stored (queue : string) (data : Data) (now : Z) (c : Connection)
    (rows : list TaskRow) (bound : Z) :
  stored (txn c) rows bound ->
  0 < bound < 2 ^ 63 ->
  exists row f,
    PackageStore.add_task queue data now c = (Ok (handle_of row), committed f)
    /\ row_queue row = queue /\ row_timestamp row = now /\ row_data row = data
    /\ (forall r, In r rows -> row_id r < row_id row)
    /\ stored f (rows ++ [row]) (bound + 1).
Proof.
  intros ((t & Ht) & Hrows & Hwf) Hb. subst rows.
  destruct (add_task_spec queue data now c t bound Ht Hwf Hb)
    as (Hrun & Hwf' & Hfresh).
  eexists. eexists. split; [exact Hrun |].
  repeat split; auto.
  - eexists. apply (task_rows_put_tasks _ t _ Ht).
  - apply (task_rows_put_tasks _ t _ Ht).
  - apply Hwf'.
  - apply Hwf'.
Qed.

Lemma remove_stored (row : TaskRow) (f : File) (rows : list TaskRow) (bound : Z) :
  stored f rows bound ->
  bound <= 2 ^ 63 ->
  In row rows ->
  exists f',
    PackageTask.remove (handle_of row) (committed f) = (Ok tt, committed f')
    /\ stored f' (filter (fun r => negb (row_id r =? row_id row)) rows) bound.
Proof.
  intros ((t & Ht) & Hrows & Hwf) Hb Hin. subst rows.
  assert (Hfit : fits_int64 (PackageTask.id (handle_of row)) = true).
  { apply fits_int64_bound. destruct Hwf as [_ Hbound].
    rewrite Forall_forall in Hbound. specialize (Hbound row Hin). simpl. lia. }
  eexists. split; [apply (remove_spec (handle_of row) (committed f) t Ht Hfit) |].
  simpl.
  split; [eexists; apply (task_rows_put_tasks _ t _ Ht) |].
  split; [apply (task_rows_put_tasks _ t _ Ht) |].
  apply rowid_order_filter. exact Hwf.
Qed.

Lemma get_next_task_stored (queue : string) (f : File) (rows : list TaskRow)
    (bound : Z) (first : TaskRow) :
  stored f rows bound ->
  bound <= 2 ^ 63 ->
  In first rows ->
  row_queue first = queue ->
  (forall row,
      In row rows -> row_queue row = queue ->
      row = first
      \/ row_timestamp first < row_timestamp row
      \/ (row_timestamp first = row_timestamp row /\ row_id first < row_id row)) ->
  PackageStore.get_next_task queue (committed f)
  = (Ok (Some (handle_of first)), committed f).
Proof.
  intros ((t & Ht) & Hrows & Hwf) Hb Hin Hq Hstrict. subst rows.
  pose proof (get_next_task_is queue f t bound first Ht Hwf Hb Hin Hq Hstrict) as H.
  rewrite (get_next_task_spec queue (committed f) t bound Ht Hwf Hb) in *.
  simpl in *. rewrite H. reflexivity.
Qed.

(** C4, as amended.  [get_next_task] returns the oldest task of the queue:
    the stored task of that queue with the smallest timestamp and, among
    tasks of equal timestamp, the smallest rowid, that is the one inserted
    first; None exactly when the queue holds no task.  Hence, on a queue
    holding no task, tasks A, B, C enqueued in this order at clock readings
    that do not decrease come back as A, then B once A is removed, then C,
    then None. *)
Theorem get_next_task_fifo (queue : string) (c : Connection) (t : PackageTables)
    (bound : Z) :
  tables_of (txn c) = Some t ->
  rowid_order bound (task_rows (txn c)) ->
  0 < bound ->
  bound + 3 <= 2 ^ 63 ->
  match fst (PackageStore.get_next_task queue c) with
  | Ok (Some task) =>
      exists first,
        task = handle_of first
        /\ In first (task_rows (txn c))
        /\ row_queue first = queue
        /\ forall row,
             In row (task_rows (txn c)) -> row_queue row = queue ->
             no_later first row
  | Ok None => forall row, In row (task_rows (txn c)) -> row_queue row <> queue
  | Raise _ => False
  end
  /\ forall (dataA dataB dataC : Data) (nowA nowB nowC : Z),
       (forall row, In row (task_rows (txn c)) -> row_queue row <> queue) ->
       nowA <= nowB <= nowC ->
       exists A B C cA cB cC,
         PackageStore.add_task queue dataA nowA c = (Ok A, cA)
         /\ PackageStore.add_task queue dataB nowB cA = (Ok B, cB)
         /\ PackageStore.add_task queue dataC nowC cB = (Ok C, cC)
         /\ PackageTask.data A = dataA
         /\ PackageTask.data B = dataB
         /\ PackageTask.data C = dataC
         /\ PackageTask.id A < PackageTask.id B < PackageTask.id C
         /\ fst (PackageStore.get_next_task queue cC) = Ok (Some A)
         /\ fst (PackageStore.get_next_task queue
                   (after (PackageTask.remove A) cC))
            = Ok (Some B)
         /\ fst (PackageStore.get_next_task queue
                   (after (PackageTask.remove B)
                      (after (PackageTask.remove A) cC)))
            = Ok (Some C)
         /\ fst (PackageStore.get_next_task queue
                   (after (PackageTask.remove C)
                      (after (PackageTask.remove B)
                         (after (PackageTask.remove A) cC))))
            = Ok None.
Proof.
  intros Ht Hwf Hb0 Hb. split.
  { apply (get_next_task_oldest queue c t bound Ht Hwf). lia. }
  intros dataA dataB dataC nowA nowB nowC Hempty Hclock.
  set (rows := task_rows (txn c)) in *.
  assert (S0 : stored (txn c) rows bound)
    by (split; [eauto | split; [reflexivity | exact Hwf]]).
  destruct (add_task_stored queue dataA nowA c rows bound S0)
    as (rA & fA & HaddA & HqA & HtA & HdA & HfreshA & SA); [lia |].
  destruct (add_task_stored queue dataB nowB (committed fA) _ _ SA)
    as (rB & fB & HaddB & HqB & HtB & HdB & HfreshB & SB); [lia |].
  destruct (add_task_stored queue dataC nowC (committed fB) _ _ SB)
    as (rC & fC & HaddC & HqC & HtC & HdC & HfreshC & SC); [lia |].
  assert (HAB : row_id rA < row_id rB)
    by (apply HfreshB, in_or_app; right; left; reflexivity).
  assert (HBC : row_id rB < row_id rC)
    by (apply HfreshC, in_or_app; right; left; reflexivity).
  assert (Hold : forall r, In r rows -> row_id r < row_id rA) by exact HfreshA.
  destruct (remove_stored rA fC _ _ SC) as (f1 & Hrm1 & S1);
    [lia | rewrite !in_app_iff; simpl; tauto |].
  destruct (remove_stored rB f1 _ _ S1) as (f2 & Hrm2 & S2);
    [lia
    | rewrite filter_In, !in_app_iff; simpl; split; [tauto |];
      apply negb_true_iff, Z.eqb_neq; lia |].
  destruct (remove_stored rC f2 _ _ S2) as (f3 & Hrm3 & S3);
    [lia
    | rewrite !filter_In, !in_app_iff; simpl; repeat split; try tauto;
      apply negb_true_iff, Z.eqb_neq; lia |].
  exists (handle_of rA), (handle_of rB), (handle_of rC),
    (committed fA), (committed fB), (committed fC).
  unfold after. rewrite Hrm1. simpl snd. rewrite Hrm2. simpl snd.
  rewrite Hrm3. simpl snd.
  repeat (split; [assumption || (simpl; lia) |]).
  split; [| split; [| split]].
  - rewrite (get_next_task_stored queue fC _ _ rA SC); try reflexivity;
      try lia; try assumption.
    + rewrite !in_app_iff; simpl; tauto.
    + intros row Hrow Hq. rewrite !in_app_iff in Hrow. simpl in Hrow.
      destruct Hrow as [[[Hrow | [<- | []]] | [<- | []]] | [<- | []]];
        [exfalso; apply (Hempty row Hrow Hq) | auto | right; lia | right; lia].
  - rewrite (get_next_task_stored queue f1 _ _ rB S1); try reflexivity;
      try lia; try assumption.
    + rewrite filter_In, !in_app_iff; simpl; split; [tauto |].
      apply negb_true_iff, Z.eqb_neq; lia.
    + intros row Hrow Hq. rewrite filter_In, !in_app_iff in Hrow. simpl in Hrow.
      destruct Hrow as [[[[Hrow | [<- | []]] | [<- | []]] | [<- | []]] Hne];
        [exfalso; apply (Hempty row Hrow Hq)
        | apply negb_true_iff, Z.eqb_neq in Hne; lia
        | auto | right; lia].
  - rewrite (get_next_task_stored queue f2 _ _ rC S2); try reflexivity;
      try lia; try assumption.
    + rewrite !filter_In, !in_app_iff; simpl; repeat split; try tauto;
        apply negb_true_iff, Z.eqb_neq; lia.
    + intros row Hrow Hq. rewrite !filter_In, !in_app_iff in Hrow. simpl in Hrow.
      destruct Hrow
        as [[[[[Hrow | [<- | []]] | [<- | []]] | [<- | []]] Hne1] Hne2];
        apply negb_true_iff, Z.eqb_neq in Hne1;
        apply negb_true_iff, Z.eqb_neq in Hne2;
        [exfalso; apply (Hempty row Hrow Hq) | lia | lia | auto].
  - destruct S3 as ((t3 & Ht3) & Hrows3 & Hwf3).
    apply (get_next_task_none queue f3 t3 (bound + 1 + 1 + 1) Ht3).
    + rewrite Hrows3. exact Hwf3.
    + lia.
    + rewrite Hrows3. intros row Hrow Hq.
      rewrite !filter_In, !in_app_iff in Hrow. simpl in Hrow.
      destruct Hrow
        as [[[[[[Hrow | [<- | []]] | [<- | []]] | [<- | []]] Hne1] Hne2] Hne3];
        apply negb_true_iff, Z.eqb_neq in Hne1;
        apply negb_true_iff, Z.eqb_neq in Hne2;
        apply negb_true_iff, Z.eqb_neq in Hne3;
        [apply (Hempty row Hrow Hq) | lia | lia | lia].
Qed.

Lemma get_next_task_fifo_witness :
  fst (PackageStore.get_next_task "default" three_tasks)
  = Ok (Some {| PackageTask.id := 2; PackageTask.queue := "default";
                PackageTask.timestamp := 10; PackageTask.data := 1 |})
  /\ forall row,
       In row (task_rows (txn three_tasks)) ->
       10 < row_timestamp row \/ (10 = row_timestamp row /\ 2 <= row_id row).
Proof.
  split; [reflexivity |].
  edestruct (get_next_task_fifo "default" three_tasks) as [H _].
  - reflexivity.
  - instantiate (1 := 4). split; repeat constructor.
  - reflexivity.
  - vm_compute. discriminate.
  - vm_compute in H. destruct H as (first & Heq & _ & _ & Hmin).
    destruct first as [i q ts d]. inversion Heq; subst.
    intros row Hrow. apply (Hmin row).
    + vm_compute. exact Hrow.
    + vm_compute in Hrow.
      destruct Hrow as [<- | [<- | [<- | []]]]; reflexivity.
Defined.

(** C4 as stated fails when the clock is set back between two calls of
    [add_task], which stamps each task with the reading of [time.time()]:
    tasks A, B and C enqueued in this order on an empty queue, at readings
    12, 10 and 10, get ids 1, 2 and 3, and [get_next_task] returns B first,
    then C once B is removed, and A last. *)
Lemma get_next_task_clock_set_back_counterexample :
  let A := {| PackageTask.id := 1; PackageTask.queue := "default";
              PackageTask.timestamp := 12; PackageTask.data := 0 |} in
  let B := {| PackageTask.id := 2; PackageTask.queue := "default";
              PackageTask.timestamp := 10; PackageTask.data := 1 |} in
  let C := {| PackageTask.id := 3; PackageTask.queue := "default";
              PackageTask.timestamp := 10; PackageTask.data := 2 |} in
  let cA := after (PackageStore.add_task "default" 0 12) new_connection in
  let cB := after (PackageStore.add_task "default" 1 10) cA in
  let cC := after (PackageStore.add_task "default" 2 10) cB in
  fst (PackageStore.get_next_task "default" new_connection) = Ok None
  /\ fst (PackageStore.add_task "default" 0 12 new_connection) = Ok A
  /\ fst (PackageStore.add_task "default" 1 10 cA) = Ok B
  /\ fst (PackageStore.add_task "default" 2 10 cB) = Ok C
  /\ fst (PackageStore.get_next_task "default" cC) = Ok (Some B)
  /\ fst (PackageStore.get_next_task "default" cC) <> Ok (Some A)
  /\ fst (PackageStore.get_next_task "default" (after (PackageTask.remove B) cC))
     = Ok (Some C)
  /\ fst (PackageStore.get_next_task "default"
            (after (PackageTask.remove C) (after (PackageTask.remove B) cC)))
     = Ok (Some A).
Proof.
  cbv zeta. repeat split; try reflexivity. vm_compute. discriminate.
Qed.

(** ** Iterating over the hash-id requests *)

Lemma nexts_Finished (later : list Connection) :
  PackageStore.nexts PackageStore.Finished later
  = map (fun _ => PackageStore.StopIteration) later.
Proof.
  induction later as [| db rest IH]; simpl; [reflexivity |].
  rewrite IH. reflexivity.
Qed.

Lemma nexts_refused_Finished (later : list Connection) :
  PackageStore.nexts_refused PackageStore.Finished later
  = map (fun _ => PackageStore.StopIteration) later.
Proof.
  induction later as [| db rest IH]; simpl; [reflexivity |].
  rewrite IH. reflexivity.
Qed.

(** Once the body has run its [SELECT], the rows it fetched are what the
    generator yields, whatever becomes of the store. *)
Lemma nexts_Suspended (rows : list Z) :
  forall later : list Connection,
    List.length later = S (List.length rows) ->
    PackageStore.nexts (PackageStore.Suspended rows) later
    = map yield_row rows ++ [PackageStore.StopIteration].
Proof.
  induction rows as [| row rest IH]; intros later Hlen;
    destruct later as [| db later']; try discriminate; simpl.
  - destruct later'; [reflexivity | discriminate].
  - rewrite IH; [reflexivity |]. simpl in Hlen. congruence.
Qed.

(** What the generator does yield.  Calling [iter_hash_id_requests] reads
    nothing: it returns a fresh generator and leaves the connection as it
    was, so calling it again starts over.  The ids are read when the first
    element is asked for: on a store holding N requests at that moment the
    generator yields exactly one handle per stored request, in rowid order,
    then stops, whatever happens to the store between the later [next()]
    calls. *)
Lemma iter_hash_id_requests_reads_at_first_next (c : Connection)
    (t : PackageTables) (later : list Connection) :
  tables_of (txn c) = Some t ->
  List.length later = List.length (tbl_hash_id_request t) ->
  (forall db : Connection,
      clean db ->
      PackageStore.iter_hash_id_requests db = (Ok PackageStore.Created, db))
  /\ PackageStore.nexts PackageStore.Created (c :: later)
     = map (fun row => PackageStore.Yield (HashIDRequest.mk (req_id row)))
           (tbl_hash_id_request t)
       ++ [PackageStore.StopIteration]
  /\ snd (PackageStore.next PackageStore.Created c) = c.
Proof.
  intros Ht Hlen. split; [| split].
  - intros [d f] Hclean. unfold clean in Hclean. simpl in Hclean. subst f.
    reflexivity.
  - simpl. unfold SELECT_id_FROM_hash_id_request, bind.
    rewrite (package_tables_inv _ t Ht). unfold ret.
    rewrite <- (map_map req_id yield_row).
    rewrite <- (length_map req_id) in Hlen.
    destruct (map req_id (tbl_hash_id_request t)) as [| row rest]; simpl.
    + destruct later; [reflexivity | discriminate].
    + rewrite nexts_Suspended; [reflexivity | exact Hlen].
  - unfold PackageStore.next, SELECT_id_FROM_hash_id_request, bind.
    rewrite (package_tables_inv _ t Ht). unfold ret.
    destruct (PackageStore.resume _). destruct c; reflexivity.
Qed.

(** Cleared after the first [next()], the request read by then is still
    yielded. *)
Example iter_hash_id_requests_after_first_next :
  PackageStore.nexts PackageStore.Created
    [one_request;
     after PackageStore.clear_hash_id_requests one_request]
  = [PackageStore.Yield (HashIDRequest.mk 1); PackageStore.StopIteration].
Proof.
  edestruct (iter_hash_id_requests_reads_at_first_next one_request)
    as (_ & H & _).
  - reflexivity.
  - instantiate (1 := [after PackageStore.clear_hash_id_requests one_request]).
    reflexivity.
  - exact H.
Defined.

(** C3 at a store that changes between the call and the first [next()]:
    the generator obtained while exactly one request is stored yields
    nothing once the requests have been cleared, and yields a request added
    after the call; the ids it yields are not those present at call time. *)
Theorem iter_hash_id_requests_reads_after_call :
  PackageStore.iter_hash_id_requests one_request
  = (Ok PackageStore.Created, one_request)
  /\ fst (PackageStore.get_hash_id_request 1 one_request)
     = Ok (HashIDRequest.mk 1)
  /\ PackageStore.nexts PackageStore.Created
       [after PackageStore.clear_hash_id_requests one_request;
        after PackageStore.clear_hash_id_requests one_request]
     = [PackageStore.StopIteration; PackageStore.StopIteration]
  /\ PackageStore.nexts PackageStore.Created
       [after (PackageStore.add_hash_id_request ["h2"%string] 11) one_request;
        after (PackageStore.add_hash_id_request ["h2"%string] 11) one_request;
        after (PackageStore.add_hash_id_request ["h2"%string] 11) one_request]
     = [PackageStore.Yield (HashIDRequest.mk 1);
        PackageStore.Yield (HashIDRequest.mk 2);
        PackageStore.StopIteration].
Proof. repeat split. Qed.

(** Under bindings that refuse a closed cursor the generator yields no
    handle at all: its first [next()] raises [ProgrammingError], which ends
    it, whatever the store holds then or later. *)
Lemma iter_hash_id_requests_refused (c : Connection) (later : list Connection) :
  PackageStore.nexts_refused PackageStore.Created (c :: later)
  = PackageStore.Raised ProgrammingError
    :: map (fun _ => PackageStore.StopIteration) later.
Proof. simpl. rewrite nexts_refused_Finished. reflexivity. Qed.

(** ** Draining the queue *)














(** * Further properties of the store *)

(** ** Readers write nothing *)

Lemma reads_ret {A : Type} (a : A) : reads (ret a).
Proof. intros f. reflexivity. Qed.

Lemma reads_raise {A : Type} (e : exn) : reads (@raise A e).
Proof. intros f. reflexivity. Qed.

Lemma reads_bind {A B : Type} (m : M A) (k : A -> M B) :
  reads m -> (forall a, reads (k a)) -> reads (bind m k).
Proof.
  intros Hm Hk f. unfold bind. specialize (Hm f).
  destruct (m f) as [[a | e] f1]; simpl in Hm; subst f1.
  - apply Hk.
  - reflexivity.
Qed.

Lemma reads_the_database : reads the_database.
Proof. intros [| d]; reflexivity. Qed.

Lemma reads_table_hash : reads table_hash.
Proof.
  unfold table_hash. apply reads_bind; [apply reads_the_database |].
  intros d. destruct (tbl_hash d); (apply reads_ret || apply reads_raise).
Qed.

Lemma reads_package_tables : reads package_tables.
Proof.
  unfold package_tables. apply reads_bind; [apply reads_the_database |].
  intros d. destruct (tbl_package d); (apply reads_ret || apply reads_raise).
Qed.

Lemma reads_bind_int (n : Z) : reads (bind_int n).
Proof.
  unfold bind_int. destruct (fits_int64 n); (apply reads_ret || apply reads_raise).
Qed.

Create HintDb reads.
#[local] Hint Resolve reads_ret reads_raise reads_the_database reads_table_hash
  reads_package_tables reads_bind_int : reads.

Ltac reads :=
  repeat first
    [ solve [auto with reads]
    | apply reads_bind; [| intro]
    | match goal with
      | |- reads (match ?x with _ => _ end) => destruct x
      end ].

Lemma reads_PackageTask_init (id : Z) : reads (PackageTask.__init__ id).
Proof. unfold PackageTask.__init__, SELECT_FROM_task_WHERE_id. reads. Qed.

Lemma reads_with_cursor {A : Type} (method : M A) (c : Connection) :
  reads method -> clean c -> snd (with_cursor method c) = c.
Proof.
  intros Hm Hclean. unfold with_cursor. specialize (Hm (txn c)).
  destruct (method (txn c)) as [[r | e] f]; simpl in *; subst f;
    destruct c as [d t]; unfold clean in Hclean; simpl in *; subst; reflexivity.
Qed.

Lemma reads_outcome {A : Type} (method : M A) (c : Connection) :
  reads method -> clean c -> snd (outcome (with_cursor method c)) = c.
Proof.
  intros Hm Hclean. rewrite <- (reads_with_cursor method c Hm Hclean) at 2.
  destruct (with_cursor method c) as [[r | e] c']; reflexivity.
Qed.

(** Every reading method of the store and of its handles, called on a
    connection with no open transaction, leaves the connection and the file
    exactly as they were, whether it returns or raises. *)
Theorem queries_change_nothing (q : Query) (c : Connection) :
  clean c -> snd (ask q c) = c.
Proof.
  intros Hclean.
  destruct q; simpl; apply reads_outcome; try exact Hclean;
    unfold HashIdStore.get_hash_id_body, HashIdStore.get_hash_ids_body,
      HashIdStore.get_id_hash_body, SELECT_id_FROM_hash, SELECT_hash_FROM_hash,
      SELECT_hash_id_FROM_hash, SELECT_id_FROM_ids,
      SELECT_FROM_hash_id_request_WHERE_id, PackageStore.get_next_task_body,
      SELECT_id_FROM_task_WHERE_queue_ORDER_BY_timestamp, SELECT_value_FROM_flag,
      HashIDRequest.first_column;
    reads; apply reads_PackageTask_init.
Qed.

Lemma queries_change_nothing_witness :
  snd (ask (Get_next_task "default") three_tasks) = three_tasks
  /\ snd (ask (Get_hash_id_request 7) three_tasks) = three_tasks.
Proof.
  split; apply queries_change_nothing; reflexivity.
Defined.

(** ** Each mutation writes to one table *)

Lemma same_tables_except_refl (p : Part) (t : PackageTables) :
  same_tables_except p t t.
Proof. repeat split. Qed.

Lemma same_except_refl (p : Part) (f : File) : same_except p f f.
Proof.
  destruct f as [| [h [t |]]]; simpl; auto using same_tables_except_refl.
Qed.

Lemma same_except_trans (p : Part) (f1 f2 f3 : File) :
  same_except p f1 f2 -> same_except p f2 f3 -> same_except p f1 f3.
Proof.
  destruct f1 as [| [h1 [t1 |]]], f2 as [| [h2 [t2 |]]], f3 as [| [h3 [t3 |]]];
    simpl; try tauto.
  - intros [H1 T1] [H2 T2]. split; [intros Hp; rewrite H2, H1; auto |].
    unfold same_tables_except in *.
    destruct T1 as (A1 & B1 & C1 & D1 & E1 & F1).
    destruct T2 as (A2 & B2 & C2 & D2 & E2 & F2).
    repeat split; intros Hp;
      [rewrite A2, A1 | rewrite B2, B1 | rewrite C2, C1
      | rewrite D2, D1 | rewrite E2, E1 | rewrite F2, F1]; auto.
  - intros [H1 _] [H2 _]. split; [intros Hp; rewrite H2, H1; auto | exact I].
Qed.

Lemma reads_changes_only {A : Type} (p : Part) (m : M A) :
  reads m -> changes_only p m.
Proof.
  intros Hm f r f' H. specialize (Hm f). rewrite H in Hm. simpl in Hm. subst f'.
  apply same_except_refl.
Qed.

Lemma changes_only_bind {A B : Type} (p : Part) (m : M A) (k : A -> M B) :
  changes_only p m -> (forall a, changes_only p (k a)) ->
  changes_only p (bind m k).
Proof.
  intros Hm Hk f r f'. unfold bind.
  destruct (m f) as [[a | e] f1] eqn:E; intros H.
  - eapply same_except_trans; [eapply Hm; eauto | eapply Hk; eauto].
  - inversion H; subst. eapply Hm; eauto.
Qed.

Lemma changes_only_for_each {A : Type} (p : Part) (xs : list A)
    (body : A -> M unit) :
  (forall x, changes_only p (body x)) -> changes_only p (for_each xs body).
Proof.
  intros Hbody. induction xs as [| x rest IH]; simpl.
  - apply reads_changes_only, reads_ret.
  - apply changes_only_bind; auto.
Qed.

(** A statement run on each kind of file: what it returns is compared with
    the file it started from, table by table. *)
Ltac statement_effect :=
  let f := fresh "f" in
  let r := fresh "r" in
  let f' := fresh "f'" in
  let H := fresh "H" in
  intros f r f';
  unfold bind, package_tables, table_hash, the_database, bind_int, write_tables,
    write_hash, write_database, ret, raise;
  destruct f as [| [[| | ?] [? |]]]; simpl;
  repeat match goal with
         | |- context [fits_int64 ?x] => destruct (fits_int64 x)
         end;
  simpl; intros H; inversion H; subst; simpl;
  unfold same_tables_except; simpl;
  repeat split; try reflexivity;
  let Hne := fresh "Hne" in
  intros Hne; try reflexivity; exfalso; apply Hne; reflexivity.

Lemma changes_only_REPLACE_INTO_hash (id : Z) (hash : string) :
  changes_only Hash_part (REPLACE_INTO_hash id hash).
Proof. unfold REPLACE_INTO_hash. statement_effect. Qed.

Lemma changes_only_DELETE_FROM_hash : changes_only Hash_part DELETE_FROM_hash.
Proof. unfold DELETE_FROM_hash. statement_effect. Qed.

Lemma changes_only_REPLACE_INTO_ids (name : IdTable) (id : Z) :
  changes_only (Ids_part name) (REPLACE_INTO_ids name id).
Proof. unfold REPLACE_INTO_ids. destruct name; statement_effect. Qed.

Lemma changes_only_DELETE_FROM_ids_WHERE_id_IN (name : IdTable) (ids : list Z) :
  changes_only (Ids_part name) (DELETE_FROM_ids_WHERE_id_IN name ids).
Proof. unfold DELETE_FROM_ids_WHERE_id_IN. destruct name; statement_effect. Qed.

Lemma changes_only_DELETE_FROM_ids (name : IdTable) :
  changes_only (Ids_part name) (DELETE_FROM_ids name).
Proof. unfold DELETE_FROM_ids. destruct name; statement_effect. Qed.

Lemma changes_only_REPLACE_INTO_flag (name : string) (value : bool) :
  changes_only Flag_part (REPLACE_INTO_flag name value).
Proof. unfold REPLACE_INTO_flag. statement_effect. Qed.

Lemma changes_only_INSERT_INTO_hash_id_request (hashes : list string) (now : Z) :
  changes_only Request_part (INSERT_INTO_hash_id_request hashes now).
Proof. unfold INSERT_INTO_hash_id_request. statement_effect. Qed.

Lemma changes_only_DELETE_FROM_hash_id_request :
  changes_only Request_part DELETE_FROM_hash_id_request.
Proof. unfold DELETE_FROM_hash_id_request. statement_effect. Qed.

Lemma changes_only_DELETE_FROM_hash_id_request_WHERE_id (id : Z) :
  changes_only Request_part (DELETE_FROM_hash_id_request_WHERE_id id).
Proof. unfold DELETE_FROM_hash_id_request_WHERE_id. statement_effect. Qed.

Lemma changes_only_UPDATE_hash_id_request
    (set_column : Z -> RequestRow -> RequestRow) (value id : Z) :
  changes_only Request_part (UPDATE_hash_id_request set_column value id).
Proof. unfold UPDATE_hash_id_request. statement_effect. Qed.

Lemma changes_only_INSERT_INTO_task (queue : string) (now : Z) (data : Data) :
  changes_only Task_part (INSERT_INTO_task queue now data).
Proof. unfold INSERT_INTO_task. statement_effect. Qed.

Lemma changes_only_DELETE_FROM_task_WHERE_id (id : Z) :
  changes_only Task_part (DELETE_FROM_task_WHERE_id id).
Proof. unfold DELETE_FROM_task_WHERE_id. statement_effect. Qed.

Lemma changes_only_DELETE_FROM_task_WHERE_id_NOT_IN (ids : list Z) :
  changes_only Task_part (DELETE_FROM_task_WHERE_id_NOT_IN ids).
Proof. unfold DELETE_FROM_task_WHERE_id_NOT_IN. statement_effect. Qed.

Create HintDb effects.
#[local] Hint Resolve changes_only_REPLACE_INTO_hash changes_only_DELETE_FROM_hash
  changes_only_REPLACE_INTO_ids changes_only_DELETE_FROM_ids_WHERE_id_IN
  changes_only_DELETE_FROM_ids changes_only_REPLACE_INTO_flag
  changes_only_INSERT_INTO_hash_id_request
  changes_only_DELETE_FROM_hash_id_request
  changes_only_DELETE_FROM_hash_id_request_WHERE_id
  changes_only_UPDATE_hash_id_request changes_only_INSERT_INTO_task
  changes_only_DELETE_FROM_task_WHERE_id
  changes_only_DELETE_FROM_task_WHERE_id_NOT_IN : effects.

Lemma changes_only_with_cursor {A : Type} (p : Part) (method : M A)
    (c : Connection) :
  changes_only p method -> clean c ->
  same_except p (txn c) (txn (snd (outcome (with_cursor method c)))).
Proof.
  intros Hm Hclean.
  destruct (with_cursor_inv method c) as [(r & f & Hrun & ->) | (e & f & _ & ->)];
    simpl.
  - eapply Hm; eauto.
  - rewrite Hclean. apply same_except_refl.
Qed.

Lemma perform_same_except (m : Mutation) (c : Connection) :
  clean c -> same_except (touches m) (txn c) (txn (snd (perform m c))).
Proof.
  intros Hclean.
  destruct m; simpl; apply changes_only_with_cursor; try exact Hclean;
    unfold HashIdStore.set_hash_ids_body, HashIdStore.clear_hash_ids_body;
    repeat first
      [ solve [auto with effects]
      | apply changes_only_for_each; intro
      | apply reads_changes_only; solve [auto with reads
                                        | apply reads_PackageTask_init]
      | apply changes_only_bind; [| intro] ].
Qed.

Lemma perform_other_tables (m : Mutation) (c : Connection) :
  clean c ->
  same_except (touches m) (txn c) (txn (snd (perform m c)))
  /\ (touches m <> Hash_part ->
      hash_rows (txn (snd (perform m c))) = hash_rows (txn c))
  /\ (touches m <> Task_part ->
      task_rows (txn (snd (perform m c))) = task_rows (txn c))
  /\ (touches m <> Request_part ->
      request_rows (txn (snd (perform m c))) = request_rows (txn c))
  /\ (touches m <> Flag_part ->
      flag_rows (txn (snd (perform m c))) = flag_rows (txn c))
  /\ (forall name,
         touches m <> Ids_part name ->
         id_rows name (txn (snd (perform m c))) = id_rows name (txn c)).
Proof.
  intros Hclean. pose proof (perform_same_except m c Hclean) as H.
  split; [exact H |].
  destruct (txn c) as [| [h [t |]]],
           (txn (snd (perform m c))) as [| [h' [t' |]]];
    simpl in H; try contradiction;
    try (match type of H with _ /\ False => destruct H as [_ []] end);
    unfold hash_rows, task_rows, request_rows, flag_rows, id_rows; simpl.
  - repeat split; reflexivity.
  - destruct H as [Hh (A & B & C & D & E & F)].
    split; [intros Hp; rewrite (Hh Hp); reflexivity |].
    repeat split; auto. intros name. destruct name; simpl; auto.
  - destruct H as [Hh _].
    split; [intros Hp; rewrite (Hh Hp); reflexivity |].
    repeat split; reflexivity.
Qed.


(** Each mutating operation changes the rows of one table only, the one of
    [touches]: called on a connection with no open transaction, it leaves
    the kind of file, the set of tables present and the rows of every other
    table as they were, whether it returns or raises.  So [clear_tasks]
    never deletes a hash-id request, [set_hash_ids] never touches the
    package tables, and so on. *)
Theorem mutations_touch_one_table (m : Mutation) (c : Connection) :
  clean c ->
  same_except (touches m) (txn c) (txn (snd (perform m c)))
  /\ (touches m <> Hash_part ->
      hash_rows (txn (snd (perform m c))) = hash_rows (txn c))
  /\ (touches m <> Task_part ->
      task_rows (txn (snd (perform m c))) = task_rows (txn c))
  /\ (touches m <> Request_part ->
      request_rows (txn (snd (perform m c))) = request_rows (txn c))
  /\ (touches m <> Flag_part ->
      flag_rows (txn (snd (perform m c))) = flag_rows (txn c))
  /\ (forall name,
         touches m <> Ids_part name ->
         id_rows name (txn (snd (perform m c))) = id_rows name (txn c)).
Proof. exact (perform_other_tables m c). Qed.

Lemma mutations_touch_one_table_witness :
  task_rows (txn (snd (perform (Set_flag "reloaded" true) three_tasks)))
  = task_rows (txn three_tasks).
Proof.
  destruct (mutations_touch_one_table (Set_flag "reloaded" true) three_tasks)
    as (_ & _ & H & _); [reflexivity |].
  apply H. discriminate.
Defined.

(** ** The hash=>id table stays one to one *)

Lemma NoDup_map_filter {A B : Type} (g : A -> B) (p : A -> bool) (l : list A) :
  NoDup (map g l) -> NoDup (map g (filter p l)).
Proof.
  induction l as [| x l IH]; simpl; intros H; [constructor |].
  inversion H as [| ? ? Hx Hl]; subst.
  destruct (p x); simpl; [| auto].
  constructor; [| auto].
  intros Hin. apply Hx. apply in_map_iff in Hin. destruct Hin as (y & Hy & Hin).
  apply filter_In in Hin. apply in_map_iff. exists y. tauto.
Qed.

Lemma NoDup_snoc {A : Type} (l : list A) (a : A) :
  NoDup l -> ~ In a l -> NoDup (l ++ [a]).
Proof.
  induction 1 as [| x l Hx Hl IH]; simpl; intros Ha.
  - constructor; [intros [] | constructor].
  - constructor.
    + rewrite in_app_iff. simpl. intuition.
    + apply IH. intuition.
Qed.

Lemma replace_one_to_one (id : Z) (hash : string) (rows : list (Z * string)) :
  one_to_one rows ->
  one_to_one (filter (fun row => negb (conflicts id hash row)) rows ++ [(id, hash)]).
Proof.
  intros [Hids Hhashes]. split; rewrite map_app; simpl; apply NoDup_snoc;
    try (apply NoDup_map_filter; assumption);
    intros Hin; apply in_map_iff in Hin; destruct Hin as (row & Hrow & Hin);
    apply filter_In in Hin; destruct Hin as [_ Hc];
    apply negb_true_iff, conflicts_false in Hc; tauto.
Qed.

Lemma set_hash_ids_body_one_to_one (hash_ids : list (string * Z)) :
  forall (f f' : File) (rows : list (Z * string)),
    HashIdStore.set_hash_ids_body hash_ids f = (Ok tt, f') ->
    hash_rows f = Some rows ->
    one_to_one rows ->
    exists rows', hash_rows f' = Some rows' /\ one_to_one rows'.
Proof.
  induction hash_ids as [| item rest IH]; intros f f' rows Hrun Hrows Hone.
  - inversion Hrun; subst. eauto.
  - apply set_hash_ids_body_inv in Hrun. destruct Hrun as (f1 & H1 & Hrest).
    apply REPLACE_INTO_hash_ok in H1. destruct H1 as (rows0 & Hr0 & _ & Hr1).
    assert (rows0 = rows) by congruence. subst rows0.
    eapply IH; eauto. apply replace_one_to_one. exact Hone.
Qed.

Lemma clear_hash_ids_spec (c : Connection) (rows : list (Z * string)) :
  hash_rows (txn c) = Some rows ->
  exists f,
    HashIdStore.clear_hash_ids c = (Ok tt, committed f)
    /\ hash_rows f = Some []
    /\ tables_of f = tables_of (txn c).
Proof.
  intros Hrows.
  unfold HashIdStore.clear_hash_ids, with_cursor, HashIdStore.clear_hash_ids_body,
    DELETE_FROM_hash, write_hash, bind, the_database, write_database.
  destruct (txn c) as [| d]; [discriminate |].
  simpl in Hrows. destruct (tbl_hash d); try discriminate.
  eexists. split; [reflexivity |]. split; reflexivity.
Qed.

Lemma perform_one_to_one (m : Mutation) (c : Connection)
    (rows : list (Z * string)) :
  clean c ->
  hash_rows (txn c) = Some rows ->
  one_to_one rows ->
  exists rows',
    hash_rows (txn (snd (perform m c))) = Some rows' /\ one_to_one rows'.
Proof.
  intros Hclean Hrows Hone.
  destruct m;
    try (rewrite perform_frames_hash by (auto; exact I); eauto; fail).
  - simpl. unfold HashIdStore.set_hash_ids.
    destruct (with_cursor_inv (HashIdStore.set_hash_ids_body hash_ids) c)
      as [([] & f & Hrun & ->) | (e & f & _ & ->)]; simpl.
    + eapply set_hash_ids_body_one_to_one; eauto.
    + rewrite Hclean in *. eauto.
  - simpl. destruct (clear_hash_ids_spec c rows Hrows) as (f & -> & Hf & _).
    simpl. exists []. split; [exact Hf |]. split; constructor.
Qed.

(** The table [hash] stays one to one: whatever mutating operations are
    called, in whatever order and whether they return or raise, a table in
    which no id has two hashes and no hash two ids is still such a table
    afterwards; the table of a new store is one. *)
Theorem hash_table_stays_one_to_one (later : list Mutation) (c : Connection)
    (rows : list (Z * string)) :
  clean c ->
  hash_rows (txn c) = Some rows ->
  one_to_one rows ->
  exists rows',
    hash_rows (txn (perform_all later c)) = Some rows' /\ one_to_one rows'.
Proof.
  revert c rows.
  induction later as [| m rest IH]; intros c rows Hclean Hrows Hone.
  - simpl. eauto.
  - destruct (perform_one_to_one m c rows Hclean Hrows Hone) as (rows1 & Hr1 & H1).
    unfold perform_all. simpl. eapply IH; eauto. apply perform_clean.
Qed.

Lemma hash_table_stays_one_to_one_witness :
  exists rows',
    hash_rows
      (txn (perform_all
              [Set_hash_ids [("a"%string, 1); ("b"%string, 1)];
               Add_task "default" 0 10;
               Set_hash_ids [("a"%string, 2); ("c"%string, 2 ^ 63)]]
              new_connection))
    = Some rows'
    /\ one_to_one rows'.
Proof.
  apply (hash_table_stays_one_to_one _ new_connection []).
  - reflexivity.
  - reflexivity.
  - split; constructor.
Defined.

Lemma filter_unique_hash (rows : list (Z * string)) (id : Z) (hash : string) :
  NoDup (map snd rows) ->
  In (id, hash) rows ->
  filter (fun row => String.eqb (snd row) hash) rows = [(id, hash)].
Proof.
  induction rows as [| x l IH]; intros Hnd Hin; [destruct Hin |].
  simpl in Hnd. inversion Hnd as [| ? ? Hx Hl]; subst.
  simpl. destruct Hin as [-> | Hin].
  - simpl. rewrite String.eqb_refl. f_equal.
    clear IH Hl Hnd. induction l as [| y l IHl]; [reflexivity |].
    simpl. destruct (String.eqb_spec (snd y) hash) as [Hy | Hy].
    + exfalso. apply Hx. left. exact Hy.
    + apply IHl. intros H. apply Hx. right. exact H.
  - destruct (String.eqb_spec (snd x) hash) as [Hy | Hy].
    + exfalso. apply Hx. rewrite Hy. apply (in_map snd) in Hin. exact Hin.
    + auto.
Qed.

Lemma get_hash_ids_rows (c : Connection) (rows : list (Z * string)) :
  hash_rows (txn c) = Some rows ->
  fst (HashIdStore.get_hash_ids c)
  = Ok (map (fun row => (snd row, fst row)) rows).
Proof.
  intros Hrows.
  unfold HashIdStore.get_hash_ids, with_cursor, HashIdStore.get_hash_ids_body,
    SELECT_hash_id_FROM_hash, bind.
  destruct (table_hash (txn c)) as [[rows' | e] f1] eqn:T;
    apply table_hash_inv in T; destruct T as [-> T]; [| congruence].
  assert (rows' = rows) by congruence. subst. reflexivity.
Qed.

(** [get_hash_ids] and [get_hash_id] agree: on a table where no hash has
    two ids, the dict returned has each hash once, and it maps [hash] to
    [id] exactly when [get_hash_id hash] returns [id]; a hash is missing
    from the dict exactly when [get_hash_id] returns None for it. *)
Theorem get_hash_ids_agrees_with_get_hash_id (c : Connection)
    (rows : list (Z * string)) :
  hash_rows (txn c) = Some rows ->
  NoDup (map snd rows) ->
  exists hash_ids,
    fst (HashIdStore.get_hash_ids c) = Ok hash_ids
    /\ NoDup (map fst hash_ids)
    /\ (forall hash id,
           In (hash, id) hash_ids
           <-> fst (HashIdStore.get_hash_id hash c) = Ok (Some id))
    /\ (forall hash,
           ~ In hash (map fst hash_ids)
           <-> fst (HashIdStore.get_hash_id hash c) = Ok None).
Proof.
  intros Hrows Hnd.
  exists (map (fun row => (snd row, fst row)) rows).
  split; [apply get_hash_ids_rows; exact Hrows |].
  split; [rewrite map_map; exact Hnd |].
  assert (Hlookup : forall hash,
             fst (HashIdStore.get_hash_id hash c)
             = Ok (hd_error (map fst (filter (fun row => String.eqb (snd row) hash)
                                             rows))))
    by (intros; apply get_hash_id_rows; exact Hrows).
  split.
  - intros hash id. rewrite Hlookup. split.
    + intros Hin. apply in_map_iff in Hin. destruct Hin as ([i h] & Heq & Hin).
      simpl in Heq. inversion Heq; subst.
      rewrite (filter_unique_hash rows id hash Hnd Hin). reflexivity.
    + intros H. injection H as Hhd. rewrite hd_error_map in Hhd.
      destruct (hd_error _) as [[i h] |] eqn:E; [| discriminate].
      simpl in Hhd. inversion Hhd; subst.
      apply hd_error_In, filter_In in E. destruct E as [Hin Hh].
      simpl in Hh. apply String.eqb_eq in Hh. subst.
      apply in_map_iff. exists (id, hash). auto.
  - intros hash. rewrite Hlookup, map_map. simpl. split.
    + intros Hnot.
      destruct (filter (fun row => String.eqb (snd row) hash) rows)
        as [| [i h] rest] eqn:E; [reflexivity |].
      exfalso. apply Hnot.
      assert (Hin : In (i, h) (filter (fun row => String.eqb (snd row) hash) rows))
        by (rewrite E; left; reflexivity).
      apply filter_In in Hin. destruct Hin as [Hin Hh]. simpl in Hh.
      apply String.eqb_eq in Hh. subst.
      apply (in_map snd) in Hin. exact Hin.
    + intros H Hin. apply in_map_iff in Hin. destruct Hin as ([i h] & Heq & Hin).
      simpl in Heq. subst.
      rewrite (filter_unique_hash rows i hash Hnd Hin) in H. discriminate.
Qed.

Lemma get_hash_ids_agrees_with_get_hash_id_witness :
  exists hash_ids,
    fst (HashIdStore.get_hash_ids primary_h7) = Ok hash_ids
    /\ (In ("h"%string, 7) hash_ids
        <-> fst (HashIdStore.get_hash_id "h" primary_h7) = Ok (Some 7)).
Proof.
  destruct (get_hash_ids_agrees_with_get_hash_id primary_h7 [(7, "h"%string)])
    as (hash_ids & Hget & _ & Hiff & _).
  - reflexivity.
  - repeat constructor. intros [].
  - exists hash_ids. split; [exact Hget | apply Hiff].
Defined.

(** ** Overwriting and clearing mappings *)

(** Giving a stored hash a new id overwrites the mapping: [get_hash_id]
    returns the new id, [get_id_hash] returns the hash for the new id and
    None for the old one. *)
Theorem set_hash_ids_overwrites (c : Connection) (rows : list (Z * string))
    (hash : string) (old_id new_id : Z) :
  hash_rows (txn c) = Some rows ->
  one_to_one rows ->
  In (old_id, hash) rows ->
  new_id <> old_id ->
  fits_int64 old_id = true ->
  fits_int64 new_id = true ->
  exists c',
    HashIdStore.set_hash_ids [(hash, new_id)] c = (Ok tt, c')
    /\ fst (HashIdStore.get_hash_id hash c') = Ok (Some new_id)
    /\ fst (HashIdStore.get_id_hash new_id c') = Ok (Some hash)
    /\ fst (HashIdStore.get_id_hash old_id c') = Ok None.
Proof.
  intros Hrows [Hids _] Hin Hne Hold Hnew.
  destruct (REPLACE_INTO_hash_returns new_id hash (txn c) rows Hrows Hnew)
    as (f & Hrun & _).
  pose proof (REPLACE_INTO_hash_ok _ _ _ _ Hrun) as (rows0 & Hr0 & _ & Hr1).
  assert (rows0 = rows) by congruence. subst rows0.
  exists (committed f).
  assert (Hset : HashIdStore.set_hash_ids [(hash, new_id)] c = (Ok tt, committed f)).
  { unfold HashIdStore.set_hash_ids, with_cursor, HashIdStore.set_hash_ids_body.
    simpl. unfold bind. rewrite Hrun. reflexivity. }
  split; [exact Hset |].
  pose proof (replace_establishes hash new_id rows) as Hholds.
  split; [eapply holds_get_hash_id; eauto |].
  split; [eapply holds_get_id_hash; eauto |].
  rewrite (get_id_hash_rows old_id (committed f) _ Hr1 Hold).
  replace (filter (fun row => fst row =? old_id)
             (filter (fun row => negb (conflicts new_id hash row)) rows
              ++ [(new_id, hash)]))
    with (@nil (Z * string)); [reflexivity |].
  symmetry. rewrite filter_app. simpl.
  destruct (Z.eqb_spec new_id old_id) as [| _]; [contradiction |].
  rewrite app_nil_r.
  destruct (filter (fun row => fst row =? old_id)
              (filter (fun row => negb (conflicts new_id hash row)) rows))
    as [| [i h] rest] eqn:E; [reflexivity |].
  exfalso.
  assert (Hrow : In (i, h)
                   (filter (fun row => fst row =? old_id)
                      (filter (fun row => negb (conflicts new_id hash row)) rows)))
    by (rewrite E; left; reflexivity).
  apply filter_In in Hrow. destruct Hrow as [Hrow Hi].
  apply filter_In in Hrow. destruct Hrow as [Hrow Hc].
  simpl in Hi. apply Z.eqb_eq in Hi. subst i.
  apply negb_true_iff, conflicts_false in Hc. simpl in Hc.
  assert (h = hash); [| tauto].
  clear - Hids Hin Hrow. induction rows as [| x l IH]; [destruct Hin |].
  simpl in Hids. inversion Hids as [| ? ? Hx Hl]; subst.
  destruct Hin as [-> | Hin], Hrow as [Heq | Hrow].
  - congruence.
  - exfalso. apply Hx. apply (in_map fst) in Hrow. exact Hrow.
  - subst x. exfalso. apply Hx. apply (in_map fst) in Hin. exact Hin.
  - auto.
Qed.

Lemma set_hash_ids_overwrites_witness :
  exists c',
    HashIdStore.set_hash_ids [("h"%string, 8)] primary_h7 = (Ok tt, c')
    /\ fst (HashIdStore.get_hash_id "h" c') = Ok (Some 8)
    /\ fst (HashIdStore.get_id_hash 8 c') = Ok (Some "h"%string)
    /\ fst (HashIdStore.get_id_hash 7 c') = Ok None.
Proof.
  apply (set_hash_ids_overwrites primary_h7 [(7, "h"%string)]).
  - reflexivity.
  - split; repeat constructor; intros [].
  - left. reflexivity.
  - discriminate.
  - reflexivity.
  - reflexivity.
Defined.

(** [clear_hash_ids] on a store holding table [hash] returns and forgets
    every mapping: afterwards [get_hash_ids] is the empty dict,
    [get_hash_id] is None for every hash and [get_id_hash] is None for every
    id; the package tables are as before. *)
Theorem clear_hash_ids_forgets (c : Connection) (rows : list (Z * string)) :
  hash_rows (txn c) = Some rows ->
  exists c',
    HashIdStore.clear_hash_ids c = (Ok tt, c')
    /\ fst (HashIdStore.get_hash_ids c') = Ok []
    /\ (forall hash, fst (HashIdStore.get_hash_id hash c') = Ok None)
    /\ (forall id,
           fits_int64 id = true ->
           fst (HashIdStore.get_id_hash id c') = Ok None)
    /\ tables_of (txn c') = tables_of (txn c).
Proof.
  intros Hrows.
  destruct (clear_hash_ids_spec c rows Hrows) as (f & Hrun & Hf & Ht).
  exists (committed f). split; [exact Hrun |].
  split; [rewrite (get_hash_ids_rows (committed f) [] Hf); reflexivity |].
  split; [intros hash; rewrite (get_hash_id_rows hash (committed f) [] Hf);
          reflexivity |].
  split; [intros id Hfit;
          rewrite (get_id_hash_rows id (committed f) [] Hf Hfit); reflexivity |].
  exact Ht.
Qed.

Lemma clear_hash_ids_forgets_witness :
  exists c',
    HashIdStore.clear_hash_ids primary_h7 = (Ok tt, c')
    /\ fst (HashIdStore.get_hash_id "h" c') = Ok None.
Proof.
  destruct (clear_hash_ids_forgets primary_h7 [(7, "h"%string)] eq_refl)
    as (c' & Hrun & _ & Hget & _).
  exists c'. split; [exact Hrun | apply Hget].
Defined.

(** ** The id tables: available, available_upgrade, installed *)

Lemma In_insert_id (x id : Z) (ids : list Z) :
  In x (insert_id id ids) <-> x = id \/ In x ids.
Proof.
  induction ids as [| y l IH]; simpl; [intuition |].
  destruct (Z.ltb_spec id y); [simpl; intuition |].
  destruct (Z.eqb_spec id y); simpl; [subst; intuition |].
  rewrite IH. intuition.
Qed.

Lemma insert_id_sorted (id : Z) (ids : list Z) :
  StronglySorted Z.lt ids -> StronglySorted Z.lt (insert_id id ids).
Proof.
  induction 1 as [| y l Hl IH Hy]; simpl.
  - constructor; constructor.
  - destruct (Z.ltb_spec id y) as [Hlt | Hge].
    + constructor; [constructor; assumption |].
      constructor; [exact Hlt |].
      rewrite Forall_forall in *. intros z Hz. specialize (Hy z Hz). lia.
    + destruct (Z.eqb_spec id y) as [Heq | Hne]; [constructor; assumption |].
      constructor; [exact IH |].
      rewrite Forall_forall in *. intros z Hz. apply In_insert_id in Hz.
      destruct Hz as [-> | Hz]; [lia | auto].
Qed.

Lemma fold_insert_id (ids : list Z) :
  forall old : list Z,
    StronglySorted Z.lt old ->
    StronglySorted Z.lt (fold_left (fun l id => insert_id id l) ids old)
    /\ forall x,
         In x (fold_left (fun l id => insert_id id l) ids old)
         <-> In x old \/ In x ids.
Proof.
  induction ids as [| id rest IH]; intros old Hold; simpl.
  - split; [exact Hold | intuition].
  - destruct (IH (insert_id id old) (insert_id_sorted id old Hold)) as [Hs Hin].
    split; [exact Hs |]. intros x. rewrite Hin, In_insert_id. intuition.
Qed.

Lemma REPLACE_INTO_ids_ok (name : IdTable) (id : Z) (f : File)
    (t : PackageTables) :
  tables_of f = Some t ->
  fits_int64 id = true ->
  exists f' t',
    REPLACE_INTO_ids name id f = (Ok tt, f')
    /\ tables_of f' = Some t'
    /\ id_table name t' = insert_id id (id_table name t).
Proof.
  intros Ht Hfit. destruct f as [| [h [t0 |]]]; simpl in Ht; inversion Ht; subst.
  unfold REPLACE_INTO_ids, bind, package_tables, the_database, bind_int,
    write_tables, write_database, ret. simpl. rewrite Hfit. simpl.
  eexists. eexists. split; [reflexivity |]. split; [reflexivity |].
  destruct name; reflexivity.
Qed.

Lemma for_each_REPLACE_INTO_ids (name : IdTable) (ids : list Z) :
  forall (f : File) (t : PackageTables),
    tables_of f = Some t ->
    Forall (fun id => fits_int64 id = true) ids ->
    exists f' t',
      for_each ids (REPLACE_INTO_ids name) f = (Ok tt, f')
      /\ tables_of f' = Some t'
      /\ id_table name t'
         = fold_left (fun l id => insert_id id l) ids (id_table name t).
Proof.
  induction ids as [| id rest IH]; intros f t Ht Hfit.
  - exists f, t. repeat split. exact Ht.
  - inversion Hfit as [| ? ? Hid Hrest]; subst.
    destruct (REPLACE_INTO_ids_ok name id f t Ht Hid) as (f1 & t1 & H1 & Ht1 & Hids1).
    destruct (IH f1 t1 Ht1 Hrest) as (f' & t' & Hrun & Ht' & Hids').
    exists f', t'. simpl. unfold bind. rewrite H1.
    split; [exact Hrun |]. split; [exact Ht' |].
    rewrite Hids', Hids1. reflexivity.
Qed.

Lemma add_ids_unfold (name : IdTable) (ids : list Z) (c : Connection) :
  add_ids name ids c = with_cursor (for_each ids (REPLACE_INTO_ids name)) c.
Proof. destruct name; reflexivity. Qed.

Lemma get_ids_spec (name : IdTable) (c : Connection) (t : PackageTables) :
  tables_of (txn c) = Some t ->
  get_ids name c = (Ok (id_table name t), committed (txn c)).
Proof.
  intros Ht.
  assert (H : get_ids name c = with_cursor (SELECT_id_FROM_ids name) c)
    by (destruct name; reflexivity).
  rewrite H. unfold with_cursor, SELECT_id_FROM_ids, bind.
  rewrite (package_tables_inv _ t Ht). reflexivity.
Qed.

(** [add_available] and [get_available] (and the same methods on the other
    two id tables): ids that fit SQLite's INTEGER are all added, and the
    list read back afterwards is in ascending order, without repetition,
    and holds exactly the ids stored before and the ids added. *)
Theorem add_ids_then_get_ids (name : IdTable) (ids : list Z) (c : Connection)
    (t : PackageTables) :
  tables_of (txn c) = Some t ->
  StronglySorted Z.lt (id_table name t) ->
  Forall (fun id => fits_int64 id = true) ids ->
  exists c' stored_ids,
    add_ids name ids c = (Ok tt, c')
    /\ get_ids name c' = (Ok stored_ids, c')
    /\ StronglySorted Z.lt stored_ids
    /\ forall x, In x stored_ids <-> In x (id_table name t) \/ In x ids.
Proof.
  intros Ht Hsorted Hfit.
  destruct (for_each_REPLACE_INTO_ids name ids (txn c) t Ht Hfit)
    as (f' & t' & Hrun & Ht' & Hids).
  destruct (fold_insert_id ids (id_table name t) Hsorted) as [Hs Hin].
  exists (committed f'), (id_table name t').
  split; [rewrite add_ids_unfold; unfold with_cursor; rewrite Hrun; reflexivity |].
  split; [apply (get_ids_spec name (committed f') t' Ht') |].
  rewrite Hids. split; [exact Hs | exact Hin].
Qed.

Lemma add_ids_then_get_ids_witness :
  exists c',
    PackageStore.add_available [3; 1; 2; 3] new_connection = (Ok tt, c')
    /\ PackageStore.get_available c' = (Ok [1; 2; 3], c').
Proof.
  destruct (add_ids_then_get_ids available [3; 1; 2; 3] new_connection empty_tables)
    as (c' & stored_ids & Hadd & Hget & _).
  - reflexivity.
  - constructor.
  - repeat constructor.
  - exists c'. split; [exact Hadd |].
    simpl in Hadd. vm_compute in Hadd. inversion Hadd; subst.
    reflexivity.
Defined.

(** [remove_available] and [clear_available] (and the same methods on the
    other two id tables) return on any list of ids, the empty one and ids
    beyond 64 bits included: removal keeps, in their order, exactly the
    stored ids that are not listed, so that removing the empty list changes
    nothing, and clearing leaves no id. *)
Theorem remove_ids_and_clear_ids (name : IdTable) (ids : list Z) (c : Connection)
    (t : PackageTables) :
  tables_of (txn c) = Some t ->
  (exists c',
      remove_ids name ids c = (Ok tt, c')
      /\ get_ids name c'
         = (Ok (filter (fun id => negb (mem id ids)) (id_table name t)), c')
      /\ forall x,
           In x (id_rows name (txn c'))
           <-> In x (id_table name t) /\ ~ In x ids)
  /\ (exists c',
         remove_ids name [] c = (Ok tt, c')
         /\ id_rows name (txn c') = id_table name t)
  /\ (exists c',
         clear_ids name c = (Ok tt, c') /\ get_ids name c' = (Ok [], c')).
Proof.
  intros Ht.
  assert (Hrm : forall l,
             exists f' t',
               remove_ids name l c = (Ok tt, committed f')
               /\ tables_of f' = Some t'
               /\ id_table name t'
                  = filter (fun id => negb (mem id l)) (id_table name t)).
  { intros l.
    assert (H : remove_ids name l c
                = with_cursor (DELETE_FROM_ids_WHERE_id_IN name l) c)
      by (destruct name; reflexivity).
    rewrite H. unfold with_cursor, DELETE_FROM_ids_WHERE_id_IN, bind.
    rewrite (package_tables_inv _ t Ht).
    destruct (txn c) as [| [h [t0 |]]]; simpl in Ht; inversion Ht; subst.
    eexists. eexists. split; [reflexivity |]. split; [reflexivity |].
    destruct name; reflexivity. }
  split; [| split].
  - destruct (Hrm ids) as (f' & t' & Hrun & Ht' & Hids).
    exists (committed f'). split; [exact Hrun |].
    split; [rewrite (get_ids_spec name (committed f') t' Ht'), Hids; reflexivity |].
    intros x. unfold id_rows. simpl. rewrite Ht', Hids, filter_In.
    rewrite negb_true_iff. split; intros [H1 H2]; (split; [exact H1 |]).
    + intros Hin. apply mem_In in Hin. congruence.
    + destruct (mem x ids) eqn:E; [| reflexivity].
      exfalso. apply H2, mem_In, E.
  - destruct (Hrm []) as (f' & t' & Hrun & Ht' & Hids).
    exists (committed f'). split; [exact Hrun |].
    unfold id_rows. simpl. rewrite Ht', Hids.
    clear. induction (id_table name t) as [| x l IH]; simpl in *;
      [reflexivity | f_equal; exact IH].
  - assert (H : clear_ids name c = with_cursor (DELETE_FROM_ids name) c)
      by (destruct name; reflexivity).
    rewrite H. unfold with_cursor, DELETE_FROM_ids, bind.
    rewrite (package_tables_inv _ t Ht).
    destruct (txn c) as [| [h [t0 |]]]; simpl in Ht; inversion Ht; subst.
    eexists. split; [reflexivity |].
    erewrite get_ids_spec by reflexivity. destruct name; reflexivity.
Qed.

Lemma remove_ids_and_clear_ids_witness :
  exists c',
    PackageStore.remove_installed [2; 2 ^ 70] new_connection = (Ok tt, c')
    /\ PackageStore.get_installed c' = (Ok [], c').
Proof.
  destruct (remove_ids_and_clear_ids installed [2; 2 ^ 70] new_connection
              empty_tables eq_refl)
    as ((c' & Hrm & Hget & _) & _).
  exists c'. split; [exact Hrm | exact Hget].
Defined.

(** ** Hash-id requests and their handles *)

Lemma request_rows_put_requests (f : File) (t : PackageTables)
    (rows : list RequestRow) :
  tables_of f = Some t ->
  request_rows (put_requests rows f) = rows
  /\ tables_of (put_requests rows f) = Some (set_requests rows t)
  /\ task_rows (put_requests rows f) = task_rows f.
Proof.
  destruct f as [| [h [t' |]]]; simpl; intros H; inversion H; auto.
Qed.

Lemma write_tables_put_requests (f : File) (t : PackageTables)
    (rows : list RequestRow) :
  tables_of f = Some t ->
  write_tables (set_requests rows t) f = (Ok tt, put_requests rows f).
Proof.
  destruct f as [| [h [t' |]]]; simpl; intros H; inversion H; reflexivity.
Qed.

Lemma tables_of_request_rows (f : File) (t : PackageTables) :
  tables_of f = Some t -> request_rows f = tbl_hash_id_request t.
Proof. unfold request_rows. intros ->. reflexivity. Qed.

Lemma SELECT_FROM_hash_id_request_spec (id : Z) (f : File) (t : PackageTables) :
  tables_of f = Some t ->
  fits_int64 id = true ->
  SELECT_FROM_hash_id_request_WHERE_id id f
  = (Ok (filter (fun row => req_id row =? id) (request_rows f)), f).
Proof.
  intros Ht Hfit. unfold SELECT_FROM_hash_id_request_WHERE_id, bind.
  rewrite (package_tables_inv f t Ht), (bind_int_ok _ _ Hfit).
  rewrite (tables_of_request_rows f t Ht). reflexivity.
Qed.

(** Reading a column through a handle: the column of the first row of that
    id, [TypeError] when there is none. *)
Lemma request_getter {B : Type} (column : RequestRow -> B) (id : Z)
    (c : Connection) (t : PackageTables) :
  tables_of (txn c) = Some t ->
  fits_int64 id = true ->
  fst (with_cursor (rows <- SELECT_FROM_hash_id_request_WHERE_id id ;;
                    HashIDRequest.first_column column rows) c)
  = column_of column (lookup_request id (txn c)).
Proof.
  intros Ht Hfit. unfold with_cursor, bind.
  rewrite (SELECT_FROM_hash_id_request_spec id _ t Ht Hfit).
  unfold HashIDRequest.first_column, fetchone, lookup_request, column_of.
  destruct (hd_error _); reflexivity.
Qed.

Lemma get_hash_id_request_spec (request_id : Z) (c : Connection)
    (t : PackageTables) :
  tables_of (txn c) = Some t ->
  fits_int64 request_id = true ->
  fst (PackageStore.get_hash_id_request request_id c)
  = match lookup_request request_id (txn c) with
    | Some _ => Ok (HashIDRequest.mk request_id)
    | None => Raise (UnknownHashIDRequest request_id)
    end.
Proof.
  intros Ht Hfit. unfold PackageStore.get_hash_id_request, with_cursor, bind.
  rewrite (SELECT_FROM_hash_id_request_spec request_id _ t Ht Hfit).
  unfold fetchone, lookup_request.
  destruct (hd_error _); reflexivity.
Qed.

Lemma next_rowid_above (ids : list Z) (x : Z) :
  In x ids -> x < next_rowid ids.
Proof.
  destruct ids as [| id rest]; [intros [] |]. intros Hin.
  cbn [next_rowid].
  destruct (fold_max_bounds id rest) as [_ Hle]. specialize (Hle x Hin). lia.
Qed.

Lemma filter_request_none (id : Z) (rows : list RequestRow) :
  (forall row, In row rows -> req_id row <> id) ->
  filter (fun row => req_id row =? id) rows = [].
Proof.
  induction rows as [| x l IH]; intros H; [reflexivity |].
  simpl. destruct (Z.eqb_spec (req_id x) id) as [Hx | Hx].
  - exfalso. apply (H x); [left; reflexivity | exact Hx].
  - apply IH. intros row Hrow. apply H. right. exact Hrow.
Qed.

Lemma add_hash_id_request_spec (hashes : list string) (now : Z) (c : Connection)
    (t : PackageTables) :
  tables_of (txn c) = Some t ->
  let id := next_rowid (map req_id (request_rows (txn c))) in
  let row := {| req_id := id; req_timestamp := now; req_message_id := None;
                req_hashes := hashes |} in
  PackageStore.add_hash_id_request hashes now c
  = (Ok (HashIDRequest.mk id),
     committed (put_requests (request_rows (txn c) ++ [row]) (txn c))).
Proof.
  intros Ht id row.
  unfold PackageStore.add_hash_id_request, with_cursor, INSERT_INTO_hash_id_request.
  unfold bind at 1 2. rewrite (package_tables_inv _ t Ht). cbv zeta.
  unfold bind at 1.
  rewrite <- (tables_of_request_rows _ t Ht). fold id. fold row.
  rewrite (write_tables_put_requests _ t _ Ht). reflexivity.
Qed.

(** [add_hash_id_request] and the handle it returns: the handle reads back
    the hashes and the timestamp given, no message id yet, and
    [get_hash_id_request] finds the request under the handle's id; the id is
    above those of all stored requests, whose rows are kept. *)
Theorem add_hash_id_request_round_trip (hashes : list string) (now : Z)
    (c : Connection) (t : PackageTables) :
  tables_of (txn c) = Some t ->
  fits_int64 (next_rowid (map req_id (request_rows (txn c)))) = true ->
  exists request c',
    PackageStore.add_hash_id_request hashes now c = (Ok request, c')
    /\ fst (HashIDRequest.hashes request c') = Ok hashes
    /\ fst (HashIDRequest._get_timestamp request c') = Ok now
    /\ fst (HashIDRequest._get_message_id request c') = Ok None
    /\ fst (PackageStore.get_hash_id_request (HashIDRequest.id request) c')
       = Ok request
    /\ (forall row,
           In row (request_rows (txn c)) ->
           req_id row < HashIDRequest.id request
           /\ In row (request_rows (txn c')))
    /\ List.length (request_rows (txn c'))
       = S (List.length (request_rows (txn c))).
Proof.
  intros Ht Hfit.
  pose proof (add_hash_id_request_spec hashes now c t Ht) as Hadd.
  cbv zeta in Hadd.
  set (id := next_rowid (map req_id (request_rows (txn c)))) in *.
  set (row := {| req_id := id; req_timestamp := now; req_message_id := None;
                 req_hashes := hashes |}) in *.
  destruct (request_rows_put_requests (txn c) t (request_rows (txn c) ++ [row]) Ht)
    as (Hrows & Ht' & _).
  assert (Hfresh : forall r, In r (request_rows (txn c)) -> req_id r < id).
  { intros r Hr. apply next_rowid_above. apply in_map. exact Hr. }
  assert (Hlook : lookup_request id
                    (put_requests (request_rows (txn c) ++ [row]) (txn c))
                  = Some row).
  { unfold lookup_request. rewrite Hrows, filter_app.
    rewrite filter_request_none
      by (intros r Hr; specialize (Hfresh r Hr); lia).
    simpl. unfold row at 1. simpl. rewrite Z.eqb_refl. reflexivity. }
  set (f' := put_requests (request_rows (txn c) ++ [row]) (txn c)) in *.
  eexists. eexists. split; [exact Hadd |].
  unfold HashIDRequest.hashes, HashIDRequest._get_timestamp,
    HashIDRequest._get_message_id. cbn [HashIDRequest.id].
  rewrite !(request_getter _ id (committed f') _ Ht' Hfit).
  rewrite (get_hash_id_request_spec id (committed f') _ Ht' Hfit).
  cbn [txn committed]. rewrite Hlook. simpl.
  repeat split; auto.
  - rewrite Hrows. apply in_or_app. left. assumption.
  - rewrite Hrows, length_app. simpl. lia.
Qed.

Lemma add_hash_id_request_round_trip_witness :
  exists request c',
    PackageStore.add_hash_id_request ["h1"%string; "h2"%string] 10 one_request
    = (Ok request, c')
    /\ fst (HashIDRequest.hashes request c') = Ok ["h1"%string; "h2"%string]
    /\ HashIDRequest.id request = 2.
Proof.
  destruct (add_hash_id_request_round_trip ["h1"%string; "h2"%string] 10
              one_request)
    with (t := set_requests
                 [{| req_id := 1; req_timestamp := 10; req_message_id := None;
                     req_hashes := ["h1"%string] |}] empty_tables)
    as (request & c' & Hadd & Hhashes & _).
  - reflexivity.
  - reflexivity.
  - exists request, c'. split; [exact Hadd |]. split; [exact Hhashes |].
    vm_compute in Hadd. inversion Hadd. reflexivity.
Defined.

(** [get_hash_id_request] returns a handle of the id asked for when a
    request of that id is stored, and raises [UnknownHashIDRequest] with
    that id when none is. *)
Theorem get_hash_id_request_known_or_unknown (request_id : Z) (c : Connection)
    (t : PackageTables) :
  tables_of (txn c) = Some t ->
  fits_int64 request_id = true ->
  ((exists row, In row (request_rows (txn c)) /\ req_id row = request_id) ->
   fst (PackageStore.get_hash_id_request request_id c)
   = Ok (HashIDRequest.mk request_id))
  /\ ((forall row, In row (request_rows (txn c)) -> req_id row <> request_id) ->
      fst (PackageStore.get_hash_id_request request_id c)
      = Raise (UnknownHashIDRequest request_id)).
Proof.
  intros Ht Hfit. rewrite (get_hash_id_request_spec request_id c t Ht Hfit).
  unfold lookup_request. split.
  - intros (row & Hin & Hid).
    destruct (filter (fun r => req_id r =? request_id) (request_rows (txn c)))
      as [| r rest] eqn:E; [| reflexivity].
    assert (H : In row (filter (fun r => req_id r =? request_id)
                          (request_rows (txn c))))
      by (apply filter_In; split; [exact Hin | apply Z.eqb_eq; exact Hid]).
    rewrite E in H. destruct H.
  - intros Hnone. rewrite (filter_request_none _ _ Hnone). reflexivity.
Qed.

Lemma get_hash_id_request_known_or_unknown_witness :
  fst (PackageStore.get_hash_id_request 1 one_request) = Ok (HashIDRequest.mk 1)
  /\ fst (PackageStore.get_hash_id_request 2 one_request)
     = Raise (UnknownHashIDRequest 2).
Proof.
  split.
  - edestruct (get_hash_id_request_known_or_unknown 1 one_request) as [H _];
      [reflexivity | reflexivity |].
    apply H. eexists. split; [left; reflexivity | reflexivity].
  - edestruct (get_hash_id_request_known_or_unknown 2 one_request) as [_ H];
      [reflexivity | reflexivity |].
    apply H. intros row [<- | []]. discriminate.
Defined.

Lemma filter_updated_same (update : RequestRow -> RequestRow) (id : Z)
    (rows : list RequestRow) :
  (forall row, req_id (update row) = req_id row) ->
  filter (fun row => req_id row =? id)
         (map (fun row => if req_id row =? id then update row else row) rows)
  = map update (filter (fun row => req_id row =? id) rows).
Proof.
  intros Hid. induction rows as [| x l IH]; [reflexivity |].
  simpl. destruct (Z.eqb_spec (req_id x) id) as [Hx | Hx]; simpl.
  - rewrite Hid. destruct (Z.eqb_spec (req_id x) id); [| contradiction].
    simpl. rewrite IH. reflexivity.
  - destruct (Z.eqb_spec (req_id x) id); [contradiction | exact IH].
Qed.

Lemma filter_updated_other (update : RequestRow -> RequestRow) (id other : Z)
    (rows : list RequestRow) :
  (forall row, req_id (update row) = req_id row) ->
  other <> id ->
  filter (fun row => req_id row =? other)
         (map (fun row => if req_id row =? id then update row else row) rows)
  = filter (fun row => req_id row =? other) rows.
Proof.
  intros Hid Hne. induction rows as [| x l IH]; [reflexivity |].
  simpl. destruct (Z.eqb_spec (req_id x) id) as [Hx | Hx]; simpl.
  - rewrite Hid.
    destruct (Z.eqb_spec (req_id x) other); [congruence | exact IH].
  - destruct (Z.eqb_spec (req_id x) other); [rewrite IH |]; auto.
Qed.

Lemma UPDATE_hash_id_request_spec (set_column : Z -> RequestRow -> RequestRow)
    (value id : Z) (c : Connection) (t : PackageTables) :
  tables_of (txn c) = Some t ->
  fits_int64 value = true ->
  fits_int64 id = true ->
  with_cursor (UPDATE_hash_id_request set_column value id) c
  = (Ok tt,
     committed
       (put_requests
          (map (fun row => if req_id row =? id then set_column value row else row)
               (request_rows (txn c)))
          (txn c))).
Proof.
  intros Ht Hvalue Hfit. unfold with_cursor, UPDATE_hash_id_request.
  unfold bind at 1. rewrite (package_tables_inv _ t Ht).
  unfold bind at 1. rewrite (bind_int_ok _ _ Hvalue).
  unfold bind at 1. rewrite (bind_int_ok _ _ Hfit).
  rewrite (write_tables_put_requests _ t _ Ht).
  rewrite (tables_of_request_rows _ t Ht). reflexivity.
Qed.

(** A value that does not fit is refused when it is bound: the statement
    does not run, and the decorator rolls back. *)
Lemma UPDATE_hash_id_request_overflow
    (set_column : Z -> RequestRow -> RequestRow) (value id : Z) (c : Connection)
    (t : PackageTables) :
  tables_of (txn c) = Some t ->
  fits_int64 value = false ->
  with_cursor (UPDATE_hash_id_request set_column value id) c
  = (Raise OverflowError, rollback c).
Proof.
  intros Ht Hvalue. unfold with_cursor, UPDATE_hash_id_request.
  unfold bind at 1. rewrite (package_tables_inv _ t Ht).
  unfold bind at 1. unfold bind_int. rewrite Hvalue. reflexivity.
Qed.

(** Setting [message_id] or [timestamp] through a handle to an integer of
    64 bits: the value is read back through any handle of the same id, the
    other two fields of the request read as before, and every field of a
    request of another id reads as before.  An integer beyond 64 bits is
    refused with [OverflowError] by either setter, and nothing is stored. *)
Theorem request_setters_round_trip (request other : HashIDRequest.t) (value : Z)
    (c : Connection) (t : PackageTables) (row : RequestRow) :
  tables_of (txn c) = Some t ->
  fits_int64 value = true ->
  fits_int64 (HashIDRequest.id request) = true ->
  fits_int64 (HashIDRequest.id other) = true ->
  HashIDRequest.id other <> HashIDRequest.id request ->
  lookup_request (HashIDRequest.id request) (txn c) = Some row ->
  (exists c',
      HashIDRequest._set_message_id request value c = (Ok tt, c')
      /\ fst (HashIDRequest._get_message_id request c') = Ok (Some value)
      /\ fst (HashIDRequest._get_timestamp request c')
         = fst (HashIDRequest._get_timestamp request c)
      /\ fst (HashIDRequest.hashes request c')
         = fst (HashIDRequest.hashes request c)
      /\ fst (HashIDRequest._get_message_id other c')
         = fst (HashIDRequest._get_message_id other c)
      /\ fst (HashIDRequest._get_timestamp other c')
         = fst (HashIDRequest._get_timestamp other c)
      /\ fst (HashIDRequest.hashes other c')
         = fst (HashIDRequest.hashes other c))
  /\ (exists c',
         HashIDRequest._set_timestamp request value c = (Ok tt, c')
         /\ fst (HashIDRequest._get_timestamp request c') = Ok value
         /\ fst (HashIDRequest._get_message_id request c')
            = fst (HashIDRequest._get_message_id request c)
         /\ fst (HashIDRequest.hashes request c')
            = fst (HashIDRequest.hashes request c)
         /\ fst (HashIDRequest._get_message_id other c')
            = fst (HashIDRequest._get_message_id other c)
         /\ fst (HashIDRequest._get_timestamp other c')
            = fst (HashIDRequest._get_timestamp other c)
         /\ fst (HashIDRequest.hashes other c')
            = fst (HashIDRequest.hashes other c))
  /\ (forall big,
         fits_int64 big = false ->
         HashIDRequest._set_message_id request big c
         = (Raise OverflowError, rollback c)
         /\ HashIDRequest._set_timestamp request big c
            = (Raise OverflowError, rollback c)).
Proof.
  intros Ht Hvalue Hfit Hfit' Hne Hrow.
  assert (Hupdated :
            forall set_column,
              (forall v r, req_id (set_column v r) = req_id r) ->
              exists f',
                with_cursor
                  (UPDATE_hash_id_request set_column value
                     (HashIDRequest.id request)) c
                = (Ok tt, committed f')
                /\ (exists t', tables_of f' = Some t')
                /\ lookup_request (HashIDRequest.id request) f'
                   = Some (set_column value row)
                /\ lookup_request (HashIDRequest.id other) f'
                   = lookup_request (HashIDRequest.id other) (txn c)).
  { intros set_column Hid. eexists.
    split; [apply (UPDATE_hash_id_request_spec set_column _ _ c t Ht Hvalue Hfit) |].
    destruct (request_rows_put_requests (txn c) t
                (map (fun r => if req_id r =? HashIDRequest.id request
                               then set_column value r else r)
                     (request_rows (txn c))) Ht) as (Hrows & Ht' & _).
    split; [eauto |]. unfold lookup_request in *. rewrite Hrows.
    split.
    - rewrite (filter_updated_same (set_column value) _ _ (Hid value)),
        hd_error_map, Hrow.
      reflexivity.
    - rewrite (filter_updated_other (set_column value) _ _ _ (Hid value) Hne).
      reflexivity. }
  unfold HashIDRequest._set_message_id, HashIDRequest._set_timestamp,
    HashIDRequest.hashes, HashIDRequest._get_timestamp,
    HashIDRequest._get_message_id.
  rewrite !(request_getter _ _ c t Ht Hfit), !(request_getter _ _ c t Ht Hfit').
  rewrite Hrow.
  split; [| split];
    [| | intros big Hbig;
         split; apply (UPDATE_hash_id_request_overflow _ _ _ c t Ht Hbig)].
  - edestruct Hupdated as (f' & Hrun & (t' & Ht') & Hsame & Hother);
      [| exists (committed f'); split; [exact Hrun |]];
      [intros v r; reflexivity |].
    rewrite !(request_getter _ _ (committed f') t' Ht' Hfit),
            !(request_getter _ _ (committed f') t' Ht' Hfit').
    cbn [txn committed]. rewrite Hsame, Hother. repeat split.
  - edestruct Hupdated as (f' & Hrun & (t' & Ht') & Hsame & Hother);
      [| exists (committed f'); split; [exact Hrun |]];
      [intros v r; reflexivity |].
    rewrite !(request_getter _ _ (committed f') t' Ht' Hfit),
            !(request_getter _ _ (committed f') t' Ht' Hfit').
    cbn [txn committed]. rewrite Hsame, Hother. repeat split.
Qed.

Lemma request_setters_round_trip_witness :
  exists c',
    HashIDRequest._set_message_id (HashIDRequest.mk 1) 42 one_request = (Ok tt, c')
    /\ fst (HashIDRequest._get_message_id (HashIDRequest.mk 1) c') = Ok (Some 42)
    /\ fst (HashIDRequest.hashes (HashIDRequest.mk 1) c') = Ok ["h1"%string].
Proof.
  edestruct (request_setters_round_trip (HashIDRequest.mk 1) (HashIDRequest.mk 2)
               42 one_request)
    as ((c' & Hset & Hget & _ & Hhashes & _) & _).
  - reflexivity.
  - reflexivity.
  - reflexivity.
  - reflexivity.
  - discriminate.
  - reflexivity.
  - exists c'. split; [exact Hset |]. split; [exact Hget |].
    rewrite Hhashes. reflexivity.
Defined.

Lemma request_remove_spec (id : Z) (c : Connection) (t : PackageTables) :
  tables_of (txn c) = Some t ->
  fits_int64 id = true ->
  with_cursor (DELETE_FROM_hash_id_request_WHERE_id id) c
  = (Ok tt,
     committed
       (put_requests
          (filter (fun row => negb (req_id row =? id)) (request_rows (txn c)))
          (txn c))).
Proof.
  intros Ht Hfit. unfold with_cursor, DELETE_FROM_hash_id_request_WHERE_id.
  unfold bind at 1. rewrite (package_tables_inv _ t Ht).
  unfold bind at 1. rewrite (bind_int_ok _ _ Hfit).
  rewrite (write_tables_put_requests _ t _ Ht).
  rewrite (tables_of_request_rows _ t Ht). reflexivity.
Qed.

Lemma filter_removed_same (id : Z) (rows : list RequestRow) :
  filter (fun row => req_id row =? id)
         (filter (fun row => negb (req_id row =? id)) rows) = [].
Proof.
  apply filter_request_none. intros row Hrow. apply filter_In in Hrow.
  destruct Hrow as [_ H]. apply negb_true_iff, Z.eqb_neq in H. exact H.
Qed.

Lemma filter_removed_other (id other : Z) (rows : list RequestRow) :
  other <> id ->
  filter (fun row => req_id row =? other)
         (filter (fun row => negb (req_id row =? id)) rows)
  = filter (fun row => req_id row =? other) rows.
Proof.
  intros Hne. induction rows as [| x l IH]; [reflexivity |].
  simpl. destruct (Z.eqb_spec (req_id x) id) as [Hx | Hx]; simpl.
  - destruct (Z.eqb_spec (req_id x) other); [congruence | exact IH].
  - destruct (Z.eqb_spec (req_id x) other); [rewrite IH |]; auto.
Qed.

Lemma map_unchanged (update : RequestRow -> RequestRow) (id : Z)
    (rows : list RequestRow) :
  (forall row, In row rows -> req_id row <> id) ->
  map (fun row => if req_id row =? id then update row else row) rows = rows.
Proof.
  induction rows as [| x l IH]; intros H; [reflexivity |].
  simpl. destruct (Z.eqb_spec (req_id x) id) as [Hx | Hx].
  - exfalso. apply (H x); [left; reflexivity | exact Hx].
  - f_equal. apply IH. intros row Hrow. apply H. right. exact Hrow.
Qed.

(** [remove] on a request handle deletes the request and no other.  On the
    handle afterwards, reading [hashes], [timestamp] or [message_id] raises
    [TypeError], [get_hash_id_request] of its id raises
    [UnknownHashIDRequest], while setting [message_id] or [timestamp] to an
    integer of 64 bits returns without an error and changes nothing, as
    does removing again; an integer beyond 64 bits is still refused with
    [OverflowError]; a request of another id reads as before. *)
Theorem request_remove_then_access (request other : HashIDRequest.t) (value : Z)
    (c : Connection) (t : PackageTables) :
  tables_of (txn c) = Some t ->
  fits_int64 value = true ->
  fits_int64 (HashIDRequest.id request) = true ->
  fits_int64 (HashIDRequest.id other) = true ->
  HashIDRequest.id other <> HashIDRequest.id request ->
  exists c',
    HashIDRequest.remove request c = (Ok tt, c')
    /\ fst (HashIDRequest.hashes request c') = Raise TypeError
    /\ fst (HashIDRequest._get_timestamp request c') = Raise TypeError
    /\ fst (HashIDRequest._get_message_id request c') = Raise TypeError
    /\ fst (PackageStore.get_hash_id_request (HashIDRequest.id request) c')
       = Raise (UnknownHashIDRequest (HashIDRequest.id request))
    /\ HashIDRequest._set_message_id request value c' = (Ok tt, c')
    /\ HashIDRequest._set_timestamp request value c' = (Ok tt, c')
    /\ HashIDRequest.remove request c' = (Ok tt, c')
    /\ (forall big,
           fits_int64 big = false ->
           HashIDRequest._set_message_id request big c'
           = (Raise OverflowError, c')
           /\ HashIDRequest._set_timestamp request big c'
              = (Raise OverflowError, c'))
    /\ lookup_request (HashIDRequest.id other) (txn c')
       = lookup_request (HashIDRequest.id other) (txn c).
Proof.
  intros Ht Hvalue Hfit Hfit' Hne.
  set (id := HashIDRequest.id request) in *.
  set (rows' := filter (fun row => negb (req_id row =? id)) (request_rows (txn c))).
  set (f' := put_requests rows' (txn c)).
  destruct (request_rows_put_requests (txn c) t rows' Ht) as (Hrows & Ht' & _).
  fold f' in Hrows, Ht'.
  assert (Hgone : forall row, In row rows' -> req_id row <> id).
  { intros row Hrow. apply filter_In in Hrow. destruct Hrow as [_ H].
    apply negb_true_iff, Z.eqb_neq in H. exact H. }
  assert (Hsame : put_requests rows' f' = f').
  { unfold f'. destruct (txn c) as [| [h [t0 |]]]; reflexivity. }
  exists (committed f').
  split; [apply (request_remove_spec id c t Ht Hfit) |].
  unfold HashIDRequest.hashes, HashIDRequest._get_timestamp,
    HashIDRequest._get_message_id, HashIDRequest._set_message_id,
    HashIDRequest._set_timestamp, HashIDRequest.remove.
  fold id.
  rewrite !(request_getter _ id (committed f') _ Ht' Hfit).
  rewrite (get_hash_id_request_spec id (committed f') _ Ht' Hfit).
  rewrite !(UPDATE_hash_id_request_spec _ value id (committed f') _ Ht' Hvalue Hfit).
  rewrite (request_remove_spec id (committed f') _ Ht' Hfit).
  cbn [txn committed]. unfold lookup_request. rewrite Hrows.
  unfold rows' at 1 2 3 4. rewrite !filter_removed_same.
  rewrite !(map_unchanged _ id rows' Hgone).
  replace (filter (fun row => negb (req_id row =? id)) rows') with rows'.
  - rewrite Hsame. repeat split.
    + apply (UPDATE_hash_id_request_overflow _ _ _ (committed f') _ Ht' H).
    + apply (UPDATE_hash_id_request_overflow _ _ _ (committed f') _ Ht' H).
    + unfold rows'. rewrite (filter_removed_other _ _ _ Hne). reflexivity.
  - unfold rows'. clear. induction (request_rows (txn c)) as [| x l IH];
      [reflexivity |].
    simpl. destruct (negb (req_id x =? id)) eqn:E; [| exact IH].
    simpl. rewrite E. f_equal. exact IH.
Qed.

Lemma request_remove_then_access_witness :
  exists c',
    HashIDRequest.remove (HashIDRequest.mk 1) one_request = (Ok tt, c')
    /\ fst (HashIDRequest.hashes (HashIDRequest.mk 1) c') = Raise TypeError
    /\ HashIDRequest._set_message_id (HashIDRequest.mk 1) 42 c' = (Ok tt, c').
Proof.
  edestruct (request_remove_then_access (HashIDRequest.mk 1) (HashIDRequest.mk 2)
               42 one_request)
    as (c' & Hrm & Hh & _ & _ & _ & Hset & _).
  - reflexivity.
  - reflexivity.
  - reflexivity.
  - reflexivity.
  - discriminate.
  - exists c'. split; [exact Hrm |]. split; [exact Hh | exact Hset].
Defined.

Lemma no_Yield_after_the_end (request : HashIDRequest.t)
    (later : list Connection) :
  ~ In (PackageStore.Yield request)
       (map (fun _ => PackageStore.StopIteration) later).
Proof.
  induction later as [| db rest IH]; simpl; [tauto |].
  intros [H | H]; [discriminate | exact (IH H)].
Qed.

(** [clear_hash_id_requests] on a store whose tables exist returns and
    leaves no request: the table is empty, a generator of
    [iter_hash_id_requests] first iterated afterwards yields no handle,
    whether the bindings run its [SELECT] on the closed cursor or refuse
    it, and every [get_hash_id_request] raises [UnknownHashIDRequest]; the
    tasks are as before. *)
Theorem clear_hash_id_requests_leaves_none (c : Connection) (t : PackageTables) :
  tables_of (txn c) = Some t ->
  exists c',
    PackageStore.clear_hash_id_requests c = (Ok tt, c')
    /\ request_rows (txn c') = []
    /\ (forall later request,
           ~ In (PackageStore.Yield request)
                (PackageStore.nexts PackageStore.Created (c' :: later))
           /\ ~ In (PackageStore.Yield request)
                   (PackageStore.nexts_refused PackageStore.Created
                      (c' :: later)))
    /\ (forall request_id,
           fits_int64 request_id = true ->
           fst (PackageStore.get_hash_id_request request_id c')
           = Raise (UnknownHashIDRequest request_id))
    /\ task_rows (txn c') = task_rows (txn c).
Proof.
  intros Ht.
  destruct (request_rows_put_requests (txn c) t [] Ht) as (Hrows & Ht' & Htasks).
  exists (committed (put_requests [] (txn c))).
  split.
  { unfold PackageStore.clear_hash_id_requests, with_cursor,
      DELETE_FROM_hash_id_request, bind.
    rewrite (package_tables_inv _ t Ht), (write_tables_put_requests _ t _ Ht).
    reflexivity. }
  split; [exact Hrows |]. split; [| split; [| exact Htasks]].
  - intros later request. split.
    + cbn [PackageStore.nexts PackageStore.next txn committed].
      unfold SELECT_id_FROM_hash_id_request, bind.
      rewrite (package_tables_inv _ _ Ht'). cbn [set_requests tbl_hash_id_request
        map ret PackageStore.resume]. rewrite nexts_Finished.
      intros [H | H]; [discriminate | exact (no_Yield_after_the_end _ _ H)].
    + cbn [PackageStore.nexts_refused PackageStore.next_refused].
      rewrite nexts_refused_Finished.
      intros [H | H]; [discriminate | exact (no_Yield_after_the_end _ _ H)].
  - intros request_id Hfit.
    rewrite (get_hash_id_request_spec request_id
               (committed (put_requests [] (txn c))) _ Ht' Hfit).
    unfold lookup_request. cbn [txn committed]. rewrite Hrows. reflexivity.
Qed.

Lemma clear_hash_id_requests_leaves_none_witness :
  exists c',
    PackageStore.clear_hash_id_requests one_request = (Ok tt, c')
    /\ request_rows (txn c') = [].
Proof.
  edestruct (clear_hash_id_requests_leaves_none one_request)
    as (c' & Hrun & Hrows & _).
  - reflexivity.
  - exists c'. split; [exact Hrun | exact Hrows].
Defined.

(** ** Flags *)

Lemma get_flag_spec (name : string) (c : Connection) (t : PackageTables) :
  tables_of (txn c) = Some t ->
  fst (PackageStore.get_flag name c)
  = Ok (match hd_error (filter (fun row => String.eqb (fst row) name) (tbl_flag t))
        with
        | Some row => snd row
        | None => false
        end).
Proof.
  intros Ht. unfold PackageStore.get_flag, with_cursor, SELECT_value_FROM_flag.
  unfold bind at 1 2. rewrite (package_tables_inv _ t Ht). unfold ret at 1.
  unfold fetchone. rewrite hd_error_map.
  destruct (hd_error _); reflexivity.
Qed.

Lemma set_flag_spec (name : string) (value : bool) (c : Connection)
    (t : PackageTables) :
  tables_of (txn c) = Some t ->
  exists f',
    PackageStore.set_flag name value c = (Ok tt, committed f')
    /\ tables_of f'
       = Some (set_flags
                 (filter (fun row => negb (String.eqb (fst row) name)) (tbl_flag t)
                  ++ [(name, value)]) t).
Proof.
  intros Ht. unfold PackageStore.set_flag, with_cursor, REPLACE_INTO_flag, bind.
  rewrite (package_tables_inv _ t Ht).
  destruct (txn c) as [| [h [t0 |]]]; simpl in Ht; inversion Ht; subst.
  eexists. split; reflexivity.
Qed.

(** Flags: a flag that was never set reads False; [set_flag] then
    [get_flag] of the same name gives the value set, whatever the flag held
    before, and every other flag reads as before. *)
Theorem flags_default_and_round_trip (name : string) (value : bool)
    (c : Connection) (t : PackageTables) :
  tables_of (txn c) = Some t ->
  ((forall row, In row (tbl_flag t) -> fst row <> name) ->
   fst (PackageStore.get_flag name c) = Ok false)
  /\ exists c',
       PackageStore.set_flag name value c = (Ok tt, c')
       /\ fst (PackageStore.get_flag name c') = Ok value
       /\ forall other,
            other <> name ->
            fst (PackageStore.get_flag other c')
            = fst (PackageStore.get_flag other c).
Proof.
  intros Ht. split.
  - intros Hnone. rewrite (get_flag_spec name c t Ht).
    replace (filter (fun row => String.eqb (fst row) name) (tbl_flag t))
      with (@nil (string * bool)); [reflexivity |].
    symmetry. clear Ht. induction (tbl_flag t) as [| x l IH]; [reflexivity |].
    simpl. destruct (String.eqb_spec (fst x) name) as [Hx | Hx].
    + exfalso. apply (Hnone x); [left; reflexivity | exact Hx].
    + apply IH. intros row Hrow. apply Hnone. right. exact Hrow.
  - destruct (set_flag_spec name value c t Ht) as (f' & Hset & Ht').
    exists (committed f'). split; [exact Hset |].
    split.
    + rewrite (get_flag_spec name (committed f') _ Ht'). simpl.
      rewrite filter_app. simpl. rewrite String.eqb_refl.
      replace (filter (fun row => String.eqb (fst row) name)
                 (filter (fun row => negb (String.eqb (fst row) name)) (tbl_flag t)))
        with (@nil (string * bool)); [reflexivity |].
      symmetry. clear. induction (tbl_flag t) as [| x l IH]; [reflexivity |].
      simpl. destruct (String.eqb (fst x) name) eqn:E; simpl; [exact IH |].
      rewrite E. exact IH.
    + intros other Hne.
      rewrite (get_flag_spec other (committed f') _ Ht'),
              (get_flag_spec other c t Ht). simpl.
      rewrite filter_app. simpl.
      destruct (String.eqb_spec name other) as [Heq | _]; [congruence |].
      rewrite app_nil_r.
      replace (filter (fun row => String.eqb (fst row) other)
                 (filter (fun row => negb (String.eqb (fst row) name)) (tbl_flag t)))
        with (filter (fun row => String.eqb (fst row) other) (tbl_flag t));
        [reflexivity |].
      clear - Hne. induction (tbl_flag t) as [| x l IH]; [reflexivity |].
      simpl. destruct (String.eqb_spec (fst x) name) as [Hx | Hx]; simpl.
      * destruct (String.eqb_spec (fst x) other); [congruence | exact IH].
      * destruct (String.eqb_spec (fst x) other); [rewrite IH |]; auto.
Qed.

Lemma flags_default_and_round_trip_witness :
  fst (PackageStore.get_flag "reloaded" new_connection) = Ok false
  /\ exists c',
       PackageStore.set_flag "reloaded" true new_connection = (Ok tt, c')
       /\ fst (PackageStore.get_flag "reloaded" c') = Ok true.
Proof.
  destruct (flags_default_and_round_trip "reloaded" true new_connection
              empty_tables eq_refl)
    as (Hdefault & c' & Hset & Hget & _).
  split; [apply Hdefault; intros row [] |].
  exists c'. split; [exact Hset | exact Hget].
Defined.

(** ** Opening a store *)

(** [PackageStore(filename)] by what the file is.  On a file already
    holding the tables, as a store left it, the constructor changes nothing
    and the new store reads the committed data (the connection is the old
    one, no lookaside store attached); on a file that does not exist yet it
    creates every table, empty; on a file that is not a database it raises
    [DatabaseError], where [HashIdStore(filename)] returns a store. *)
Theorem PackageStore_init_by_file (fs : FileSystem) (filename : string) :
  (forall c rows t,
      clean c ->
      fs filename = disk c ->
      hash_rows (disk c) = Some rows ->
      tables_of (disk c) = Some t ->
      PackageStore.__init__ fs filename
      = Ok {| PackageStore._filename := filename; PackageStore._db := c;
              PackageStore._hash_id_stores := [] |})
  /\ (fs filename = Sqlite empty_database ->
      PackageStore.__init__ fs filename
      = Ok {| PackageStore._filename := filename;
              PackageStore._db := new_connection;
              PackageStore._hash_id_stores := [] |})
  /\ (fs filename = NotADatabase ->
      PackageStore.__init__ fs filename = Raise DatabaseError
      /\ HashIdStore.__init__ fs filename
         = {| HashIdStore._filename := filename;
              HashIdStore._db := committed NotADatabase |}).
Proof.
  unfold PackageStore.__init__, HashIdStore.__init__,
    HashIdStore.ensure_hash_id_schema, PackageStore.ensure_package_schema, connect.
  split; [| split].
  - intros [d f] rows t Hclean Hfs Hrows Ht.
    unfold clean in Hclean. simpl in *. subst f. rewrite Hfs.
    destruct d as [| [[| | rows'] [t' |]]]; simpl in *; try discriminate.
    reflexivity.
  - intros ->. reflexivity.
  - intros ->. split; reflexivity.
Qed.

Lemma PackageStore_init_by_file_witness :
  let store := after (PackageStore.add_available [1; 2; 3]) new_connection in
  let fs := PackageStore.written no_files "database" (disk store) in
  exists other_store,
    PackageStore.__init__ fs "database" = Ok other_store
    /\ fst (PackageStore.get_available (PackageStore._db other_store))
       = Ok [1; 2; 3].
Proof.
  intros store fs.
  destruct (PackageStore_init_by_file fs "database") as (Hreopen & _).
  eexists. split.
  - eapply (Hreopen store []); reflexivity.
  - reflexivity.
Defined.

(** ** HashIdStore.check_sanity *)

(** [check_sanity] raises [InvalidHashIdDb] with the store's file name
    exactly when the file has no usable table [hash] (it is not a database,
    or the table is missing or has other columns), returns otherwise, and in
    both cases leaves the store as it was. *)
Theorem check_sanity_by_table (self : HashIdStore.t) :
  clean (HashIdStore._db self) ->
  (hash_rows (txn (HashIdStore._db self)) <> None ->
   HashIdStore.check_sanity self = (Ok tt, self))
  /\ (hash_rows (txn (HashIdStore._db self)) = None ->
      HashIdStore.check_sanity self
      = (Raise (InvalidHashIdDb (HashIdStore._filename self)), self)).
Proof.
  destruct self as [name [d f]]. unfold clean. simpl. intros <-.
  unfold HashIdStore.check_sanity.
  destruct f as [| [[| | rows] p]]; simpl; split; intros H;
    try reflexivity; try discriminate; exfalso; apply H; reflexivity.
Qed.

Lemma check_sanity_by_table_witness :
  HashIdStore.check_sanity (hash_id_store "l1" [(7, "h"%string)])
  = (Ok tt, hash_id_store "l1" [(7, "h"%string)])
  /\ fst (HashIdStore.check_sanity
            {| HashIdStore._filename := "junk";
               HashIdStore._db := committed NotADatabase |})
     = Raise (InvalidHashIdDb "junk").
Proof.
  split.
  - apply check_sanity_by_table; [reflexivity | discriminate].
  - edestruct (check_sanity_by_table
                 {| HashIdStore._filename := "junk";
                    HashIdStore._db := committed NotADatabase |}) as [_ H];
      [reflexivity |].
    rewrite H; reflexivity.
Defined.

(** ** Lookups through the store write nothing *)

(** [PackageStore.get_hash_id] leaves the whole store as it was: the
    primary connection and file, and every attached lookaside store. *)
Theorem PackageStore_get_hash_id_changes_nothing (hash : string)
    (self : PackageStore.t) :
  clean (PackageStore._db self) ->
  Forall (fun store => clean (HashIdStore._db store))
         (PackageStore._hash_id_stores self) ->
  snd (PackageStore.get_hash_id hash self) = self.
Proof.
  intros Hdb Hstores.
  pose proof (lookaside_unchanged hash _ Hstores) as Hl.
  pose proof (get_hash_id_unchanged hash _ Hdb) as Hp.
  unfold PackageStore.get_hash_id. destruct self as [name db stores]. simpl in *.
  destruct (PackageStore.lookaside stores hash) as [[[id |] | e] stores'];
    simpl in Hl; subst stores'; try reflexivity.
  destruct (HashIdStore.get_hash_id hash db) as [r db']. simpl in Hp. subst db'.
  reflexivity.
Qed.

Lemma PackageStore_get_hash_id_changes_nothing_witness :
  let self :=
    {| PackageStore._filename := "database";
       PackageStore._db := primary_h7;
       PackageStore._hash_id_stores := [hash_id_store "l1" [(0, "h"%string)]] |} in
  snd (PackageStore.get_hash_id "h" self) = self.
Proof.
  intros self. apply PackageStore_get_hash_id_changes_nothing.
  - reflexivity.
  - repeat constructor.
Defined.

(** ** Attaching further lookaside stores *)

(** [add_hash_id_db] on a file holding table [hash] returns and appends
    the store at the end of the list, the primary connection and the stores
    attached before unchanged, so that [has_hash_id_db] is True afterwards.
    An id other than 0 that a store attached before gives for a hash is
    still the answer of [get_hash_id]; and when every store attached before
    passes over the hash, an id other than 0 in the new file is the answer,
    whatever the primary mapping holds. *)
Theorem add_hash_id_db_appends (filename : string) (fs : FileSystem)
    (self : PackageStore.t) (rows : list (Z * string)) (hash : string) :
  hash_rows (fs filename) = Some rows ->
  exists fs' self',
    PackageStore.add_hash_id_db filename fs self = (Ok tt, fs', self')
    /\ PackageStore._hash_id_stores self'
       = PackageStore._hash_id_stores self
         ++ [{| HashIdStore._filename := filename;
                HashIdStore._db := connect fs filename |}]
    /\ PackageStore._db self' = PackageStore._db self
    /\ PackageStore.has_hash_id_db self' = true
    /\ (forall before store others id,
           PackageStore._hash_id_stores self = before ++ store :: others ->
           Forall (passes_over hash) before ->
           fst (HashIdStore.get_hash_id hash (HashIdStore._db store))
           = Ok (Some id) ->
           id <> 0 ->
           fst (PackageStore.get_hash_id hash self') = Ok (Some id))
    /\ (forall id,
           Forall (passes_over hash) (PackageStore._hash_id_stores self) ->
           fst (HashIdStore.get_hash_id hash (connect fs filename))
           = Ok (Some id) ->
           id <> 0 ->
           fst (PackageStore.get_hash_id hash self') = Ok (Some id)).
Proof.
  intros Hrows.
  pose proof (add_hash_id_db_spec filename fs self) as S.
  destruct (fs filename) as [| [[| | rows'] tables]] eqn:F; try discriminate.
  eexists. eexists. split; [exact S |].
  split; [reflexivity |]. split; [reflexivity |].
  split.
  { unfold PackageStore.has_hash_id_db. simpl. rewrite length_app. simpl.
    apply Z.ltb_lt. lia. }
  split.
  - intros before store others id Hstores Hbefore Hstore Hid.
    eapply (get_hash_id_first_nonzero_wins hash id _ before store
              (others ++ [{| HashIdStore._filename := filename;
                             HashIdStore._db := connect fs filename |}]));
      eauto.
    simpl. rewrite Hstores, <- app_assoc. reflexivity.
  - intros id Hall Hnew Hid.
    eapply (get_hash_id_first_nonzero_wins hash id _
              (PackageStore._hash_id_stores self)
              {| HashIdStore._filename := filename;
                 HashIdStore._db := connect fs filename |} []); eauto.
Qed.

Lemma add_hash_id_db_appends_witness :
  let fs := PackageStore.written no_files "catalog" (hash_id_file [(123, "h"%string)]) in
  let self :=
    {| PackageStore._filename := "database";
       PackageStore._db := primary_h7;
       PackageStore._hash_id_stores := [hash_id_store "l1" [(0, "h"%string)]] |} in
  exists fs' self',
    PackageStore.add_hash_id_db "catalog" fs self = (Ok tt, fs', self')
    /\ fst (PackageStore.get_hash_id "h" self') = Ok (Some 123).
Proof.
  intros fs self.
  destruct (add_hash_id_db_appends "catalog" fs self [(123, "h"%string)]
              "h" eq_refl)
    as (fs' & self' & Hrun & _ & _ & _ & _ & Hnew).
  exists fs', self'. split; [exact Hrun |].
  apply Hnew.
  - constructor; [right; reflexivity | constructor].
  - reflexivity.
  - discriminate.
Defined.

(** ** Tasks and their handles *)

Lemma put_tasks_put_tasks (rows rows' : list TaskRow) (f : File) :
  put_tasks rows' (put_tasks rows f) = put_tasks rows' f.
Proof. destruct f as [| [h [t |]]]; reflexivity. Qed.

Lemma filter_twice {A : Type} (p : A -> bool) (l : list A) :
  filter p (filter p l) = filter p l.
Proof.
  induction l as [| x l IH]; [reflexivity |].
  simpl. destruct (p x) eqn:E; simpl; [rewrite E, IH |]; auto.
Qed.

(** [remove] on a task handle deletes the task of that id and no other
    task; removing again returns without an error and changes nothing. *)
Theorem task_remove_deletes_that_task (task : PackageTask.t) (c : Connection)
    (t : PackageTables) :
  tables_of (txn c) = Some t ->
  fits_int64 (PackageTask.id task) = true ->
  exists c',
    PackageTask.remove task c = (Ok tt, c')
    /\ (forall row,
           In row (task_rows (txn c'))
           <-> In row (task_rows (txn c)) /\ row_id row <> PackageTask.id task)
    /\ task_rows (txn c')
       = filter (fun row => negb (row_id row =? PackageTask.id task))
                (task_rows (txn c))
    /\ PackageTask.remove task c' = (Ok tt, c').
Proof.
  intros Ht Hfit.
  set (rows' := filter (fun row => negb (row_id row =? PackageTask.id task))
                       (task_rows (txn c))).
  destruct (task_rows_put_tasks (txn c) t rows' Ht) as [Hrows Ht'].
  exists (committed (put_tasks rows' (txn c))).
  split; [apply (remove_spec task c t Ht Hfit) |].
  cbn [txn committed]. rewrite Hrows. split; [| split; [reflexivity |]].
  - intros row. unfold rows'. rewrite filter_In, negb_true_iff, Z.eqb_neq.
    reflexivity.
  - rewrite (remove_spec task (committed (put_tasks rows' (txn c))) _ Ht' Hfit).
    cbn [txn committed]. rewrite Hrows, put_tasks_put_tasks.
    unfold rows'. rewrite filter_twice. reflexivity.
Qed.

Lemma task_remove_deletes_that_task_witness :
  exists c',
    PackageTask.remove task_a two_queues = (Ok tt, c')
    /\ map row_id (task_rows (txn c')) = [2]
    /\ PackageTask.remove task_a c' = (Ok tt, c').
Proof.
  edestruct (task_remove_deletes_that_task task_a two_queues)
    as (c' & Hrm & _ & Hrows & Hagain).
  - reflexivity.
  - reflexivity.
  - exists c'. split; [exact Hrm |]. split; [| exact Hagain].
    rewrite Hrows. reflexivity.
Defined.

Lemma positive_ascending_filter (p : TaskRow -> bool) (rows : list TaskRow) :
  positive_ascending rows -> positive_ascending (filter p rows).
Proof.
  intros [Hsorted Hpos]. split.
  - apply StronglySorted_filter_rows. exact Hsorted.
  - rewrite Forall_forall in *. intros y Hy. apply filter_In in Hy.
    apply Hpos. tauto.
Qed.

Lemma positive_ascending_app (rows : list TaskRow) (row : TaskRow) :
  positive_ascending rows ->
  (forall r, In r rows -> row_id r < row_id row) ->
  0 < row_id row ->
  positive_ascending (rows ++ [row]).
Proof.
  intros [Hsorted Hpos] Hfresh Hrow. split.
  - clear Hpos. induction Hsorted as [| x l Hl IH Hx]; simpl.
    + constructor; constructor.
    + constructor.
      * apply IH. intros r Hr. apply Hfresh. right. exact Hr.
      * apply Forall_app. split; [exact Hx |].
        constructor; [apply Hfresh; left; reflexivity | constructor].
  - apply Forall_app. split; [exact Hpos |]. constructor; [exact Hrow | constructor].
Qed.

Lemma next_rowid_positive (rows : list TaskRow) :
  positive_ascending rows -> 0 < next_rowid (map row_id rows).
Proof.
  intros [_ Hpos]. destruct rows as [| r rest]; cbn [next_rowid map]; [lia |].
  inversion Hpos as [| ? ? Hr _]; subst.
  destruct (fold_max_bounds (row_id r) (map row_id rest)) as [_ Hle].
  specialize (Hle (row_id r) (or_introl eq_refl)). lia.
Qed.

(** What [add_task] leaves in table [task]: the rows as they were, when it
    raises, or the rows followed by the new one. *)
Lemma add_task_effect (queue : string) (data : Data) (now : Z) (c : Connection) :
  clean c ->
  task_rows (txn (snd (PackageStore.add_task queue data now c)))
  = task_rows (txn c)
  \/ task_rows (txn (snd (PackageStore.add_task queue data now c)))
     = task_rows (txn c)
       ++ [{| row_id := next_rowid (map row_id (task_rows (txn c)));
              row_queue := queue; row_timestamp := now; row_data := data |}].
Proof.
  intros Hclean. unfold PackageStore.add_task.
  match goal with
  | |- context [with_cursor ?m c] =>
      destruct (with_cursor_inv m c) as [(r & f & Hrun & ->) | (e & f & _ & ->)]
  end; simpl.
  - right. unfold bind at 1 in Hrun.
    destruct (INSERT_INTO_task queue now data (txn c)) as [[id | e] f1] eqn:I;
      [| discriminate].
    pose proof (reads_PackageTask_init id f1) as Hreads.
    rewrite Hrun in Hreads. simpl in Hreads. subst f1.
    unfold INSERT_INTO_task, bind, package_tables, the_database, write_tables,
      write_database, ret, raise in I.
    destruct (txn c) as [| [h [t |]]]; simpl in I; try discriminate.
    inversion I; subst. reflexivity.
  - left. rewrite Hclean. reflexivity.
Qed.

(** What [clear_tasks] and [PackageTask.remove] leave in table [task]: some
    of the rows, in their order. *)
Lemma task_delete_effect {A : Type} (method : M A) (c : Connection)
    (p : TaskRow -> bool) :
  clean c ->
  (forall f r f', method f = (Ok r, f') -> task_rows f' = filter p (task_rows f)) ->
  task_rows (txn (snd (outcome (with_cursor method c)))) = task_rows (txn c)
  \/ task_rows (txn (snd (outcome (with_cursor method c))))
     = filter p (task_rows (txn c)).
Proof.
  intros Hclean Hm.
  destruct (with_cursor_inv method c) as [(r & f & Hrun & ->) | (e & f & _ & ->)];
    simpl.
  - right. eapply Hm; eauto.
  - left. rewrite Hclean. reflexivity.
Qed.

Lemma perform_positive_ascending (m : Mutation) (c : Connection) :
  clean c ->
  positive_ascending (task_rows (txn c)) ->
  positive_ascending (task_rows (txn (snd (perform m c)))).
Proof.
  intros Hclean Hpa.
  destruct m
    as [hash_ids | | ids | ids | | ids | ids | | ids | ids | | hashes now |
        | queue data now | except_tasks | name value | request value
        | request value | request | task];
    try (match goal with
         | |- context [perform ?m c] =>
             destruct (perform_other_tables m c Hclean) as (_ & _ & H & _);
             rewrite H by (simpl; discriminate); exact Hpa
         end).
  - simpl.
    assert (E : snd (outcome (PackageStore.add_task queue data now c))
                = snd (PackageStore.add_task queue data now c))
      by (destruct (PackageStore.add_task queue data now c) as [[r | e] c'];
          reflexivity).
    rewrite E.
    destruct (add_task_effect queue data now c Hclean) as [-> | ->];
      [exact Hpa |].
    apply positive_ascending_app; [exact Hpa | |].
    + intros r Hr. simpl. apply next_rowid_above, in_map, Hr.
    + simpl. apply next_rowid_positive, Hpa.
  - simpl.
    destruct (task_delete_effect
                (DELETE_FROM_task_WHERE_id_NOT_IN (map PackageTask.id except_tasks))
                c (fun row => mem (row_id row) (map PackageTask.id except_tasks))
                Hclean) as [H | H].
    + intros f r f'. unfold DELETE_FROM_task_WHERE_id_NOT_IN, bind, package_tables,
        the_database, write_tables, write_database, ret, raise.
      destruct f as [| [h [t |]]]; simpl; intros I; inversion I; reflexivity.
    + unfold PackageStore.clear_tasks. rewrite H. exact Hpa.
    + unfold PackageStore.clear_tasks. rewrite H.
      apply positive_ascending_filter, Hpa.
  - simpl.
    destruct (task_delete_effect
                (DELETE_FROM_task_WHERE_id (PackageTask.id task))
                c (fun row => negb (row_id row =? PackageTask.id task))
                Hclean) as [H | H].
    + intros f r f'. unfold DELETE_FROM_task_WHERE_id, bind, package_tables,
        the_database, bind_int, write_tables, write_database, ret, raise.
      destruct f as [| [h [t |]]]; simpl;
        destruct (fits_int64 (PackageTask.id task)); simpl;
        intros I; inversion I; reflexivity.
    + unfold PackageTask.remove. rewrite H. exact Hpa.
    + unfold PackageTask.remove. rewrite H.
      apply positive_ascending_filter, Hpa.
Qed.

(** Task ids identify tasks: whatever mutating operations are called, in
    whatever order and whether they return or raise, the rowids of table
    [task] stay positive, pairwise distinct and in scan order, as they are
    in a new store; in particular each [add_task] that returns gives its
    task an id no stored task has. *)
Theorem task_ids_stay_distinct (later : list Mutation) (c : Connection) :
  clean c ->
  positive_ascending (task_rows (txn c)) ->
  positive_ascending (task_rows (txn (perform_all later c)))
  /\ NoDup (map row_id (task_rows (txn (perform_all later c)))).
Proof.
  intros Hclean Hpa.
  assert (H : positive_ascending (task_rows (txn (perform_all later c)))).
  { revert c Hclean Hpa.
    induction later as [| m rest IH]; intros c Hclean Hpa; [exact Hpa |].
    unfold perform_all. simpl. apply IH; [apply perform_clean |].
    apply perform_positive_ascending; assumption. }
  split; [exact H |].
  destruct H as [Hsorted _].
  induction Hsorted as [| x l Hl IH Hx]; simpl; constructor; [| exact IH].
  intros Hin. apply in_map_iff in Hin. destruct Hin as (y & Hy & Hin).
  rewrite Forall_forall in Hx. specialize (Hx y Hin). lia.
Qed.

Lemma task_ids_stay_distinct_witness :
  NoDup (map row_id
           (task_rows
              (txn (perform_all
                      [Add_task "a" 0 10; Add_task "b" 1 9; Task_remove task_b;
                       Add_task "a" 2 8; Clear_tasks [task_a]; Add_task "c" 3 7]
                      new_connection)))).
Proof.
  apply (task_ids_stay_distinct _ new_connection).
  - reflexivity.
  - split; constructor.
Defined.

(** ** A new task and the order of the queue *)

Lemma hd_insert_by_timestamp (x : TaskRow) (sorted : list TaskRow) :
  hd_error (insert_by_timestamp x sorted)
  = Some match hd_error sorted with
         | None => x
         | Some y => if row_timestamp x <=? row_timestamp y then x else y
         end.
Proof.
  destruct sorted as [| y l]; simpl; [reflexivity |].
  destruct (row_timestamp x <=? row_timestamp y); reflexivity.
Qed.

(** The first row of the order once a row is appended to the scan: the
    former first row unless the new row has a smaller timestamp. *)
Lemma hd_ORDER_BY_timestamp_app (rows : list TaskRow) (r : TaskRow) :
  hd_error (ORDER_BY_timestamp (rows ++ [r]))
  = Some match hd_error (ORDER_BY_timestamp rows) with
         | None => r
         | Some h => if row_timestamp h <=? row_timestamp r then h else r
         end.
Proof.
  induction rows as [| x l IH]; [reflexivity |].
  change (ORDER_BY_timestamp ((x :: l) ++ [r]))
    with (insert_by_timestamp x (ORDER_BY_timestamp (l ++ [r]))).
  change (ORDER_BY_timestamp (x :: l))
    with (insert_by_timestamp x (ORDER_BY_timestamp l)).
  rewrite !hd_insert_by_timestamp, IH. f_equal.
  destruct (hd_error (ORDER_BY_timestamp l)) as [h' |].
  - destruct (Z.leb_spec (row_timestamp h') (row_timestamp r));
      destruct (Z.leb_spec (row_timestamp x) (row_timestamp h'));
      destruct (Z.leb_spec (row_timestamp x) (row_timestamp r));
      try reflexivity; try lia;
      destruct (Z.leb_spec (row_timestamp h') (row_timestamp r));
      try reflexivity; lia.
  - destruct (Z.leb_spec (row_timestamp x) (row_timestamp r)); reflexivity.
Qed.

(** [add_task] and the order of the queues.  The handle returned carries
    the queue, timestamp and data given and an id above every stored one.
    The next task of every other queue is unchanged.  In its own queue the
    new task becomes the next one when the queue was empty; otherwise the
    next task stays the same when its timestamp is not above the new one,
    and the new task gets ahead of it when the clock reading given is
    smaller than the timestamp of the task that was next. *)
Theorem add_task_and_the_next_task (queue : string) (data : Data) (now : Z)
    (c : Connection) (t : PackageTables) (bound : Z) :
  tables_of (txn c) = Some t ->
  rowid_order bound (task_rows (txn c)) ->
  0 < bound < 2 ^ 63 ->
  exists task c',
    PackageStore.add_task queue data now c = (Ok task, c')
    /\ PackageTask.queue task = queue
    /\ PackageTask.timestamp task = now
    /\ PackageTask.data task = data
    /\ (forall row, In row (task_rows (txn c)) -> row_id row < PackageTask.id task)
    /\ (forall other,
           other <> queue ->
           fst (PackageStore.get_next_task other c')
           = fst (PackageStore.get_next_task other c))
    /\ (fst (PackageStore.get_next_task queue c) = Ok None ->
        fst (PackageStore.get_next_task queue c') = Ok (Some task))
    /\ (forall first,
           fst (PackageStore.get_next_task queue c) = Ok (Some first) ->
           PackageTask.timestamp first <= now ->
           fst (PackageStore.get_next_task queue c') = Ok (Some first))
    /\ (forall first,
           fst (PackageStore.get_next_task queue c) = Ok (Some first) ->
           now < PackageTask.timestamp first ->
           fst (PackageStore.get_next_task queue c') = Ok (Some task)).
Proof.
  intros Ht Hwf Hb.
  destruct (add_task_spec queue data now c t bound Ht Hwf Hb)
    as (Hadd & Hwf' & Hfresh).
  set (row := {| row_id := next_rowid (map row_id (task_rows (txn c)));
                 row_queue := queue; row_timestamp := now; row_data := data |})
    in *.
  set (f' := put_tasks (task_rows (txn c) ++ [row]) (txn c)) in *.
  destruct (task_rows_put_tasks (txn c) t (task_rows (txn c) ++ [row]) Ht)
    as [Hrows Ht'].
  fold f' in Hrows, Ht'.
  assert (Hnext' : forall q,
             fst (PackageStore.get_next_task q (committed f'))
             = Ok (option_map handle_of
                     (hd_error (ORDER_BY_timestamp
                                  (filter (in_queue q) (task_rows (txn c) ++ [row])))))).
  { intros q.
    rewrite (get_next_task_spec q (committed f') _ (bound + 1) Ht');
      [| cbn [txn committed]; rewrite Hrows; exact Hwf' | lia].
    cbn [txn committed fst]. rewrite Hrows. reflexivity. }
  assert (Hnext : forall q,
             fst (PackageStore.get_next_task q c)
             = Ok (option_map handle_of
                     (hd_error (ORDER_BY_timestamp
                                  (filter (in_queue q) (task_rows (txn c))))))).
  { intros q. rewrite (get_next_task_spec q c t bound Ht Hwf); [reflexivity | lia]. }
  assert (Hown : filter (in_queue queue) (task_rows (txn c) ++ [row])
                 = filter (in_queue queue) (task_rows (txn c)) ++ [row]).
  { rewrite filter_app. simpl. unfold in_queue at 2. simpl.
    rewrite String.eqb_refl. reflexivity. }
  exists (handle_of row), (committed f').
  split; [exact Hadd |].
  split; [reflexivity |]. split; [reflexivity |]. split; [reflexivity |].
  split; [exact Hfresh |].
  split; [| split; [| split]].
  - intros other Hne. rewrite Hnext', Hnext, filter_app. simpl.
    unfold in_queue at 2. simpl.
    destruct (String.eqb_spec queue other) as [Heq | _]; [congruence |].
    rewrite app_nil_r. reflexivity.
  - rewrite Hnext', Hnext, Hown, hd_ORDER_BY_timestamp_app.
    destruct (hd_error (ORDER_BY_timestamp
                          (filter (in_queue queue) (task_rows (txn c)))));
      [discriminate | reflexivity].
  - intros first. rewrite Hnext', Hnext, Hown, hd_ORDER_BY_timestamp_app.
    destruct (hd_error (ORDER_BY_timestamp
                          (filter (in_queue queue) (task_rows (txn c)))))
      as [h |]; [| discriminate].
    simpl. intros H Hle. injection H as <-. simpl in Hle.
    destruct (Z.leb_spec (row_timestamp h) now) as [_ | Hgt];
      [reflexivity | lia].
  - intros first. rewrite Hnext', Hnext, Hown, hd_ORDER_BY_timestamp_app.
    destruct (hd_error (ORDER_BY_timestamp
                          (filter (in_queue queue) (task_rows (txn c)))))
      as [h |]; [| discriminate].
    simpl. intros H Hlt. injection H as <-. simpl in Hlt.
    destruct (Z.leb_spec (row_timestamp h) now) as [Hle | _];
      [lia | reflexivity].
Qed.

Lemma add_task_and_the_next_task_witness :
  exists task c',
    PackageStore.add_task "default" 3 5 three_tasks = (Ok task, c')
    /\ PackageTask.id task = 4
    /\ fst (PackageStore.get_next_task "default" c') = Ok (Some task).
Proof.
  edestruct (add_task_and_the_next_task "default" 3 5 three_tasks)
    as (task & c' & Hadd & _ & _ & _ & _ & _ & _ & _ & Hback).
  - reflexivity.
  - instantiate (1 := 4). split; repeat constructor.
  - split; [reflexivity | reflexivity].
  - exists task, c'. split; [exact Hadd |].
    pose proof Hadd as Hid. vm_compute in Hid. injection Hid as Htask _.
    split; [rewrite <- Htask; reflexivity |].
    apply (Hback {| PackageTask.id := 2; PackageTask.queue := "default";
                    PackageTask.timestamp := 10; PackageTask.data := 1 |}).
    + reflexivity.
    + reflexivity.
Defined.

(** ** The two lookups are inverse to each other *)

Lemma filter_unique_id (rows : list (Z * string)) (id : Z) (hash : string) :
  NoDup (map fst rows) ->
  In (id, hash) rows ->
  filter (fun row => fst row =? id) rows = [(id, hash)].
Proof.
  induction rows as [| x l IH]; intros Hnd Hin; [destruct Hin |].
  simpl in Hnd. inversion Hnd as [| ? ? Hx Hl]; subst.
  simpl. destruct Hin as [-> | Hin].
  - simpl. rewrite Z.eqb_refl. f_equal.
    clear IH Hl Hnd. induction l as [| y l IHl]; [reflexivity |].
    simpl. destruct (Z.eqb_spec (fst y) id) as [Hy | Hy].
    + exfalso. apply Hx. left. exact Hy.
    + apply IHl. intros H. apply Hx. right. exact H.
  - destruct (Z.eqb_spec (fst x) id) as [Hy | Hy].
    + exfalso. apply Hx. rewrite Hy. apply (in_map fst) in Hin. exact Hin.
    + auto.
Qed.

Lemma get_hash_id_In (c : Connection) (rows : list (Z * string)) (hash : string)
    (id : Z) :
  hash_rows (txn c) = Some rows ->
  NoDup (map snd rows) ->
  (fst (HashIdStore.get_hash_id hash c) = Ok (Some id) <-> In (id, hash) rows).
Proof.
  intros Hrows Hnd. rewrite (get_hash_id_rows hash c rows Hrows), hd_error_map.
  split.
  - intros H. injection H as H.
    destruct (hd_error _) as [[i h] |] eqn:E; [| discriminate].
    simpl in H. injection H as ->.
    apply hd_error_In, filter_In in E. destruct E as [Hin Hh].
    simpl in Hh. apply String.eqb_eq in Hh. subst. exact Hin.
  - intros Hin. rewrite (filter_unique_hash rows id hash Hnd Hin). reflexivity.
Qed.

Lemma get_id_hash_In (c : Connection) (rows : list (Z * string)) (hash : string)
    (id : Z) :
  hash_rows (txn c) = Some rows ->
  NoDup (map fst rows) ->
  fits_int64 id = true ->
  (fst (HashIdStore.get_id_hash id c) = Ok (Some hash) <-> In (id, hash) rows).
Proof.
  intros Hrows Hnd Hfit.
  rewrite (get_id_hash_rows id c rows Hrows Hfit), hd_error_map.
  split.
  - intros H. injection H as H.
    destruct (hd_error _) as [[i h] |] eqn:E; [| discriminate].
    simpl in H. injection H as ->.
    apply hd_error_In, filter_In in E. destruct E as [Hin Hi].
    simpl in Hi. apply Z.eqb_eq in Hi. subst. exact Hin.
  - intros Hin. rewrite (filter_unique_id rows id hash Hnd Hin). reflexivity.
Qed.

(** On a one-to-one table [get_hash_id] and [get_id_hash] are inverse to
    each other: [get_hash_id hash] returns [id] exactly when
    [get_id_hash id] returns [hash]. *)
Theorem lookups_are_inverse (c : Connection) (rows : list (Z * string))
    (hash : string) (id : Z) :
  hash_rows (txn c) = Some rows ->
  one_to_one rows ->
  fits_int64 id = true ->
  (fst (HashIdStore.get_hash_id hash c) = Ok (Some id)
   <-> fst (HashIdStore.get_id_hash id c) = Ok (Some hash)).
Proof.
  intros Hrows [Hids Hhashes] Hfit.
  rewrite (get_hash_id_In c rows hash id Hrows Hhashes).
  rewrite (get_id_hash_In c rows hash id Hrows Hids Hfit).
  reflexivity.
Qed.

Lemma lookups_are_inverse_witness :
  fst (HashIdStore.get_hash_id "h" primary_h7) = Ok (Some 7)
  <-> fst (HashIdStore.get_id_hash 7 primary_h7) = Ok (Some "h"%string).
Proof.
  apply (lookups_are_inverse primary_h7 [(7, "h"%string)]).
  - reflexivity.
  - split; repeat constructor; intros [].
  - reflexivity.
Defined.

(** ** Creating the schema again *)

(** [ensure_hash_id_schema] is idempotent and never touches rows: on a
    connection with no open transaction it leaves a file that holds a table
    [hash], or is not a database, exactly as it is; it creates the table,
    empty, when it is missing; and running it a second time changes
    nothing.  The package tables are never affected. *)
Theorem ensure_hash_id_schema_idempotent (db : Connection) :
  clean db ->
  HashIdStore.ensure_hash_id_schema (HashIdStore.ensure_hash_id_schema db)
  = HashIdStore.ensure_hash_id_schema db
  /\ clean (HashIdStore.ensure_hash_id_schema db)
  /\ tables_of (txn (HashIdStore.ensure_hash_id_schema db)) = tables_of (txn db)
  /\ (forall rows,
         hash_rows (txn db) = Some rows ->
         HashIdStore.ensure_hash_id_schema db = db)
  /\ (txn db = NotADatabase -> HashIdStore.ensure_hash_id_schema db = db)
  /\ (forall d,
         txn db = Sqlite d -> tbl_hash d = NoTable ->
         hash_rows (txn (HashIdStore.ensure_hash_id_schema db)) = Some []).
Proof.
  destruct db as [d f]. unfold clean. simpl. intros <-.
  unfold HashIdStore.ensure_hash_id_schema.
  destruct f as [| [[| | rows] p]]; simpl; repeat split;
    try reflexivity; try discriminate;
    intros; try discriminate; try reflexivity.
  - match goal with H : Sqlite _ = Sqlite _ |- _ => inversion H; subst end.
    simpl in *. discriminate.
  - match goal with H : Sqlite _ = Sqlite _ |- _ => inversion H; subst end.
    simpl in *. discriminate.
Qed.

Lemma ensure_hash_id_schema_idempotent_witness :
  HashIdStore.ensure_hash_id_schema primary_h7 = primary_h7.
Proof.
  destruct (ensure_hash_id_schema_idempotent primary_h7 eq_refl)
    as (_ & _ & _ & H & _).
  apply (H [(7, "h"%string)]). reflexivity.
Defined.

(** ** The id tables stay in ascending order *)

Lemma StronglySorted_filter_lt (p : Z -> bool) (ids : list Z) :
  StronglySorted Z.lt ids -> StronglySorted Z.lt (filter p ids).
Proof.
  induction 1 as [| x l Hl IH Hx]; simpl; [constructor |].
  destruct (p x); [| exact IH].
  constructor; [exact IH |].
  rewrite Forall_forall in *. intros y Hy. apply filter_In in Hy. apply Hx. tauto.
Qed.

Lemma REPLACE_INTO_ids_sorted (name : IdTable) (id : Z) (f : File)
    (r : result unit) (f' : File) :
  REPLACE_INTO_ids name id f = (r, f') ->
  StronglySorted Z.lt (id_rows name f) ->
  StronglySorted Z.lt (id_rows name f').
Proof.
  unfold REPLACE_INTO_ids, bind, package_tables, the_database, bind_int,
    write_tables, write_database, ret, raise, id_rows.
  destruct f as [| [h [t |]]]; simpl;
    try (intros H; inversion H; subst; simpl; auto; fail).
  destruct (fits_int64 id); simpl; intros H; inversion H; subst; simpl; auto.
  intros Hs. destruct name; simpl in *; apply insert_id_sorted; exact Hs.
Qed.

Lemma for_each_REPLACE_INTO_ids_sorted (name : IdTable) (ids : list Z) :
  forall (f : File) (r : result unit) (f' : File),
    for_each ids (REPLACE_INTO_ids name) f = (r, f') ->
    StronglySorted Z.lt (id_rows name f) ->
    StronglySorted Z.lt (id_rows name f').
Proof.
  induction ids as [| id rest IH]; intros f r f' Hrun Hs.
  - inversion Hrun; subst. exact Hs.
  - simpl in Hrun. unfold bind in Hrun.
    destruct (REPLACE_INTO_ids name id f) as [[[] | e] f1] eqn:E.
    + eapply IH; eauto. eapply REPLACE_INTO_ids_sorted; eauto.
    + inversion Hrun; subst. eapply REPLACE_INTO_ids_sorted; eauto.
Qed.

Lemma sorted_with_cursor {A : Type} (name : IdTable) (method : M A)
    (c : Connection) :
  clean c ->
  (forall f r f',
      method f = (r, f') ->
      StronglySorted Z.lt (id_rows name f) ->
      StronglySorted Z.lt (id_rows name f')) ->
  StronglySorted Z.lt (id_rows name (txn c)) ->
  StronglySorted Z.lt (id_rows name (txn (snd (outcome (with_cursor method c))))).
Proof.
  intros Hclean Hm Hs.
  destruct (with_cursor_inv method c) as [(r & f & Hrun & ->) | (e & f & _ & ->)];
    simpl.
  - eapply Hm; eauto.
  - rewrite <- Hclean. exact Hs.
Qed.

Lemma DELETE_FROM_ids_WHERE_id_IN_sorted (name : IdTable) (ids : list Z)
    (f : File) (r : result unit) (f' : File) :
  DELETE_FROM_ids_WHERE_id_IN name ids f = (r, f') ->
  StronglySorted Z.lt (id_rows name f) ->
  StronglySorted Z.lt (id_rows name f').
Proof.
  unfold DELETE_FROM_ids_WHERE_id_IN, bind, package_tables, the_database,
    write_tables, write_database, ret, raise, id_rows.
  destruct f as [| [h [t |]]]; simpl; intros H; inversion H; subst; simpl; auto.
  intros Hs. destruct name; simpl in *; apply StronglySorted_filter_lt; exact Hs.
Qed.

Lemma DELETE_FROM_ids_sorted (name : IdTable) (f : File) (r : result unit)
    (f' : File) :
  DELETE_FROM_ids name f = (r, f') ->
  StronglySorted Z.lt (id_rows name f) ->
  StronglySorted Z.lt (id_rows name f').
Proof.
  unfold DELETE_FROM_ids, bind, package_tables, the_database,
    write_tables, write_database, ret, raise, id_rows.
  destruct f as [| [h [t |]]]; simpl; intros H; inversion H; subst; simpl; auto.
  intros _. destruct name; simpl; constructor.
Qed.

Lemma perform_ids_sorted (name : IdTable) (m : Mutation) (c : Connection) :
  clean c ->
  StronglySorted Z.lt (id_rows name (txn c)) ->
  StronglySorted Z.lt (id_rows name (txn (snd (perform m c)))).
Proof.
  intros Hclean Hs.
  destruct (perform_other_tables m c Hclean) as (_ & _ & _ & _ & _ & Hother).
  destruct name, m;
    try (rewrite Hother by (simpl; discriminate); exact Hs);
    simpl; apply sorted_with_cursor; try assumption; intros f r f';
    first [ apply for_each_REPLACE_INTO_ids_sorted
          | apply DELETE_FROM_ids_WHERE_id_IN_sorted
          | apply DELETE_FROM_ids_sorted ].
Qed.

(** The three id tables stay in ascending order without repetition:
    whatever mutating operations are called, in whatever order and whether
    they return or raise, [get_available], [get_available_upgrades] and
    [get_installed] on a store reached from a new one return ascending
    lists. *)
Theorem id_tables_stay_sorted (name : IdTable) (later : list Mutation)
    (c : Connection) :
  clean c ->
  StronglySorted Z.lt (id_rows name (txn c)) ->
  StronglySorted Z.lt (id_rows name (txn (perform_all later c)))
  /\ forall stored_ids,
       fst (get_ids name (perform_all later c)) = Ok stored_ids ->
       StronglySorted Z.lt stored_ids.
Proof.
  intros Hclean Hs.
  assert (H : StronglySorted Z.lt (id_rows name (txn (perform_all later c)))).
  { revert c Hclean Hs.
    induction later as [| m rest IH]; intros c Hclean Hs; [exact Hs |].
    unfold perform_all. simpl. apply IH; [apply perform_clean |].
    apply perform_ids_sorted; assumption. }
  split; [exact H |].
  intros stored_ids Hget. unfold id_rows in H.
  destruct (tables_of (txn (perform_all later c))) as [t |] eqn:Ht.
  - rewrite (get_ids_spec name _ t Ht) in Hget. injection Hget as <-. exact H.
  - exfalso. clear H.
    assert (E : get_ids name (perform_all later c)
                = with_cursor (SELECT_id_FROM_ids name) (perform_all later c))
      by (destruct name; reflexivity).
    rewrite E in Hget. unfold with_cursor, SELECT_id_FROM_ids, bind,
      package_tables, the_database in Hget.
    destruct (txn (perform_all later c)) as [| [h [t |]]]; simpl in *;
      discriminate.
Qed.

Lemma id_tables_stay_sorted_witness :
  fst (PackageStore.get_installed
         (perform_all [Add_installed [5; 1]; Add_installed [3; 2 ^ 64];
                       Remove_installed [5]; Add_installed [4; 1]]
                      new_connection))
  = Ok [1; 4]
  /\ StronglySorted Z.lt [1; 4].
Proof.
  split; [reflexivity |].
  edestruct (id_tables_stay_sorted installed
               [Add_installed [5; 1]; Add_installed [3; 2 ^ 64];
                Remove_installed [5]; Add_installed [4; 1]] new_connection)
    as [_ H].
  - reflexivity.
  - constructor.
  - apply H. reflexivity.
Defined.
